(** * Offline queue, connectivity and sync of the caro-homecare client

    A shallow embedding of
    - [src/services/netInfoService.ts]      (connectivity cache and probe),
    - [src/services/offlineQueueService.ts] (the persisted request queue and
      its drain pass),
    - [src/services/apiService.ts]          (the axios client's interceptors),
    - [src/services/storageService.ts]      (the two key-value stores),
    - [src/redux/slices/offlineSlice.ts] and
      [src/redux/middleware/offlineMiddleware.ts] (pending actions),
    followed by the properties established about them.

    Asynchronous methods are written in a state-and-exception monad over a
    [World]; every [await] on the platform (reachability probe, HTTP client,
    key-value storage) asks an oracle of the environment [Env] for its
    outcome, so the statements quantify over every behaviour of the
    platform. *)

From stdpp Require Import gmap strings list fin_maps pretty.
From Stdlib Require Import ZArith.

Local Open Scope Z_scope.

(** ** Completions of JavaScript code *)

(** What a [throw] or a rejected promise carries. *)
Inductive JsError : Type :=
| TypeError                      (* property read on [undefined] *)
| Rejected (reason : string)     (* a rejected promise of the platform *)
| AxiosError (status : option Z)
    (* an axios error: [error.response.status], [None] when the request
       was sent and no response came back *)
| FuelExhausted.
    (* not a JavaScript error: the bound this development puts on
       re-entrant calls was reached *)

(** A statement completes normally with a value or abruptly with an error. *)
Inductive Completion (A : Type) : Type :=
| Normal (a : A)
| Throw (e : JsError).
Arguments Normal {A} a.
Arguments Throw {A} e.

(** ** Data of the queue service *)

(** The part of an [AxiosRequestConfig] that survives [JSON.stringify];
    [authorization] is [headers.Authorization] ([None] when unset). *)
Record AxiosRequestConfig : Type := {
  method : string;
  url : string;
  data : string;
  authorization : option string;
}.

#[global] Instance AxiosRequestConfig_eq_dec : EqDecision AxiosRequestConfig.
Proof. solve_decision. Defined.

(** [interface QueuedRequest] *)
Record QueuedRequest : Type := {
  id : string;
  config : AxiosRequestConfig;
  timestamp : Z;
}.

#[global] Instance QueuedRequest_eq_dec : EqDecision QueuedRequest.
Proof. solve_decision. Defined.

(** Private fields of [class OfflineQueueService]. *)
Record OfflineQueueService : Type := {
  queue : list QueuedRequest;
  isProcessing : bool;
  isInitialized : bool;
}.

(** Private field [connected] of [class NetInfoService] (initially [true]).
    The listener set is kept apart, in [Hub] below: the only listener call
    the queue service depends on is the immediate one made by
    [addConnectivityListener]. *)
Record NetInfoService : Type := {
  connected : bool;
}.

(** The platform as the services see it: the value stored under
    [STORAGE_KEYS.OFFLINE_DATA], and how often each platform call was made.
    [dispatched] lists the configs handed to [apiService.api.request], oldest
    first; [awaits] lists the queue-service state that was visible to other
    tasks each time a method suspended on a platform call. *)
Record Platform : Type := {
  offline_data : option (list QueuedRequest);
  probes : nat;
  writes : nat;
  reads : nat;
  clock : nat;
  dispatched : list AxiosRequestConfig;
  awaits : list OfflineQueueService;
}.

Record World : Type := {
  svc : OfflineQueueService;
  net : NetInfoService;
  plat : Platform;
}.

(** How an exchange with the server ends for the caller of
    [apiService.api.request]: with the last response that came, or with a
    request that was sent and got no response.  [authorization] is the
    [Authorization] header that request went out with, as the request
    interceptor left it: it is part of [error.config]. *)
Inductive Exchange : Type :=
| Answered (status : Z)
| Unanswered (authorization : option string).

(** The outcomes of the platform calls, by call number. *)
Record Env : Type := {
  (** [NetInfo.fetch()]: the [isConnected] field of the state it resolves
      to ([None] for [null]), or a rejection. *)
  NetInfo_fetch : nat -> Completion (option bool);
  (** the exchange started by [apiService.api.request(config)] *)
  api_request : nat -> AxiosRequestConfig -> Exchange;
  (** [AsyncStorage.setItem]: does the write succeed? *)
  AsyncStorage_setItem : nat -> bool;
  (** [AsyncStorage.getItem]: does the read succeed? *)
  AsyncStorage_getItem : nat -> bool;
  (** [Date.now()] *)
  Date_now : nat -> Z;
}.

(** ** The monad of asynchronous methods *)

(** A method runs on a state [St] and completes normally or abruptly. *)
Definition M (St A : Type) : Type := St -> Completion A * St.

Section Monad.
Context {St : Type}.

Definition ret {A} (a : A) : M St A := fun w => (Normal a, w).

Definition throw {A} (e : JsError) : M St A := fun w => (Throw e, w).

Definition bind {A B} (m : M St A) (k : A -> M St B) : M St B :=
  fun w =>
    match m w with
    | (Normal a, w') => k a w'
    | (Throw e, w') => (Throw e, w')
    end.

(** [try { m } catch (e) { h e }] *)
Definition try_catch {A} (m : M St A) (h : JsError -> M St A) : M St A :=
  fun w =>
    match m w with
    | (Normal a, w') => (Normal a, w')
    | (Throw e, w') => h e w'
    end.

(** [try { m } finally { f }] *)
Definition try_finally {A} (m : M St A) (f : M St unit) : M St A :=
  fun w =>
    match m w with
    | (c, w') =>
        match f w' with
        | (Normal _, w'') => (c, w'')
        | (Throw e, w'') => (Throw e, w'')
        end
    end.

Definition gets {A} (f : St -> A) : M St A := fun w => (Normal (f w), w).

Definition modify (f : St -> St) : M St unit := fun w => (Normal tt, f w).

(** A call whose promise is not awaited: the caller goes on whatever the
    callee's completion is.  The callee is run to its end at the point
    where it is started. *)
Definition detached {A} (m : M St A) : M St unit :=
  fun w => (Normal tt, snd (m w)).

(** [console.error(...)] has no effect on the state. *)
Definition console_error : M St unit := ret tt.
End Monad.

Notation "x <- m ;; k" := (bind m (fun x => k))
  (at level 100, m at next level, right associativity).
Notation "m ;;; k" := (bind m (fun _ => k))
  (at level 100, right associativity).

(** *** Field updates *)

Definition set_queue (q : list QueuedRequest) (w : World) : World :=
  {| svc := {| queue := q;
               isProcessing := isProcessing (svc w);
               isInitialized := isInitialized (svc w) |};
     net := net w; plat := plat w |}.

Definition set_isProcessing (b : bool) (w : World) : World :=
  {| svc := {| queue := queue (svc w);
               isProcessing := b;
               isInitialized := isInitialized (svc w) |};
     net := net w; plat := plat w |}.

Definition set_isInitialized (b : bool) (w : World) : World :=
  {| svc := {| queue := queue (svc w);
               isProcessing := isProcessing (svc w);
               isInitialized := b |};
     net := net w; plat := plat w |}.

Definition set_connected (b : bool) (w : World) : World :=
  {| svc := svc w; net := {| connected := b |}; plat := plat w |}.

Definition set_plat (p : Platform) (w : World) : World :=
  {| svc := svc w; net := net w; plat := p |}.

(** The task suspends: the current service state becomes visible. *)
Definition suspend (w : World) : Platform :=
  {| offline_data := offline_data (plat w);
     probes := probes (plat w);
     writes := writes (plat w);
     reads := reads (plat w);
     clock := clock (plat w);
     dispatched := dispatched (plat w);
     awaits := awaits (plat w) ++ [svc w] |}.


(** ** Platform calls *)

(** [await NetInfo.fetch()], reduced to [state.isConnected]. *)
Definition NetInfo_fetch_isConnected (env : Env) : M World (option bool) :=
  fun w =>
    let p := suspend w in
    (NetInfo_fetch env (probes p),
     set_plat {| offline_data := offline_data p;
                 probes := S (probes p);
                 writes := writes p;
                 reads := reads p;
                 clock := clock p;
                 dispatched := dispatched p;
                 awaits := awaits p |} w).

(** The client takes [config] and the exchange with the server runs to its
    end.  What the interceptors do before that end (attach the token,
    refresh it after a 401 and send again) is the subject of [Api] below;
    what they do at that end is in [OfflineQueue.Over.apiService_request]. *)
Definition client_exchange (env : Env) (c : AxiosRequestConfig)
  : M World Exchange :=
  fun w =>
    let p := suspend w in
    (Normal (api_request env (length (dispatched p)) c),
     set_plat {| offline_data := offline_data p;
                 probes := probes p;
                 writes := writes p;
                 reads := reads p;
                 clock := clock p;
                 dispatched := dispatched p ++ [c];
                 awaits := awaits p |} w).

(** [error.config]: the request as it went out. *)
Definition error_config (authorization' : option string)
    (c : AxiosRequestConfig) : AxiosRequestConfig :=
  {| method := method c; url := url c; data := data c;
     authorization := authorization' |}.

(** [await storageService.setItem(STORAGE_KEYS.OFFLINE_DATA, value)]: the
    value is stringified and written; the write may be rejected. *)
Definition storageService_setItem (env : Env) (value : list QueuedRequest)
  : M World unit :=
  fun w =>
    let p := suspend w in
    let ok := AsyncStorage_setItem env (writes p) in
    ((if ok then Normal tt else Throw (Rejected "setItem")),
     set_plat {| offline_data := if ok then Some value else offline_data p;
                 probes := probes p;
                 writes := S (writes p);
                 reads := reads p;
                 clock := clock p;
                 dispatched := dispatched p;
                 awaits := awaits p |} w).

(** [await AsyncStorage.getItem(STORAGE_KEYS.OFFLINE_DATA)] followed by
    [JSON.parse]: the stored queue, [None] for [null]; the read may be
    rejected. *)
Definition AsyncStorage_getItem_parsed (env : Env)
  : M World (option (list QueuedRequest)) :=
  fun w =>
    let p := suspend w in
    ((if AsyncStorage_getItem env (reads p) then Normal (offline_data p)
      else Throw (Rejected "getItem")),
     set_plat {| offline_data := offline_data p;
                 probes := probes p;
                 writes := writes p;
                 reads := S (reads p);
                 clock := clock p;
                 dispatched := dispatched p;
                 awaits := awaits p |} w).

(** [await storageService.getItem(STORAGE_KEYS.OFFLINE_DATA)]: a rejected
    read is logged and [null] is returned. *)
Definition storageService_getItem (env : Env)
  : M World (option (list QueuedRequest)) :=
  try_catch (AsyncStorage_getItem_parsed env)
    (fun _ => console_error ;;; ret None).

(** [Date.now()] *)
Definition Date_now_call (env : Env) : M World Z :=
  fun w =>
    let p := plat w in
    (Normal (Date_now env (clock p)),
     set_plat {| offline_data := offline_data p;
                 probes := probes p;
                 writes := writes p;
                 reads := reads p;
                 clock := S (clock p);
                 dispatched := dispatched p;
                 awaits := awaits p |} w).

(** ** [netInfoService.ts] *)

Module NetInfo.

(** [state.isConnected ?? false] *)
Definition nullish_false (o : option bool) : bool :=
  match o with Some b => b | None => false end.

(** [private async updateConnectivity()] *)
Definition updateConnectivity (env : Env) : M World unit :=
  try_catch
    (state <- NetInfo_fetch_isConnected env ;;
     modify (set_connected (nullish_false state)))
    (fun _ => console_error).

(** [async isConnected(): Promise<boolean>] *)
Definition isConnected (env : Env) : M World bool :=
  try_catch
    (state <- NetInfo_fetch_isConnected env ;;
     modify (set_connected (nullish_false state)) ;;;
     gets (fun w => connected (net w)))
    (fun _ =>
       console_error ;;;
       gets (fun w => connected (net w))).

(** [constructor()]: the handler registered with [NetInfo.addEventListener]
    is the subject of [Hub] below; [this.updateConnectivity()] is not
    awaited. *)
Definition constructor (env : Env) : M World unit :=
  detached (updateConnectivity env).

End NetInfo.

(** ** [offlineQueueService.ts] *)

Module OfflineQueue.

(** [this.queue.push(request)] *)
Definition push (request : QueuedRequest) : M World unit :=
  modify (fun w => set_queue (queue (svc w) ++ [request]) w).

(** [this.queue.shift()]: removes and returns the head, [undefined] on an
    empty array. *)
Definition shift : M World (option QueuedRequest) :=
  fun w =>
    match queue (svc w) with
    | [] => (Normal None, w)
    | r :: rest => (Normal (Some r), set_queue rest w)
    end.

(** [private async persistQueue()] *)
Definition persistQueue (env : Env) : M World unit :=
  try_catch
    (q <- gets (fun w => queue (svc w)) ;;
     storageService_setItem env q)
    (fun _ => console_error).

(** [async clearQueue(): Promise<void>] *)
Definition clearQueue (env : Env) : M World unit :=
  modify (set_queue []) ;;;
  persistQueue env.

(** *** The methods that reach the client

    [offlineQueueService.ts] and [apiService.ts] import each other: a pass
    hands its requests to the client, and the client's response interceptor
    calls [offlineQueueService.enqueueRequest], which may start a pass.  The
    methods are written first over the [enqueueRequest] the interceptor
    calls, and closed below by recursion on the depth of these calls. *)

Module Over.
Section Over.
Variable env : Env.
Variable interceptor_enqueueRequest : AxiosRequestConfig -> M World unit.

(** [await apiService.api.request(config)].  A response with a status in
    [200, 300) resolves, any other rejects.  When the request was sent and
    no response came, the response interceptor (apiService.ts, lines 67-78)
    probes the connectivity and, offline, calls
    [offlineQueueService.enqueueRequest(error.config)] without awaiting it
    and rejects with the error it throws. *)
Definition apiService_request (c : AxiosRequestConfig) : M World unit :=
  exchange <- client_exchange env c ;;
  match exchange with
  | Answered status =>
      if ((200 <=? status) && (status <? 300))%bool then ret tt
      else throw (AxiosError (Some status))
  | Unanswered authorization' =>
      isConnected <- NetInfo.isConnected env ;;
      if negb isConnected then
        detached (interceptor_enqueueRequest (error_config authorization' c)) ;;;
        throw (Rejected
          "Network error: Request queued for when connection is restored")
      else throw (AxiosError None)
  end.

(** The body of the [for] loop of [processQueue], for the [n] iterations
    that remain.  The result of an iteration tells whether the loop goes on
    ([break] after the first failed request). *)
Fixpoint drain (n : nat) : M World unit :=
  match n with
  | O => ret tt
  | S n' =>
      request <- gets (fun w => head (queue (svc w))) ;;
      goes_on <-
        try_catch
          (c <- match request with
                | Some r => ret (config r)
                | None => throw TypeError
                end ;;
           apiService_request c ;;;
           _ <- shift ;;
           ret true)
          (fun _ =>
             match request with
             | Some _ => console_error
             | None => throw TypeError
             end ;;;
             failedRequest <- shift ;;
             match failedRequest with
             | Some r => push r
             | None => ret tt
             end ;;;
             ret false) ;;
      if goes_on : bool then drain n' else ret tt
  end.

(** [private async processQueue()] *)
Definition processQueue : M World unit :=
  busy <- gets (fun w => isProcessing (svc w)) ;;
  len <- gets (fun w => length (queue (svc w))) ;;
  if (busy || (len =? 0)%nat)%bool then ret tt
  else
    modify (set_isProcessing true) ;;;
    try_finally
      (try_catch
         (isConnected <- NetInfo.isConnected env ;;
          if negb isConnected then modify (set_isProcessing false)
          else
            originalQueueLength <- gets (fun w => length (queue (svc w))) ;;
            drain originalQueueLength ;;;
            persistQueue env)
         (fun _ => console_error))
      (modify (set_isProcessing false)).

(** [private handleConnectivityChange = (isConnected) => ...] *)
Definition handleConnectivityChange (isConnected : bool) : M World unit :=
  len <- gets (fun w => length (queue (svc w))) ;;
  if (isConnected && (0 <? len)%nat)%bool
  then detached processQueue
  else ret tt.

(** [netInfoService.addConnectivityListener(listener)] with this service's
    listener: it is called at once with the cached state. *)
Definition addConnectivityListener : M World unit :=
  c <- gets (fun w => connected (net w)) ;;
  handleConnectivityChange c.

(** [private async initialize()] *)
Definition initialize : M World unit :=
  initialized <- gets (fun w => isInitialized (svc w)) ;;
  if initialized : bool then ret tt
  else
    try_catch
      (persistedQueue <- storageService_getItem env ;;
       match persistedQueue with
       | Some q => modify (set_queue q)
       | None => ret tt
       end ;;;
       addConnectivityListener ;;;
       modify (set_isInitialized true))
      (fun _ => console_error).

(** [async enqueueRequest(config): Promise<void>] *)
Definition enqueueRequest (c : AxiosRequestConfig) : M World unit :=
  initialize ;;;
  now_id <- Date_now_call env ;;
  now_ts <- Date_now_call env ;;
  let request := {| id := pretty now_id; config := c; timestamp := now_ts |} in
  push request ;;;
  persistQueue env ;;;
  isConnected <- NetInfo.isConnected env ;;
  if isConnected : bool then detached processQueue else ret tt.

End Over.
End Over.

(** [async enqueueRequest(config): Promise<void>]; [depth] bounds how deep
    the client's calls of it may nest.  A nested call finds the guard flag
    of the running pass set, so its own pass returns at once and the
    nesting ends there: from depth 1 on a pass no longer depends on
    [depth] (lemma [processQueue_depth]). *)
Fixpoint enqueueRequest (env : Env) (depth : nat) (c : AxiosRequestConfig)
  : M World unit :=
  match depth with
  | O => throw FuelExhausted
  | S depth' => Over.enqueueRequest env (enqueueRequest env depth') c
  end.

(** The loop of [processQueue] *)
Definition drain (env : Env) (depth : nat) (n : nat) : M World unit :=
  Over.drain env (enqueueRequest env depth) n.

(** [private async processQueue()] *)
Definition processQueue (env : Env) (depth : nat) : M World unit :=
  Over.processQueue env (enqueueRequest env depth).

(** [private async initialize()] *)
Definition initialize (env : Env) (depth : nat) : M World unit :=
  Over.initialize env (enqueueRequest env depth).

(** [constructor() { this.initialize(); }] *)
Definition constructor (env : Env) (depth : nat) : M World unit :=
  detached (initialize env depth).

End OfflineQueue.

(** The module-level instances as their field initialisers leave them, on
    the platform [p]. *)
Definition instances (p : Platform) : World :=
  {| svc := {| queue := []; isProcessing := false; isInitialized := false |};
     net := {| connected := true |};
     plat := p |}.

(** The modules are loaded: [netInfoService] is constructed, then
    [offlineQueueService], which imports it. *)
Definition load (env : Env) (depth : nat) : M World unit :=
  NetInfo.constructor env ;;;
  OfflineQueue.constructor env depth.

(** ** Object identity: what [getQueue] hands out

    The definitions above keep the queue as the list of its entries, which
    is all the drain pass and [enqueueRequest] depend on.  [getQueue] is
    about which objects are shared, so here arrays and entries live in a
    heap and are named by references. *)

Module Refs.

Record Heap : Type := {
  (** array objects: the references they hold, in index order *)
  arrays : gmap positive (list positive);
  (** [QueuedRequest] objects *)
  objects : gmap positive QueuedRequest;
}.

(** The entries an array reference leads to, in order: what [processQueue]
    dispatches from [this.queue], what [persistQueue] writes, what a later
    [getQueue] shows. *)
Definition contents (a : positive) (h : Heap) : list QueuedRequest :=
  omap (fun r => objects h !! r) (default [] (arrays h !! a)).

(** [getQueue(): QueuedRequest[] { return [...this.queue]; }] with
    [this_queue] the reference held in the private field: a new array is
    allocated and filled with the elements of the queue array. *)
Definition getQueue (this_queue : positive) (h : Heap) : positive * Heap :=
  let a := fresh (dom (arrays h)) in
  (a, {| arrays := <[a := default [] (arrays h !! this_queue)]> (arrays h);
         objects := objects h |}).

(** What a caller can do with an array reference [a] it was given. *)
Inductive Mutation : Type :=
| ArrayUpdate (f : list positive -> list positive)
    (* [a.push(r)], [a.pop()], [a.shift()], [a.splice(..)], [a.reverse()],
       [a.sort(..)], [a[i] = r], [a.length = n]: the array holds [f] of
       what it held *)
| SetId (i : nat) (v : string)                     (* [a[i].id = v] *)
| SetConfig (i : nat) (v : AxiosRequestConfig)     (* [a[i].config = v] *)
| SetTimestamp (i : nat) (v : Z).                  (* [a[i].timestamp = v] *)

(** [a[i].field = v]: a write to the object the [i]-th element refers to;
    a [TypeError] and no write when [a[i]] is [undefined]. *)
Definition write_entry (a : positive) (i : nat)
    (f : QueuedRequest -> QueuedRequest) (h : Heap) : Heap :=
  match default [] (arrays h !! a) !! i with
  | Some r => {| arrays := arrays h; objects := alter f r (objects h) |}
  | None => h
  end.

Definition mutate (a : positive) (m : Mutation) (h : Heap) : Heap :=
  match m with
  | ArrayUpdate f => {| arrays := alter f a (arrays h); objects := objects h |}
  | SetId i v =>
      write_entry a i
        (fun e => {| id := v; config := config e; timestamp := timestamp e |}) h
  | SetConfig i v =>
      write_entry a i
        (fun e => {| id := id e; config := v; timestamp := timestamp e |}) h
  | SetTimestamp i v =>
      write_entry a i
        (fun e => {| id := id e; config := config e; timestamp := v |}) h
  end.

(** A caller's mutations of [a], in program order. *)
Definition mutate_all (a : positive) (ms : list Mutation) (h : Heap) : Heap :=
  foldl (fun h' m => mutate a m h') h ms.

(** Mutations of the array itself, as opposed to writes to its entries. *)
Definition array_level (m : Mutation) : bool :=
  match m with ArrayUpdate _ => true | _ => false end.

End Refs.

(** ** [storageService.ts]

    The two key-value stores hold strings.  [JSON.stringify] and
    [JSON.parse] are parameters: [J] is the type of the values that are not
    strings, and a parse yields a value or fails. *)

Module Storage.

(** What is handed to [setItem] and comes back from [getItem]. *)
Inductive Value (J : Type) : Type :=
| Str (s : string)     (* [typeof value === 'string'] *)
| Other (j : J).
Arguments Str {J} s.
Arguments Other {J} j.

Record Stores : Type := {
  encrypted : gmap string string;   (* [EncryptedStorage] *)
  async : gmap string string;       (* [AsyncStorage] *)
}.

Definition store (secure : bool) (s : Stores) : gmap string string :=
  if secure then encrypted s else async s.

Definition set_store (secure : bool) (m : gmap string string) (s : Stores)
  : Stores :=
  if secure then {| encrypted := m; async := async s |}
  else {| encrypted := encrypted s; async := m |}.

Section Service.
Context {J : Type}.
Variable JSON_stringify : J -> string.
Variable JSON_parse : string -> option (Value J).

(** A call of the platform store: it goes through when [ok], and is
    rejected otherwise. *)
Definition platform {A} (ok : bool) (run : Stores -> A * Stores)
  : M Stores A :=
  fun s => if ok then (Normal (fst (run s)), snd (run s))
           else (Throw (Rejected "storage"), s).

(** [async setItem(key, value, secure = false): Promise<void>] *)
Definition setItem (ok : bool) (key : string) (value : Value J)
    (secure : bool) : M Stores unit :=
  let stringValue :=
    match value with
    | Str s => s
    | Other j => JSON_stringify j
    end in
  platform ok (fun s =>
    (tt, set_store secure (<[key := stringValue]> (store secure s)) s)).

(** [async getItem(key, secure = false, parseJson = true): Promise<any>];
    [None] is [null]. *)
Definition getItem (ok : bool) (key : string) (secure parseJson : bool)
  : M Stores (option (Value J)) :=
  try_catch
    (value <- platform ok (fun s => (store secure s !! key, s)) ;;
     match value with
     | None => ret None
     | Some v =>
         if parseJson then
           match JSON_parse v with
           | Some parsed => ret (Some parsed)
           | None => ret (Some (Str v))
           end
         else ret (Some (Str v))
     end)
    (fun _ => console_error ;;; ret None).

(** [async removeItem(key, secure = false): Promise<void>] *)
Definition removeItem (ok : bool) (key : string) (secure : bool)
  : M Stores unit :=
  platform ok (fun s =>
    (tt, set_store secure (delete key (store secure s)) s)).

(** [async clear(secure = false): Promise<void>] *)
Definition clear (ok : bool) (secure : bool) : M Stores unit :=
  platform ok (fun s => (tt, set_store secure ∅ s)).

(** [async getAllKeys(secure = false): Promise<string[]>]: the encrypted
    store is not asked. *)
Definition getAllKeys (ok : bool) (secure : bool) : M Stores (list string) :=
  if secure then ret []
  else platform ok (fun s => (elements (dom (async s)), s)).

End Service.

End Storage.


(** ** [apiService.ts]: the interceptors of the axios client *)

Module Api.
Import Storage.

(** [STORAGE_KEYS.AUTH_TOKEN] and [STORAGE_KEYS.REFRESH_TOKEN] *)
Definition AUTH_TOKEN : string := "auth_token".
Definition REFRESH_TOKEN : string := "refresh_token".

(** What this code asks of JavaScript about the values that are not
    strings: their JSON text, the value a text parses to, their truthiness
    and their text in a template literal. *)
Record Engine (J : Type) : Type := {
  JSON_stringify : J -> string;
  JSON_parse : string -> option (Value J);
  Boolean : J -> bool;
  template : J -> string;
}.
Arguments JSON_stringify {J} _ _.
Arguments JSON_parse {J} _ _.
Arguments Boolean {J} _ _.
Arguments template {J} _ _.

(** The key-value stores, and what the client did so far. *)
Record State (J : Type) : Type := {
  stores : Stores;
  sent : list AxiosRequestConfig;  (* requests put on the wire by [this.api] *)
  refreshed : list (Value J);      (* values posted to [/auth/refresh] *)
  storage_reads : nat;             (* [getItem] calls *)
  storage_writes : nat;            (* [setItem] and [removeItem] calls *)
  reachability_probes : nat;       (* [netInfoService.isConnected()] calls *)
  handed_over : list AxiosRequestConfig;
    (* configs given to [offlineQueueService.enqueueRequest] *)
}.
Arguments stores {J} _.
Arguments sent {J} _.
Arguments refreshed {J} _.
Arguments storage_reads {J} _.
Arguments storage_writes {J} _.
Arguments reachability_probes {J} _.
Arguments handed_over {J} _.

(** The outcomes of the calls that leave the client, by call number. *)
Record Server (J : Type) : Type := {
  (** the status of the response to a request, [None] when none arrives *)
  respond : nat -> AxiosRequestConfig -> option Z;
  (** [axios.post('/auth/refresh', { refreshToken })]: [response.data.token]
      ([None] when there is none), or a rejection *)
  auth_refresh : nat -> Value J -> Completion (option (Value J));
  (** does the storage read succeed? *)
  storage_read : nat -> bool;
  (** does the storage write or removal succeed? *)
  storage_write : nat -> bool;
  (** the result of [netInfoService.isConnected()] *)
  reachable : nat -> bool;
}.
Arguments respond {J} _ _ _.
Arguments auth_refresh {J} _ _ _.
Arguments storage_read {J} _ _.
Arguments storage_write {J} _ _.
Arguments reachable {J} _ _.

(** The strings stored under the two keys the client uses. *)
Definition auth_token {J} (w : State J) : option string :=
  async (stores w) !! AUTH_TOKEN.

Definition refresh_token {J} (w : State J) : option string :=
  async (stores w) !! REFRESH_TOKEN.

Definition set_authorization (token : string) (c : AxiosRequestConfig)
  : AxiosRequestConfig :=
  {| method := method c; url := url c; data := data c;
     authorization := Some ("Bearer " +:+ token) |}.

Section Client.
Context {J : Type}.
Variable js : Engine J.
Variable srv : Server J.

(** JavaScript truthiness of what [getItem] or the refresh answer yields;
    [None] is [null] or [undefined]. *)
Definition truthy (o : option (Value J)) : bool :=
  match o with
  | Some (Str s) => negb (String.eqb s EmptyString)
  | Some (Other j) => Boolean js j
  | None => false
  end.

(** The text of a value inside a template literal. *)
Definition text (v : Value J) : string :=
  match v with
  | Str s => s
  | Other j => template js j
  end.

(** [await storageService.getItem(key)], with the defaults [secure = false]
    and [parseJson = true]. *)
Definition storageService_getItem (key : string)
  : M (State J) (option (Value J)) :=
  fun w =>
    let r := getItem (JSON_parse js) (storage_read srv (storage_reads w))
               key false true (stores w) in
    (fst r,
     {| stores := snd r; sent := sent w; refreshed := refreshed w;
        storage_reads := S (storage_reads w);
        storage_writes := storage_writes w;
        reachability_probes := reachability_probes w;
        handed_over := handed_over w |}).

(** A call of [storageService] that writes to or removes from a store. *)
Definition storage_op (op : bool -> M Stores unit) : M (State J) unit :=
  fun w =>
    let r := op (storage_write srv (storage_writes w)) (stores w) in
    (fst r,
     {| stores := snd r; sent := sent w; refreshed := refreshed w;
        storage_reads := storage_reads w;
        storage_writes := S (storage_writes w);
        reachability_probes := reachability_probes w;
        handed_over := handed_over w |}).

(** [await storageService.setItem(STORAGE_KEYS.AUTH_TOKEN, token)] *)
Definition setItem_AUTH_TOKEN (token : Value J) : M (State J) unit :=
  storage_op (fun ok => setItem (JSON_stringify js) ok AUTH_TOKEN token false).

(** [private async clearAuthAndRedirect()] *)
Definition clearAuthAndRedirect : M (State J) unit :=
  storage_op (fun ok => removeItem ok AUTH_TOKEN false) ;;;
  storage_op (fun ok => removeItem ok REFRESH_TOKEN false).

(** The request interceptor: attach the stored token. *)
Definition request_interceptor (c : AxiosRequestConfig)
  : M (State J) AxiosRequestConfig :=
  token <- storageService_getItem AUTH_TOKEN ;;
  match token with
  | Some t => if truthy token then ret (set_authorization (text t) c) else ret c
  | None => ret c
  end.

(** The adapter: the request goes out; a response with a status in
    [200, 300) resolves, anything else rejects with an axios error. *)
Definition adapter (c : AxiosRequestConfig) : M (State J) Z :=
  fun w =>
    ((match respond srv (length (sent w)) c with
      | Some code =>
          if ((200 <=? code) && (code <? 300))%bool then Normal code
          else Throw (AxiosError (Some code))
      | None => Throw (AxiosError None)
      end),
     {| stores := stores w; sent := sent w ++ [c]; refreshed := refreshed w;
        storage_reads := storage_reads w;
        storage_writes := storage_writes w;
        reachability_probes := reachability_probes w;
        handed_over := handed_over w |}).

(** [await axios.post(`${API_BASE_URL}/auth/refresh`, { refreshToken })],
    a call of axios itself: the client's interceptors are not involved. *)
Definition post_refresh (refreshToken : Value J)
  : M (State J) (option (Value J)) :=
  fun w =>
    (auth_refresh srv (length (refreshed w)) refreshToken,
     {| stores := stores w; sent := sent w;
        refreshed := refreshed w ++ [refreshToken];
        storage_reads := storage_reads w;
        storage_writes := storage_writes w;
        reachability_probes := reachability_probes w;
        handed_over := handed_over w |}).

(** [await netInfoService.isConnected()] *)
Definition isConnected : M (State J) bool :=
  fun w =>
    (Normal (reachable srv (reachability_probes w)),
     {| stores := stores w; sent := sent w; refreshed := refreshed w;
        storage_reads := storage_reads w;
        storage_writes := storage_writes w;
        reachability_probes := S (reachability_probes w);
        handed_over := handed_over w |}).

(** [offlineQueueService.enqueueRequest(error.config)], not awaited. *)
Definition enqueueRequest (c : AxiosRequestConfig) : M (State J) unit :=
  modify (fun w =>
    {| stores := stores w; sent := sent w; refreshed := refreshed w;
       storage_reads := storage_reads w;
       storage_writes := storage_writes w;
       reachability_probes := reachability_probes w;
       handed_over := handed_over w ++ [c] |}).

(** The [try] block of the 401 branch.  [Some originalRequest] stands for
    [return this.api(originalRequest)]; the returned promise is not awaited
    inside the [try], so the retry itself runs outside of it. *)
Definition try_refresh (c : AxiosRequestConfig)
  : M (State J) (option AxiosRequestConfig) :=
  refreshToken <- storageService_getItem REFRESH_TOKEN ;;
  match refreshToken with
  | Some rt =>
      if truthy refreshToken then
        token <- post_refresh rt ;;
        match token with
        | Some t =>
            if truthy token then
              setItem_AUTH_TOKEN t ;;;
              ret (Some (set_authorization (text t) c))
            else ret None
        | None => ret None
        end
      else ret None
  | None => ret None
  end.

(** The rejection handler of the response interceptor; [api] is the client
    itself, [c] is [error.config]. *)
Definition response_rejected
    (api : AxiosRequestConfig -> M (State J) Z)
    (error : JsError) (c : AxiosRequestConfig) : M (State J) Z :=
  let status := match error with AxiosError s => s | _ => None end in
  let has_request := match error with AxiosError _ => true | _ => false end in
  returned <-
    match status with
    | Some code =>
        if code =? 401 then
          r <- try_catch (try_refresh c)
                 (fun _ => clearAuthAndRedirect ;;; ret None) ;;
          match r with
          | Some originalRequest => ret (Some originalRequest)
          | None => clearAuthAndRedirect ;;; ret None
          end
        else ret None
    | None => ret None
    end ;;
  match returned with
  | Some originalRequest => api originalRequest
  | None =>
      match status with
      | None =>
          if has_request : bool then
            connected <- isConnected ;;
            if negb connected then
              enqueueRequest c ;;;
              throw (Rejected
                "Network error: Request queued for when connection is restored")
            else ret tt
          else ret tt
      | Some _ => ret tt
      end ;;;
      throw error
  end.

(** [this.api(config)]: request interceptor, adapter, response interceptor.
    The handler calls the client again, without a bound in the source;
    [fuel] bounds the depth of these calls. *)
Fixpoint api (fuel : nat) (c : AxiosRequestConfig) : M (State J) Z :=
  match fuel with
  | O => throw FuelExhausted
  | S fuel' =>
      c' <- request_interceptor c ;;
      try_catch (adapter c')
        (fun error => response_rejected (api fuel') error c')
  end.

End Client.

End Api.

(** ** [offlineSlice.ts] and [offlineMiddleware.ts] *)

Module Redux.

(** An action of another slice, as far as this code reads it:
    [action.type] and whether [action.meta?.processOffline] is truthy. *)
Record AnyAction : Type := {
  type : string;
  processOffline : bool;
}.

(** [interface OfflineAction] *)
Record OfflineAction : Type := {
  action : AnyAction;
  timestamp : Z;
  attempts : option nat;
}.

(** [interface OfflineState] *)
Record OfflineState : Type := {
  isOnline : bool;
  pendingActions : list OfflineAction;
  lastSyncTimestamp : option Z;
}.

Definition initialState : OfflineState :=
  {| isOnline := true; pendingActions := []; lastSyncTimestamp := None |}.

(** An element of the array [syncOfflineData] resolves to; the [result] and
    [error] fields are not read by the reducer. *)
Record SyncResult : Type := {
  success : bool;
  result_action : AnyAction;
}.

(** *** Array methods *)

(** [Array.prototype.findIndex], [-1] when no element satisfies [p]. *)
Fixpoint findIndex_from {A} (p : A -> bool) (l : list A) (i : Z) : Z :=
  match l with
  | [] => -1
  | x :: l' => if p x then i else findIndex_from p l' (i + 1)
  end.

Definition findIndex {A} (p : A -> bool) (l : list A) : Z :=
  findIndex_from p l 0.

(** [Array.prototype.filter] with a callback that reads the index. *)
Fixpoint filter_index_from {A} (p : A -> Z -> bool) (l : list A) (i : Z)
  : list A :=
  match l with
  | [] => []
  | x :: l' =>
      if p x i then x :: filter_index_from p l' (i + 1)
      else filter_index_from p l' (i + 1)
  end.

Definition filter_index {A} (p : A -> Z -> bool) (l : list A) : list A :=
  filter_index_from p l 0.

(** [Array.prototype.includes] on numbers. *)
Definition includes (l : list Z) (i : Z) : bool :=
  existsb (Z.eqb i) l.

(** *** Case reducers *)

Definition setOnlineStatus (payload : bool) (state : OfflineState)
  : OfflineState :=
  {| isOnline := payload;
     pendingActions := pendingActions state;
     lastSyncTimestamp := lastSyncTimestamp state |}.

Definition markOfflineAction (payload : OfflineAction) (state : OfflineState)
  : OfflineState :=
  {| isOnline := isOnline state;
     pendingActions :=
       pendingActions state ++
       [{| action := action payload; timestamp := timestamp payload;
           attempts := Some 0%nat |}];
     lastSyncTimestamp := lastSyncTimestamp state |}.

Definition removePendingAction (payload_id : Z) (state : OfflineState)
  : OfflineState :=
  {| isOnline := isOnline state;
     pendingActions :=
       filter_index (fun _ index => negb (index =? payload_id))
         (pendingActions state);
     lastSyncTimestamp := lastSyncTimestamp state |}.

Definition clearPendingActions (state : OfflineState) : OfflineState :=
  {| isOnline := isOnline state;
     pendingActions := [];
     lastSyncTimestamp := lastSyncTimestamp state |}.

(** The indexes computed by the [syncOfflineData.fulfilled] case. *)
Definition successfulActionIndexes (payload : list SyncResult)
    (state : OfflineState) : list Z :=
  List.filter (fun index => negb (index =? -1))
    (List.map
       (fun result =>
          findIndex
            (fun pa => String.eqb (type (action pa))
                                  (type (result_action result)))
            (pendingActions state))
       (List.filter success payload)).

(** [builder.addCase(syncOfflineData.fulfilled, ...)]; [now] is the value
    of [Date.now()]. *)
Definition syncOfflineData_fulfilled (now : Z) (payload : list SyncResult)
    (state : OfflineState) : OfflineState :=
  {| isOnline := isOnline state;
     pendingActions :=
       filter_index
         (fun _ index =>
            negb (includes (successfulActionIndexes payload state) index))
         (pendingActions state);
     lastSyncTimestamp := Some now |}.

(** *** The store and the middleware *)

(** What is dispatched: an action of the offline slice, or an action of
    another slice, for which the offline slice has no case. *)
Inductive Dispatched : Type :=
| SetOnlineStatus (payload : bool)
| MarkOfflineAction (payload : OfflineAction)
| RemovePendingAction (payload_id : Z)
| ClearPendingActions
| SyncFulfilled (now : Z) (payload : list SyncResult)
| Other (a : AnyAction).

(** The slice reducer, which is what [next(action)] reaches. *)
Definition reducer (state : OfflineState) (d : Dispatched) : OfflineState :=
  match d with
  | SetOnlineStatus b => setOnlineStatus b state
  | MarkOfflineAction p => markOfflineAction p state
  | RemovePendingAction i => removePendingAction i state
  | ClearPendingActions => clearPendingActions state
  | SyncFulfilled now payload => syncOfflineData_fulfilled now payload state
  | Other _ => state
  end.

(** The application: the persisted [offline] slice next to the services. *)
Record App : Type := {
  offline : OfflineState;
  world : World;
}.

Definition next (d : Dispatched) : M App unit :=
  modify (fun app =>
    {| offline := reducer (offline app) d; world := world app |}).

(** A method of the services, run inside the application. *)
Definition in_world {A} (m : M World A) : M App A :=
  fun app =>
    (fst (m (world app)), {| offline := offline app; world := snd (m (world app)) |}).

(** [offlineMiddleware]: [store => next => async action => ...].
    Only an action of another slice can carry [meta.processOffline]: the
    action creators of the offline slice set no [meta].
    [store.dispatch(markOfflineAction(..))] enters the middleware again, and
    [depth] bounds that; the inner call meets no [await] before its
    [next(action)], so it is over when [store.dispatch] returns. *)
Fixpoint offlineMiddleware (env : Env) (depth : nat) (d : Dispatched)
  : M App unit :=
  match depth with
  | O => throw FuelExhausted
  | S depth' =>
      match d with
      | Other a =>
          if processOffline a then
            isConnected <- in_world (NetInfo.isConnected env) ;;
            if negb isConnected then
              now <- in_world (Date_now_call env) ;;
              offlineMiddleware env depth'
                (MarkOfflineAction
                   {| action := a; timestamp := now; attempts := None |}) ;;;
              next (Other {| type := type a +:+ "_QUEUED";
                             processOffline := false |})
            else next d
          else next d
      | _ => next d
      end
  end.

(** *** The thunk *)

(** [dispatch(pendingAction.action).unwrap()] in the store of [store.ts].
    A pending action is a plain object, so it passes the default middleware
    and reaches [offlineMiddleware], an [async] function: what [dispatch]
    returns is the promise of that function, which has no [unwrap], and the
    call throws a [TypeError] once the action has been dispatched. *)
Definition dispatch_unwrap (env : Env) (depth : nat) (a : AnyAction)
  : M App unit :=
  detached (offlineMiddleware env depth (Other a)) ;;;
  throw TypeError.

(** The [for] loop of the payload creator over [pendingActions]. *)
Fixpoint replay (env : Env) (depth : nat) (pendingActions : list OfflineAction)
  : M App (list SyncResult) :=
  match pendingActions with
  | [] => ret []
  | pendingAction :: rest =>
      result <-
        try_catch
          (dispatch_unwrap env depth (action pendingAction) ;;;
           ret {| success := true; result_action := action pendingAction |})
          (fun _ =>
             ret {| success := false; result_action := action pendingAction |}) ;;
      results <- replay env depth rest ;;
      ret (result :: results)
  end.

(** [syncOfflineData]: [None] when [condition] cancels the thunk, else the
    results in the order of the pending actions. *)
Definition syncOfflineData (env : Env) (depth : nat)
  : M App (option (list SyncResult)) :=
  state <- gets offline ;;
  if (isOnline state && (0 <? length (pendingActions state))%nat)%bool then
    results <- replay env depth (pendingActions state) ;;
    ret (Some results)
  else ret None.

End Redux.

(** ** Vocabulary of the statements *)

(** The value [isConnected] returns, from the probe's outcome and the
    cache. *)
Definition probe_value (env : Env) (w : World) : bool :=
  match NetInfo_fetch env (probes (plat w)) with
  | Normal state => NetInfo.nullish_false state
  | Throw _ => connected (net w)
  end.

(** The world after a call of [isConnected]. *)
Definition probed (env : Env) (w : World) : World :=
  {| svc := svc w;
     net := {| connected := probe_value env w |};
     plat := {| offline_data := offline_data (plat w);
                probes := S (probes (plat w));
                writes := writes (plat w);
                reads := reads (plat w);
                clock := clock (plat w);
                dispatched := dispatched (plat w);
                awaits := awaits (plat w) ++ [svc w] |} |}.

(** The world after a call of [persistQueue]. *)
Definition persisted (env : Env) (w : World) : World :=
  {| svc := svc w;
     net := net w;
     plat := {| offline_data :=
                  if AsyncStorage_setItem env (writes (plat w))
                  then Some (queue (svc w)) else offline_data (plat w);
                probes := probes (plat w);
                writes := S (writes (plat w));
                reads := reads (plat w);
                clock := clock (plat w);
                dispatched := dispatched (plat w);
                awaits := awaits (plat w) ++ [svc w] |} |}.

(** The world after [c] was handed to the dispatcher. *)
Definition requested (c : AxiosRequestConfig) (w : World) : World :=
  {| svc := svc w;
     net := net w;
     plat := {| offline_data := offline_data (plat w);
                probes := probes (plat w);
                writes := writes (plat w);
                reads := reads (plat w);
                clock := clock (plat w);
                dispatched := dispatched (plat w) ++ [c];
                awaits := awaits (plat w) ++ [svc w] |} |}.

(** The states a method exposes at its suspensions, given that it starts
    with the guard flag set: [keeps_flag] methods leave the flag set too. *)
Definition flagged_awaits {A} (m : M World A) : Prop :=
  forall w, isProcessing (svc w) = true ->
    exists ext,
      awaits (plat (snd (m w))) = awaits (plat w) ++ ext /\
      Forall (fun s => isProcessing s = true) ext.

Definition keeps_flag {A} (m : M World A) : Prop :=
  forall w, isProcessing (svc w) = true ->
    isProcessing (svc (snd (m w))) = true /\
    exists ext,
      awaits (plat (snd (m w))) = awaits (plat w) ++ ext /\
      Forall (fun s => isProcessing s = true) ext.

(** Two methods do the same whenever they start with the guard flag
    set. *)
Definition agree_during_pass {A} (m1 m2 : M World A) : Prop :=
  forall w, isProcessing (svc w) = true -> m1 w = m2 w.

(** The states a call of [processQueue] exposes at its suspensions. *)
Definition pass_awaits (env : Env) (depth : nat) (w : World)
  : list OfflineQueueService :=
  drop (length (awaits (plat w)))
       (awaits (plat (snd (OfflineQueue.processQueue env depth w)))).


(** ** Sample data *)

Module Sample.

Definition clock_in : AxiosRequestConfig :=
  {| method := "POST"; url := "/visits/v1/clock-in"; data := "{location}";
     authorization := None |}.

Definition clock_out : AxiosRequestConfig :=
  {| method := "POST"; url := "/visits/v1/clock-out"; data := "{location}";
     authorization := None |}.

Definition entry_A : QueuedRequest :=
  {| id := "1700000000000"; config := clock_in; timestamp := 1700000000000 |}.

Definition entry_B : QueuedRequest :=
  {| id := "1700000000125"; config := clock_out; timestamp := 1700000000125 |}.

(** An initialised, idle service holding [q]; nothing happened yet. *)
Definition idle (q : list QueuedRequest) : World :=
  {| svc := {| queue := q; isProcessing := false; isInitialized := true |};
     net := {| connected := true |};
     plat := {| offline_data := None; probes := 0; writes := 0; reads := 0;
                clock := 0; dispatched := []; awaits := [] |} |}.

(** The same service in the middle of a pass. *)
Definition draining (q : list QueuedRequest) : World :=
  set_isProcessing true (idle q).

(** Online; every request resolves; storage works. *)
Definition env_online : Env :=
  {| NetInfo_fetch := fun _ => Normal (Some true);
     api_request := fun _ _ => Answered 200;
     AsyncStorage_setItem := fun _ => true;
     AsyncStorage_getItem := fun _ => true;
     Date_now := fun n => 1700000000000 + Z.of_nat n |}.

(** The connection drops after the first probe: the first request of the
    pass is sent and gets no response, and every later probe reports
    offline. *)
Definition env_connection_drops : Env :=
  {| NetInfo_fetch := fun n => Normal (Some (n =? 0)%nat);
     api_request := fun _ _ => Unanswered None;
     AsyncStorage_setItem := fun _ => true;
     AsyncStorage_getItem := fun _ => true;
     Date_now := fun n => 1700000000500 + Z.of_nat n |}.

(** Offline; storage writes are rejected; the clock stays within one
    millisecond. *)
Definition env_offline_faulty : Env :=
  {| NetInfo_fetch := fun _ => Normal (Some false);
     api_request := fun _ _ => Answered 200;
     AsyncStorage_setItem := fun _ => false;
     AsyncStorage_getItem := fun _ => true;
     Date_now := fun _ => 1700000000000 |}.

End Sample.

(** ** Vocabulary of the further properties *)

(** What the loop of a pass leaves alone. *)
Definition loop_frame (w w' : World) : Prop :=
  isProcessing (svc w') = isProcessing (svc w) /\
  isInitialized (svc w') = isInitialized (svc w) /\
  net w' = net w /\
  offline_data (plat w') = offline_data (plat w) /\
  probes (plat w') = probes (plat w) /\
  writes (plat w') = writes (plat w) /\
  reads (plat w') = reads (plat w) /\
  clock (plat w') = clock (plat w).

(** The world after one [Date.now()]. *)
Definition ticked (w : World) : World :=
  {| svc := svc w;
     net := net w;
     plat := {| offline_data := offline_data (plat w);
                probes := probes (plat w);
                writes := writes (plat w);
                reads := reads (plat w);
                clock := S (clock (plat w));
                dispatched := dispatched (plat w);
                awaits := awaits (plat w) |} |}.

(** The entry [enqueueRequest] builds for [c] in [w]. *)
Definition new_request (env : Env) (c : AxiosRequestConfig) (w : World)
  : QueuedRequest :=
  {| id := pretty (Date_now env (clock (plat w)));
     config := c;
     timestamp := Date_now env (S (clock (plat w))) |}.

(** The world of an initialised service once [enqueueRequest] has pushed,
    persisted and probed. *)
Definition enqueued (env : Env) (c : AxiosRequestConfig) (w : World) : World :=
  probed env
    (persisted env
       (set_queue (queue (svc w) ++ [new_request env c w])
          (ticked (ticked w)))).

(** [for (const c of cs) await offlineQueueService.enqueueRequest(c)] *)
Fixpoint enqueue_each (env : Env) (depth : nat)
    (cs : list AxiosRequestConfig) : M World unit :=
  match cs with
  | [] => ret tt
  | c :: cs' =>
      OfflineQueue.enqueueRequest env depth c ;;; enqueue_each env depth cs'
  end.

(** Every probe from the [k]-th on resolves and reports [b]. *)
Definition probes_report (env : Env) (b : bool) (k : nat) : Prop :=
  forall n, (k <= n)%nat ->
    exists state, NetInfo_fetch env n = Normal state /\
                  NetInfo.nullish_false state = b.

(** What the response interceptor adds to the queue when the exchange for
    entry [a] ends as [x] and its probe is the next one made in [w]:
    nothing when a response came or the probe finds the device connected,
    else a new entry for [error.config]. *)
Definition interceptor_copies (env : Env) (a : QueuedRequest) (x : Exchange)
    (w : World) : list QueuedRequest :=
  match x with
  | Answered _ => []
  | Unanswered authorization' =>
      if probe_value env w then []
      else [new_request env (error_config authorization' (config a)) w]
  end.

(** The process is started again: the platform keeps what it has, and the
    modules are loaded anew. *)
Definition restart (env : Env) (depth : nat) (w : World) : World :=
  snd (load env depth (instances (plat w))).

(** The world after a call of [storageService.getItem]. *)
Definition read (w : World) : World :=
  {| svc := svc w;
     net := net w;
     plat := {| offline_data := offline_data (plat w);
                probes := probes (plat w);
                writes := writes (plat w);
                reads := S (reads (plat w));
                clock := clock (plat w);
                dispatched := dispatched (plat w);
                awaits := awaits (plat w) ++ [svc w] |} |}.

(** What that call returns: the stored queue, [None] when there is none or
    when the read is rejected. *)
Definition read_value (env : Env) (w : World) : option (list QueuedRequest) :=
  if AsyncStorage_getItem env (reads (plat w)) then offline_data (plat w)
  else None.

(** The world of a service that is not initialised once [initialize] has
    read the stored queue. *)
Definition loaded (env : Env) (w : World) : World :=
  match read_value env w with
  | Some q => set_queue q (read w)
  | None => read w
  end.

(** A dispatch that resolves: the exchange ends with a status in
    [200, 300). *)
Definition resolves (x : Exchange) : bool :=
  match x with
  | Answered status => ((200 <=? status) && (status <? 300))%bool
  | Unanswered _ => false
  end.

(** ** Further sample data *)

Module Scenario.

Definition notes : AxiosRequestConfig :=
  {| method := "POST"; url := "/visits/v1/notes"; data := "{text}";
     authorization := None |}.

Definition entry_C : QueuedRequest :=
  {| id := "1700000000250"; config := notes; timestamp := 1700000000250 |}.

(** Online; the first request of a pass is answered with a server
    error. *)
Definition env_head_fails : Env :=
  {| NetInfo_fetch := fun _ => Normal (Some true);
     api_request := fun n _ => if (n =? 0)%nat then Answered 500
                               else Answered 200;
     AsyncStorage_setItem := fun _ => true;
     AsyncStorage_getItem := fun _ => true;
     Date_now := fun n => 1700000000000 + Z.of_nat n |}.

(** Online; the second request of a pass is answered with a server
    error. *)
Definition env_second_fails : Env :=
  {| NetInfo_fetch := fun _ => Normal (Some true);
     api_request := fun n _ => if (n =? 1)%nat then Answered 500
                               else Answered 200;
     AsyncStorage_setItem := fun _ => true;
     AsyncStorage_getItem := fun _ => true;
     Date_now := fun n => 1700000000000 + Z.of_nat n |}.

(** Online as far as the first probe tells; the second request of the
    pass is sent and gets no response, and the probes that follow report
    offline. *)
Definition env_second_unanswered : Env :=
  {| NetInfo_fetch := fun n => Normal (Some (n =? 0)%nat);
     api_request := fun n _ => if (n =? 1)%nat then Unanswered None
                               else Answered 200;
     AsyncStorage_setItem := fun _ => true;
     AsyncStorage_getItem := fun _ => true;
     Date_now := fun n => 1700000000500 + Z.of_nat n |}.

(** Offline; storage works. *)
Definition env_offline : Env :=
  {| NetInfo_fetch := fun _ => Normal (Some false);
     api_request := fun _ _ => Answered 200;
     AsyncStorage_setItem := fun _ => true;
     AsyncStorage_getItem := fun _ => true;
     Date_now := fun n => 1700000000000 + Z.of_nat n |}.

(** Offline; storage writes work, reads are rejected. *)
Definition env_offline_unreadable : Env :=
  {| NetInfo_fetch := fun _ => Normal (Some false);
     api_request := fun _ _ => Answered 200;
     AsyncStorage_setItem := fun _ => true;
     AsyncStorage_getItem := fun _ => false;
     Date_now := fun n => 1700000000000 + Z.of_nat n |}.

End Scenario.

(** ** [netInfoService.ts] with its listeners

    Listeners are functions, compared by identity; a number stands for each.
    What a listener does when called is its own business: the calls are
    recorded. *)

Module Hub.

Record NetInfoHub : Type := {
  world : World;               (* [connected], and the platform *)
  listeners : list nat;        (* the [Set], in insertion order *)
  calls : list (nat * bool);   (* [listener(value)] calls, oldest first *)
}.

(** A method of the services, run inside the hub. *)
Definition in_hub {A} (m : M World A) : M NetInfoHub A :=
  fun h =>
    (fst (m (world h)),
     {| world := snd (m (world h)); listeners := listeners h;
        calls := calls h |}).

(** [listener(this.connected)] *)
Definition call (l : nat) (h : NetInfoHub) : NetInfoHub :=
  {| world := world h; listeners := listeners h;
     calls := calls h ++ [(l, connected (net (world h)))] |}.

(** [private notifyListeners(): void]: [this.listeners.forEach(...)] *)
Definition notifyListeners (h : NetInfoHub) : NetInfoHub :=
  foldl (fun h' l => call l h') h (listeners h).

(** [private handleNetInfoChange = (state: NetInfoState) => ...];
    [state_isConnected] is [state.isConnected]. *)
Definition handleNetInfoChange (state_isConnected : option bool)
    (h : NetInfoHub) : NetInfoHub :=
  let isConnected := NetInfo.nullish_false state_isConnected in
  if negb (Bool.eqb (connected (net (world h))) isConnected) then
    notifyListeners
      {| world := set_connected isConnected (world h);
         listeners := listeners h; calls := calls h |}
  else h.

(** [private async updateConnectivity()] *)
Definition updateConnectivity (env : Env) : M NetInfoHub unit :=
  in_hub (NetInfo.updateConnectivity env).

(** [async isConnected(): Promise<boolean>] *)
Definition isConnected (env : Env) : M NetInfoHub bool :=
  in_hub (NetInfo.isConnected env).

(** [Set.prototype.add] *)
Definition set_add (l : nat) (ls : list nat) : list nat :=
  if decide (l ∈ ls) then ls else ls ++ [l].

(** [Set.prototype.delete] *)
Definition set_delete (l : nat) (ls : list nat) : list nat :=
  List.filter (fun l' => negb (l' =? l)%nat) ls.

(** [addConnectivityListener(listener): void] *)
Definition addConnectivityListener (l : nat) (h : NetInfoHub) : NetInfoHub :=
  call l {| world := world h; listeners := set_add l (listeners h);
            calls := calls h |}.

(** [removeConnectivityListener(listener): void] *)
Definition removeConnectivityListener (l : nat) (h : NetInfoHub)
  : NetInfoHub :=
  {| world := world h; listeners := set_delete l (listeners h);
     calls := calls h |}.

(** The platform delivers the events [evs], in order. *)
Definition handle_events (evs : list (option bool)) (h : NetInfoHub)
  : NetInfoHub :=
  foldl (fun h' ev => handleNetInfoChange ev h') h evs.

(** The values listener [l] was called with, oldest first. *)
Definition delivered (l : nat) (h : NetInfoHub) : list bool :=
  List.map snd (List.filter (fun p => (fst p =? l)%nat) (calls h)).

(** The values at which a sequence of readings departs from the reading
    before it, starting from [c]. *)
Fixpoint flips (c : bool) (bs : list bool) : list bool :=
  match bs with
  | [] => []
  | b :: bs' => if Bool.eqb c b then flips c bs' else b :: flips b bs'
  end.

End Hub.

Module SampleHub.

(** Two listeners registered, cached state online, nothing called yet. *)
Definition two_listeners : Hub.NetInfoHub :=
  {| Hub.world := Sample.idle []; Hub.listeners := [1; 2]%nat;
     Hub.calls := [] |}.

End SampleHub.


Module ReduxSpec.
Import Redux.

(** [pa.action.type === t] *)
Definition has_type (t : string) (pa : OfflineAction) : bool :=
  String.eqb (type (action pa)) t.

(** A result that reports the success of an action of type [t]. *)
Definition succeeded (t : string) (r : SyncResult) : bool :=
  success r && String.eqb (type (result_action r)) t.

End ReduxSpec.

Module SampleHeap.
(** The queue array at reference 1 holds one entry, the object at 1. *)
Definition one_entry : Refs.Heap :=
  {| Refs.arrays := {[ 1%positive := [1%positive] ]};
     Refs.objects := {[ 1%positive := Sample.entry_A ]} |}.
End SampleHeap.


Module SampleRedux.
Import Redux.

Definition sendMessage : AnyAction :=
  {| type := "messages/sendMessage"; processOffline := true |}.

Definition checkIn : AnyAction :=
  {| type := "visits/checkIn"; processOffline := true |}.

Definition pending (a : AnyAction) (t : Z) : OfflineAction :=
  {| action := a; timestamp := t; attempts := Some 0%nat |}.

(** Online again, with two messages and a check-in waiting. *)
Definition waiting : OfflineState :=
  {| isOnline := true;
     pendingActions := [pending sendMessage 1700000000000;
                        pending checkIn 1700000000050;
                        pending sendMessage 1700000000090];
     lastSyncTimestamp := None |}.

(** A payload that reports each pending action of [state] as replayed,
    all with success or all without. *)
Definition reported (ok : bool) (state : OfflineState) : list SyncResult :=
  List.map (fun pa => {| success := ok; result_action := action pa |})
    (pendingActions state).

(** The application with these actions waiting. *)
Definition with_waiting : App :=
  {| offline := waiting; world := Sample.idle [] |}.

(** The application at start-up. *)
Definition start : App :=
  {| offline := initialState; world := Sample.idle [] |}.

End SampleRedux.

Module SampleStorage.

(** A toy JSON with the two boolean literals. *)
Definition stringify (b : bool) : string := if b then "true" else "false".

Definition parse (s : string) : option (Storage.Value bool) :=
  if String.eqb s "true" then Some (Storage.Other true)
  else if String.eqb s "false" then Some (Storage.Other false)
  else None.

Definition empty : Storage.Stores :=
  {| Storage.encrypted := ∅; Storage.async := ∅ |}.

End SampleStorage.


Module ApiSpec.
Import Storage Api.

Section Spec.
Context {J : Type}.
Variable js : Engine J.
Variable srv : Server J.

(** What [storageService.getItem(key)] yields in [w]: [null] when the read
    is rejected or nothing is stored, else the stored text parsed, or the
    text itself when it is not JSON. *)
Definition stored (key : string) (w : State J) : option (Value J) :=
  if storage_read srv (storage_reads w) then
    match async (stores w) !! key with
    | Some v => Some (default (Str v) (JSON_parse js v))
    | None => None
    end
  else None.

(** The state after a call of [storageService.getItem]. *)
Definition read_done (w : State J) : State J :=
  {| stores := stores w; sent := sent w; refreshed := refreshed w;
     storage_reads := S (storage_reads w);
     storage_writes := storage_writes w;
     reachability_probes := reachability_probes w;
     handed_over := handed_over w |}.

(** The config the request interceptor hands to the adapter. *)
Definition outgoing (w : State J) (c : AxiosRequestConfig)
  : AxiosRequestConfig :=
  match stored AUTH_TOKEN w with
  | Some t => if truthy js (Some t) then set_authorization (text js t) c else c
  | None => c
  end.

(** The refresh token that is posted, when one is read. *)
Definition posted (o : option (Value J)) : list (Value J) :=
  match o with
  | Some rt => if truthy js (Some rt) then [rt] else []
  | None => []
  end.

(** The refresh token the response interceptor reads when it handles the
    answer to a request sent from [w]: its read follows the one of the
    request interceptor. *)
Definition refresh_value (w : State J) : option (Value J) :=
  stored REFRESH_TOKEN (read_done w).

(** The token a refresh with [rt] started from [w] leaves the client with:
    the refresh call has to resolve with a truthy token, and the token has
    to be stored. *)
Definition new_token (w : State J) (rt : Value J) : option (Value J) :=
  match auth_refresh srv (length (refreshed w)) rt with
  | Normal (Some tk) =>
      if (truthy js (Some tk) && storage_write srv (storage_writes w))%bool
      then Some tk else None
  | _ => None
  end.

(** The state once [outgoing w c] was answered with 401, the refresh token
    [rt] was exchanged for [tk] and [tk] was stored. *)
Definition refreshed_state (w : State J) (c : AxiosRequestConfig)
    (rt tk : Value J) : State J :=
  {| stores :=
       {| encrypted := encrypted (stores w);
          async := <[AUTH_TOKEN :=
                       match tk with
                       | Str s => s
                       | Other j => JSON_stringify js j
                       end]> (async (stores w)) |};
     sent := sent w ++ [outgoing w c];
     refreshed := refreshed w ++ [rt];
     storage_reads := S (S (storage_reads w));
     storage_writes := S (storage_writes w);
     reachability_probes := reachability_probes w;
     handed_over := handed_over w |}.

(** The request as it goes out again after that refresh: the response
    interceptor sets the header from the refresh answer, and the request
    interceptor sets it again from what it reads back, when that is
    truthy. *)
Definition retried (w : State J) (c : AxiosRequestConfig) (rt tk : Value J)
  : AxiosRequestConfig :=
  outgoing (refreshed_state w c rt tk) (set_authorization (text js tk) c).

End Spec.

End ApiSpec.

Module SampleApi.
Import Storage Api.

(** JSON as far as these samples need it: the two boolean literals. *)
Definition js : Engine bool :=
  {| JSON_stringify := SampleStorage.stringify;
     JSON_parse := SampleStorage.parse;
     Boolean := fun b => b;
     template := SampleStorage.stringify |}.

Definition visit : AxiosRequestConfig :=
  {| method := "POST"; url := "/visits/v1/clock-in"; data := "{location}";
     authorization := None |}.

(** A session with the access token [access] and the refresh token
    [refresh] in the store the client reads; nothing happened yet. *)
Definition session (access refresh : string) : State bool :=
  {| stores := {| encrypted := ∅;
                  async := <[AUTH_TOKEN := access]>
                             (<[REFRESH_TOKEN := refresh]> ∅) |};
     sent := []; refreshed := []; storage_reads := 0; storage_writes := 0;
     reachability_probes := 0; handed_over := [] |}.

(** A session whose access token has expired. *)
Definition stale : State bool := session "expired" "refresh-1".

(** Two requests went out under the expired token and were both answered
    with 401; neither answer was handled yet. *)
Definition in_flight : State bool :=
  {| stores := stores stale;
     sent := [set_authorization "expired" visit;
              set_authorization "expired" visit];
     refreshed := []; storage_reads := 2; storage_writes := 0;
     reachability_probes := 0; handed_over := [] |}.

(** The first [n401] requests are answered with 401, later ones with 200;
    every refresh yields a token. *)
Definition srv (n401 : nat) : Server bool :=
  {| respond := fun n _ => if (n <? n401)%nat then Some 401 else Some 200;
     auth_refresh := fun n _ => Normal (Some (Str ("access-" +:+ pretty n)));
     storage_read := fun _ => true;
     storage_write := fun _ => true;
     reachable := fun _ => true |}.

End SampleApi.

Module ApiFacts.
Import Storage Api.

(** The state once request [c] has gone out: the request interceptor has
    read the token and the adapter has sent the request. *)
Definition on_wire {J} (c : AxiosRequestConfig) (w : State J) : State J :=
  {| stores := stores w; sent := sent w ++ [c]; refreshed := refreshed w;
     storage_reads := S (storage_reads w);
     storage_writes := storage_writes w;
     reachability_probes := reachability_probes w;
     handed_over := handed_over w |}.

(** The request carries an [Authorization: Bearer ...] header. *)
Definition has_bearer (c : AxiosRequestConfig) : Prop :=
  exists t : string, authorization c = Some ("Bearer " +:+ t).

(** A refresh attempt in [w] yields no token to retry with: the refresh
    token that is read is [null] or falsy, or the refresh call is rejected,
    or its answer holds no truthy token. *)
Definition no_new_token {J} (js : Engine J) (srv : Server J) (w : State J)
  : Prop :=
  match ApiSpec.refresh_value js srv w with
  | Some rt =>
      truthy js (Some rt) = true ->
      match auth_refresh srv (length (refreshed w)) rt with
      | Normal token => truthy js token = false
      | Throw _ => True
      end
  | None => True
  end.

End ApiFacts.

Module SampleApi2.
Import Storage Api.

(** Every request is answered with [status], when there is one; the device
    is reachable or not; the refresh endpoint rejects. *)
Definition srv_status (status : option Z) (online : bool) : Server bool :=
  {| respond := fun _ _ => status;
     auth_refresh := fun _ _ => Throw (AxiosError (Some 401));
     storage_read := fun _ => true;
     storage_write := fun _ => true;
     reachable := fun _ => online |}.

(** Every request is answered with 401; the refresh endpoint would yield a
    token; storage works. *)
Definition srv_expired : Server bool :=
  {| respond := fun _ _ => Some 401;
     auth_refresh := fun n _ => Normal (Some (Str ("access-" +:+ pretty n)));
     storage_read := fun _ => true;
     storage_write := fun _ => true;
     reachable := fun _ => true |}.

End SampleApi2.

(** * Properties *)

Import OfflineQueue.

(** ** The drain pass *)

Section QueueService.
Variable env : Env.

Lemma isConnected_run (w : World) :
  NetInfo.isConnected env w = (Normal (probe_value env w), probed env w).
Proof.
  unfold NetInfo.isConnected, probed, probe_value, try_catch, bind,
    NetInfo_fetch_isConnected; simpl.
  destruct (NetInfo_fetch env (probes (plat w))) as [state|e] eqn:E; simpl.
  - reflexivity.
  - destruct w as [s [c] p]; reflexivity.
Qed.

Lemma persistQueue_run (w : World) :
  persistQueue env w = (Normal tt, persisted env w).
Proof.
  unfold persistQueue, persisted, try_catch, bind, gets, storageService_setItem;
    simpl.
  destruct (AsyncStorage_setItem env (writes (plat w))); reflexivity.
Qed.

Lemma storageService_getItem_run (w : World) :
  storageService_getItem env w = (Normal (read_value env w), read w).
Proof.
  unfold storageService_getItem, try_catch, AsyncStorage_getItem_parsed,
    read_value, read; simpl.
  destruct (AsyncStorage_getItem env (reads (plat w))); reflexivity.
Qed.

(** *** The client, over any [enqueueRequest] of the interceptor *)

Section Client.
Variable enq : AxiosRequestConfig -> M World unit.

Lemma apiService_request_resolved (c : AxiosRequestConfig) (w : World) :
  resolves (api_request env (length (dispatched (plat w))) c) = true ->
  Over.apiService_request env enq c w = (Normal tt, requested c w).
Proof.
  intros H. unfold Over.apiService_request, bind, client_exchange. simpl.
  destruct (api_request env (length (dispatched (plat w))) c) as [status|h];
    simpl in H; [|done].
  by rewrite H.
Qed.

Lemma apiService_request_refused (c : AxiosRequestConfig) (w : World)
    (status : Z) :
  api_request env (length (dispatched (plat w))) c = Answered status ->
  resolves (Answered status) = false ->
  Over.apiService_request env enq c w
    = (Throw (AxiosError (Some status)), requested c w).
Proof.
  intros Hx H. unfold Over.apiService_request, bind, client_exchange. simpl.
  rewrite Hx. simpl in H. by rewrite H.
Qed.

Lemma apiService_request_unanswered (c : AxiosRequestConfig) (w : World)
    (h : option string) :
  api_request env (length (dispatched (plat w))) c = Unanswered h ->
  Over.apiService_request env enq c w
  = if probe_value env (requested c w)
    then (Throw (AxiosError None), probed env (requested c w))
    else (Throw (Rejected
            "Network error: Request queued for when connection is restored"),
          snd (enq (error_config h c) (probed env (requested c w)))).
Proof.
  intros Hx. unfold Over.apiService_request. unfold bind at 1.
  unfold client_exchange at 1. cbv zeta.
  change (dispatched (suspend w)) with (dispatched (plat w)). rewrite Hx.
  unfold bind at 1.
  change (set_plat _ w) with (requested c w).
  rewrite isConnected_run.
  destruct (probe_value env (requested c w)); reflexivity.
Qed.

Lemma drain_head_resolved (n : nat) (w : World) a rest :
  queue (svc w) = a :: rest ->
  resolves (api_request env (length (dispatched (plat w))) (config a)) = true ->
  Over.drain env enq (S n) w
  = Over.drain env enq n (set_queue rest (requested (config a) w)).
Proof.
  intros Hq Hreq.
  cbn [Over.drain]. unfold bind at 1. unfold gets at 1. rewrite Hq. simpl head.
  unfold bind at 1. unfold try_catch at 1.
  unfold bind at 1. unfold ret at 1. unfold bind at 1.
  cbn [head]. cbv beta iota. rewrite (apiService_request_resolved _ _ Hreq).
  unfold bind at 1. unfold shift; simpl. rewrite Hq. reflexivity.
Qed.

(** A dispatch that is rejected ends the loop: the entry that is then at
    the head moves to the tail. *)
Lemma drain_head_rejected (n : nat) (w w1 : World) a rest e b rest1 :
  queue (svc w) = a :: rest ->
  Over.apiService_request env enq (config a) w = (Throw e, w1) ->
  queue (svc w1) = b :: rest1 ->
  Over.drain env enq (S n) w = (Normal tt, set_queue (rest1 ++ [b]) w1).
Proof.
  intros Hq Hreq Hq1.
  cbn [Over.drain]. unfold bind at 1. unfold gets at 1. rewrite Hq. simpl head.
  unfold bind at 1. unfold try_catch at 1.
  unfold bind at 1. unfold ret at 1. unfold bind at 1.
  cbn [head]. cbv beta iota. rewrite Hreq.
  unfold bind, console_error, ret, shift, push, modify. rewrite Hq1. simpl.
  reflexivity.
Qed.

Lemma drain_all_resolved (q : list QueuedRequest) : forall w : World,
  queue (svc w) = q ->
  (forall (i : nat) r, q !! i = Some r ->
     resolves (api_request env (length (dispatched (plat w)) + i)%nat
                 (config r)) = true) ->
  exists w',
    Over.drain env enq (length q) w = (Normal tt, w') /\
    queue (svc w') = [] /\
    isProcessing (svc w') = isProcessing (svc w) /\
    isInitialized (svc w') = isInitialized (svc w) /\
    dispatched (plat w') = dispatched (plat w) ++ map config q.
Proof.
  induction q as [|a rest IH]; intros w Hq Hall.
  - exists w. simpl. rewrite app_nil_r. auto.
  - simpl length. rewrite (drain_head_resolved _ w a rest Hq).
    2:{ specialize (Hall 0%nat a eq_refl). by rewrite Nat.add_0_r in Hall. }
    destruct (IH (set_queue rest (requested (config a) w)))
      as (w' & Hrun & Hq' & Hp & Hi & Hd).
    + reflexivity.
    + intros i r Hi. simpl. rewrite length_app. simpl.
      replace (length (dispatched (plat w)) + 1 + i)%nat
        with (length (dispatched (plat w)) + S i)%nat by lia.
      apply Hall. exact Hi.
    + exists w'. split; [exact Hrun|]. split; [exact Hq'|].
      split; [by rewrite Hp|]. split; [by rewrite Hi|].
      rewrite Hd. simpl. by rewrite <- app_assoc.
Qed.

(** The state in which the loop of a pass starts. *)
Lemma processQueue_pass (w w2 : World) :
  isProcessing (svc w) = false ->
  queue (svc w) <> [] ->
  probe_value env w = true ->
  Over.drain env enq (length (queue (svc w)))
      (probed env (set_isProcessing true w))
    = (Normal tt, w2) ->
  Over.processQueue env enq w
    = (Normal tt, set_isProcessing false (persisted env w2)).
Proof.
  intros Hbusy Hq Hprobe Hdrain.
  unfold Over.processQueue. unfold bind at 1. unfold gets at 1.
  unfold bind at 1. unfold gets at 1. rewrite Hbusy.
  destruct (queue (svc w)) as [|a rest] eqn:E; [done|].
  change (false || (length (a :: rest) =? 0)%nat)%bool with false. cbv iota.
  unfold bind at 1. unfold modify at 1.
  unfold try_finally, try_catch. unfold bind at 1.
  rewrite isConnected_run.
  replace (probe_value env (set_isProcessing true w)) with true
    by (symmetry; exact Hprobe).
  unfold bind at 1. unfold gets at 1. unfold bind at 1.
  change (negb true) with false. cbv beta iota.
  change (queue (svc (probed env (set_isProcessing true w))))
    with (queue (svc w)).
  rewrite E, Hdrain, persistQueue_run. reflexivity.
Qed.

(** A call that meets the guard flag, or an empty queue, returns at once. *)
Lemma processQueue_guarded (w : World) :
  isProcessing (svc w) = true \/ queue (svc w) = [] ->
  Over.processQueue env enq w = (Normal tt, w).
Proof.
  intros H. unfold Over.processQueue, bind, gets.
  destruct H as [H|H]; rewrite H; [reflexivity|].
  by rewrite orb_true_r.
Qed.

(** A pass that finds the device offline. *)
Lemma processQueue_offline (w : World) :
  isProcessing (svc w) = false ->
  queue (svc w) <> [] ->
  probe_value env w = false ->
  Over.processQueue env enq w
    = (Normal tt, set_isProcessing false (probed env (set_isProcessing true w))).
Proof.
  intros Hbusy Hq Hprobe.
  unfold Over.processQueue. unfold bind at 1. unfold gets at 1.
  unfold bind at 1. unfold gets at 1. rewrite Hbusy.
  destruct (queue (svc w)) as [|a rest] eqn:E; [done|].
  change (false || (length (a :: rest) =? 0)%nat)%bool with false. cbv iota.
  unfold bind at 1. unfold modify at 1.
  unfold try_finally, try_catch. unfold bind at 1.
  rewrite isConnected_run.
  replace (probe_value env (set_isProcessing true w)) with false
    by (symmetry; exact Hprobe).
  reflexivity.
Qed.

End Client.

End QueueService.

(** *** The guard flag during a pass *)

Section Flag.
Variable env : Env.

Lemma keeps_flag_flagged {A} (m : M World A) :
  keeps_flag m -> flagged_awaits m.
Proof. intros H w Hw. by destruct (H w Hw). Qed.

Lemma keeps_flag_pure {A} (m : M World A) :
  (forall w, snd (m w) = w) -> keeps_flag m.
Proof.
  intros H w Hw. rewrite H. split; [done|].
  exists []. by rewrite app_nil_r.
Qed.

Lemma keeps_flag_bind {A B} (m : M World A) (k : A -> M World B) :
  keeps_flag m -> (forall a, keeps_flag (k a)) -> keeps_flag (bind m k).
Proof.
  intros Hm Hk w Hw. unfold bind.
  destruct (Hm w Hw) as (Hf & ext & Ha & Hext).
  destruct (m w) as [[a|e] w1]; simpl in *.
  - destruct (Hk a w1 Hf) as (Hf' & ext' & Ha' & Hext').
    split; [done|]. exists (ext ++ ext').
    rewrite Ha', Ha, app_assoc. split; [done|]. by apply Forall_app.
  - split; [done|]. by exists ext.
Qed.

Lemma keeps_flag_try_catch {A} (m : M World A) (h : JsError -> M World A) :
  keeps_flag m -> (forall e, keeps_flag (h e)) -> keeps_flag (try_catch m h).
Proof.
  intros Hm Hh w Hw. unfold try_catch.
  destruct (Hm w Hw) as (Hf & ext & Ha & Hext).
  destruct (m w) as [[a|e] w1]; simpl in *.
  - split; [done|]. by exists ext.
  - destruct (Hh e w1 Hf) as (Hf' & ext' & Ha' & Hext').
    split; [done|]. exists (ext ++ ext').
    rewrite Ha', Ha, app_assoc. split; [done|]. by apply Forall_app.
Qed.

Lemma keeps_flag_detached {A} (m : M World A) :
  keeps_flag m -> keeps_flag (detached m).
Proof. intros Hm w Hw. unfold detached. simpl. exact (Hm w Hw). Qed.

Lemma flagged_bind {A B} (m : M World A) (k : A -> M World B) :
  keeps_flag m -> (forall a, flagged_awaits (k a)) -> flagged_awaits (bind m k).
Proof.
  intros Hm Hk w Hw. unfold bind.
  destruct (Hm w Hw) as (Hf & ext & Ha & Hext).
  destruct (m w) as [[a|e] w1]; simpl in *.
  - destruct (Hk a w1 Hf) as (ext' & Ha' & Hext').
    exists (ext ++ ext').
    rewrite Ha', Ha, app_assoc. split; [done|]. by apply Forall_app.
  - by exists ext.
Qed.

(** A suspension on a platform call that leaves the service as it is. *)
Lemma keeps_flag_suspension {A} (m : M World A) :
  (forall w, svc (snd (m w)) = svc w /\
             awaits (plat (snd (m w))) = awaits (plat w) ++ [svc w]) ->
  keeps_flag m.
Proof.
  intros H w Hw. destruct (H w) as [Hs Ha]. rewrite Hs, Ha.
  split; [done|]. exists [svc w]. split; [done|]. by constructor.
Qed.

(** A step that changes the queue only. *)
Lemma keeps_flag_quiet {A} (m : M World A) :
  (forall w, isProcessing (svc (snd (m w))) = isProcessing (svc w) /\
             awaits (plat (snd (m w))) = awaits (plat w)) ->
  keeps_flag m.
Proof.
  intros H w Hw. destruct (H w) as [Hs Ha]. rewrite Hs, Ha.
  split; [done|]. exists []. by rewrite app_nil_r.
Qed.

Lemma keeps_flag_shift : keeps_flag shift.
Proof.
  apply keeps_flag_quiet. intros w. unfold shift.
  by destruct (queue (svc w)).
Qed.

Lemma keeps_flag_isConnected : keeps_flag (NetInfo.isConnected env).
Proof.
  apply keeps_flag_suspension. intros w. by rewrite isConnected_run.
Qed.

Lemma keeps_flag_persistQueue : keeps_flag (persistQueue env).
Proof.
  apply keeps_flag_suspension. intros w. by rewrite persistQueue_run.
Qed.

Lemma keeps_flag_getItem : keeps_flag (storageService_getItem env).
Proof.
  apply keeps_flag_suspension. intros w.
  by rewrite storageService_getItem_run.
Qed.

(** *** Over an [enqueueRequest] of the interceptor that keeps the flag *)

Section FlagOver.
Variable enq : AxiosRequestConfig -> M World unit.
Hypothesis enq_keeps_flag : forall c, keeps_flag (enq c).

Lemma keeps_flag_apiService_request (c : AxiosRequestConfig) :
  keeps_flag (Over.apiService_request env enq c).
Proof.
  unfold Over.apiService_request.
  apply keeps_flag_bind; [by apply keeps_flag_suspension|].
  intros [status|h].
  - destruct ((200 <=? status) && (status <? 300))%bool;
      by apply keeps_flag_pure.
  - apply keeps_flag_bind; [apply keeps_flag_isConnected|].
    intros [|]; simpl; [by apply keeps_flag_pure|].
    apply keeps_flag_bind; [apply keeps_flag_detached, enq_keeps_flag|].
    intros _. by apply keeps_flag_pure.
Qed.

Lemma keeps_flag_drain (n : nat) : keeps_flag (Over.drain env enq n).
Proof.
  induction n as [|n IH]; cbn [Over.drain].
  - by apply keeps_flag_pure.
  - apply keeps_flag_bind; [by apply keeps_flag_pure|]. intros request.
    apply keeps_flag_bind.
    + apply keeps_flag_try_catch.
      * apply keeps_flag_bind.
        { destruct request; by apply keeps_flag_pure. }
        intros c. apply keeps_flag_bind.
        { apply keeps_flag_apiService_request. }
        intros _. apply keeps_flag_bind; [apply keeps_flag_shift|].
        intros _. by apply keeps_flag_pure.
      * intros _. apply keeps_flag_bind.
        { destruct request; by apply keeps_flag_pure. }
        intros _. apply keeps_flag_bind; [apply keeps_flag_shift|].
        intros failedRequest. apply keeps_flag_bind.
        { destruct failedRequest; [by apply keeps_flag_quiet
                                  |by apply keeps_flag_pure]. }
        intros _. by apply keeps_flag_pure.
    + intros [|]; [exact IH | by apply keeps_flag_pure].
Qed.

Lemma keeps_flag_processQueue : keeps_flag (Over.processQueue env enq).
Proof.
  intros w Hw. rewrite processQueue_guarded by (by left). simpl.
  split; [exact Hw|]. exists []. by rewrite app_nil_r.
Qed.

Lemma keeps_flag_handleConnectivityChange (b : bool) :
  keeps_flag (Over.handleConnectivityChange env enq b).
Proof.
  unfold Over.handleConnectivityChange.
  apply keeps_flag_bind; [by apply keeps_flag_pure|]. intros len.
  destruct (b && (0 <? len)%nat)%bool.
  - apply keeps_flag_detached, keeps_flag_processQueue.
  - by apply keeps_flag_pure.
Qed.

Lemma keeps_flag_initialize : keeps_flag (Over.initialize env enq).
Proof.
  unfold Over.initialize.
  apply keeps_flag_bind; [by apply keeps_flag_pure|]. intros [|].
  - by apply keeps_flag_pure.
  - apply keeps_flag_try_catch; [|intros _; by apply keeps_flag_pure].
    apply keeps_flag_bind; [apply keeps_flag_getItem|]. intros [q|].
    + apply keeps_flag_bind; [by apply keeps_flag_quiet|]. intros _.
      apply keeps_flag_bind.
      { unfold Over.addConnectivityListener.
        apply keeps_flag_bind; [by apply keeps_flag_pure|].
        apply keeps_flag_handleConnectivityChange. }
      intros _. by apply keeps_flag_quiet.
    + apply keeps_flag_bind; [by apply keeps_flag_pure|]. intros _.
      apply keeps_flag_bind.
      { unfold Over.addConnectivityListener.
        apply keeps_flag_bind; [by apply keeps_flag_pure|].
        apply keeps_flag_handleConnectivityChange. }
      intros _. by apply keeps_flag_quiet.
Qed.

Lemma keeps_flag_Over_enqueueRequest (c : AxiosRequestConfig) :
  keeps_flag (Over.enqueueRequest env enq c).
Proof.
  unfold Over.enqueueRequest.
  apply keeps_flag_bind; [apply keeps_flag_initialize|]. intros _.
  apply keeps_flag_bind; [by apply keeps_flag_quiet|]. intros now_id.
  apply keeps_flag_bind; [by apply keeps_flag_quiet|]. intros now_ts.
  apply keeps_flag_bind; [by apply keeps_flag_quiet|]. intros _.
  apply keeps_flag_bind; [apply keeps_flag_persistQueue|]. intros _.
  apply keeps_flag_bind; [apply keeps_flag_isConnected|]. intros [|].
  - apply keeps_flag_detached, keeps_flag_processQueue.
  - by apply keeps_flag_pure.
Qed.

Lemma flagged_pass (w : World) :
  Forall (fun s => isProcessing s = true)
    (drop (length (awaits (plat w)))
       (awaits (plat (snd (Over.processQueue env enq w))))).
Proof.
  unfold Over.processQueue.
  unfold bind at 1. unfold gets at 1. unfold bind at 1. unfold gets at 1.
  destruct (isProcessing (svc w) || (length (queue (svc w)) =? 0)%nat)%bool.
  - simpl. by rewrite drop_all.
  - unfold bind at 1. unfold modify at 1. unfold try_finally, try_catch.
    assert (Hbody : flagged_awaits
      (isConnected <- NetInfo.isConnected env ;;
       if negb isConnected then modify (set_isProcessing false)
       else
         originalQueueLength <- gets (fun w => length (queue (svc w))) ;;
         Over.drain env enq originalQueueLength ;;; persistQueue env)).
    { apply flagged_bind; [apply keeps_flag_isConnected|].
      intros c. destruct c; simpl.
      - apply keeps_flag_flagged, keeps_flag_bind; [by apply keeps_flag_pure|].
        intros n. apply keeps_flag_bind; [apply keeps_flag_drain|].
        intros _. apply keeps_flag_persistQueue.
      - intros w0 _. exists []. by rewrite app_nil_r. }
    destruct (Hbody (set_isProcessing true w) eq_refl) as (ext & Ha & Hext).
    simpl in Ha.
    match type of Ha with
    | awaits (plat (snd ?r)) = _ => destruct r as [[u|e] w1]
    end; simpl in *; rewrite Ha, drop_app_length; exact Hext.
Qed.

End FlagOver.

(** *** At every depth *)

Lemma keeps_flag_enqueueRequest (depth : nat) :
  forall c, keeps_flag (enqueueRequest env depth c).
Proof.
  induction depth as [|depth IH]; intros c; cbn [enqueueRequest].
  - by apply keeps_flag_pure.
  - by apply keeps_flag_Over_enqueueRequest.
Qed.

Lemma pass_awaits_flagged (depth : nat) (w : World) :
  Forall (fun s => isProcessing s = true) (pass_awaits env depth w).
Proof. apply flagged_pass, keeps_flag_enqueueRequest. Qed.

End Flag.

(** *** One level of re-entrant calls is enough

    During a pass the guard flag is set, so the pass that an
    [enqueueRequest] of the interceptor would start returns at once: what
    the interceptor's [enqueueRequest] is given for its own calls of the
    client does not matter, and a pass is the same at every depth from 1
    on. *)

Section Depth.
Variable env : Env.

Lemma agree_bind {A B} (m1 m2 : M World A) (k1 k2 : A -> M World B) :
  agree_during_pass m1 m2 -> keeps_flag m1 ->
  (forall a, agree_during_pass (k1 a) (k2 a)) ->
  agree_during_pass (bind m1 k1) (bind m2 k2).
Proof.
  intros Hm Hf Hk w Hw. unfold bind. rewrite <- (Hm w Hw).
  destruct (Hf w Hw) as [Hw1 _].
  destruct (m1 w) as [[a|e] w1]; [|reflexivity].
  by apply Hk.
Qed.

Lemma agree_try_catch {A} (m1 m2 : M World A) (h1 h2 : JsError -> M World A) :
  agree_during_pass m1 m2 -> keeps_flag m1 ->
  (forall e, agree_during_pass (h1 e) (h2 e)) ->
  agree_during_pass (try_catch m1 h1) (try_catch m2 h2).
Proof.
  intros Hm Hf Hh w Hw. unfold try_catch. rewrite <- (Hm w Hw).
  destruct (Hf w Hw) as [Hw1 _].
  destruct (m1 w) as [[a|e] w1]; [reflexivity|].
  by apply Hh.
Qed.

Lemma agree_detached {A} (m1 m2 : M World A) :
  agree_during_pass m1 m2 -> agree_during_pass (detached m1) (detached m2).
Proof. intros Hm w Hw. unfold detached. by rewrite (Hm w Hw). Qed.

Lemma bind_gets {A B} (f : World -> A) (k : A -> M World B) (w : World) :
  bind (gets f) k w = k (f w) w.
Proof. reflexivity. Qed.

Lemma guarded_body_eq {A} (m1 m2 : M World A) (h : JsError -> M World A)
    (f : M World unit) (g : World -> World) (w : World) :
  m1 (g w) = m2 (g w) ->
  (modify g ;;; try_finally (try_catch m1 h) f) w
  = (modify g ;;; try_finally (try_catch m2 h) f) w.
Proof.
  intros H. unfold bind, modify, try_finally, try_catch. by rewrite H.
Qed.

Lemma agree_refl {A} (m : M World A) : agree_during_pass m m.
Proof. by intros w Hw. Qed.

Section Two.
Variables enq1 enq2 : AxiosRequestConfig -> M World unit.

Lemma agree_processQueue :
  agree_during_pass (Over.processQueue env enq1) (Over.processQueue env enq2).
Proof.
  intros w Hw. by rewrite !processQueue_guarded by (by left).
Qed.

Lemma agree_initialize :
  agree_during_pass (Over.initialize env enq1) (Over.initialize env enq2).
Proof.
  unfold Over.initialize.
  apply agree_bind; [apply agree_refl|by apply keeps_flag_pure|].
  intros [|]; [apply agree_refl|].
  apply agree_try_catch; [| |intros e; apply agree_refl].
  2:{ apply keeps_flag_bind; [apply keeps_flag_getItem|]. intros o.
      apply keeps_flag_bind.
      { destruct o; [by apply keeps_flag_quiet|by apply keeps_flag_pure]. }
      intros _. apply keeps_flag_bind.
      { unfold Over.addConnectivityListener.
        apply keeps_flag_bind; [by apply keeps_flag_pure|].
        apply keeps_flag_handleConnectivityChange. }
      intros _. by apply keeps_flag_quiet. }
  apply agree_bind; [apply agree_refl|apply keeps_flag_getItem|]. intros o.
  apply agree_bind; [apply agree_refl| |].
  { destruct o; [by apply keeps_flag_quiet|by apply keeps_flag_pure]. }
  intros _. apply agree_bind; [| |intros _; apply agree_refl].
  - unfold Over.addConnectivityListener.
    apply agree_bind; [apply agree_refl|by apply keeps_flag_pure|].
    intros c. unfold Over.handleConnectivityChange.
    apply agree_bind; [apply agree_refl|by apply keeps_flag_pure|].
    intros len. destruct (c && (0 <? len)%nat)%bool; [|apply agree_refl].
    apply agree_detached, agree_processQueue.
  - unfold Over.addConnectivityListener.
    apply keeps_flag_bind; [by apply keeps_flag_pure|].
    apply keeps_flag_handleConnectivityChange.
Qed.

Lemma agree_Over_enqueueRequest (c : AxiosRequestConfig) :
  agree_during_pass (Over.enqueueRequest env enq1 c)
                    (Over.enqueueRequest env enq2 c).
Proof.
  unfold Over.enqueueRequest.
  apply agree_bind; [apply agree_initialize|apply keeps_flag_initialize|].
  intros _.
  apply agree_bind; [apply agree_refl|by apply keeps_flag_quiet|].
  intros now_id.
  apply agree_bind; [apply agree_refl|by apply keeps_flag_quiet|].
  intros now_ts.
  apply agree_bind; [apply agree_refl|by apply keeps_flag_quiet|].
  intros _.
  apply agree_bind; [apply agree_refl|apply keeps_flag_persistQueue|].
  intros _.
  apply agree_bind; [apply agree_refl|apply keeps_flag_isConnected|].
  intros [|]; [|apply agree_refl].
  apply agree_detached, agree_processQueue.
Qed.

Hypothesis enq_agree : forall c, agree_during_pass (enq1 c) (enq2 c).
Hypothesis enq1_keeps_flag : forall c, keeps_flag (enq1 c).

Lemma agree_apiService_request (c : AxiosRequestConfig) :
  agree_during_pass (Over.apiService_request env enq1 c)
                    (Over.apiService_request env enq2 c).
Proof.
  unfold Over.apiService_request.
  apply agree_bind; [apply agree_refl|by apply keeps_flag_suspension|].
  intros [status|h]; [apply agree_refl|].
  apply agree_bind; [apply agree_refl|apply keeps_flag_isConnected|].
  intros [|]; simpl; [apply agree_refl|].
  apply agree_bind; [|apply keeps_flag_detached, enq1_keeps_flag
                     |intros _; apply agree_refl].
  apply agree_detached, enq_agree.
Qed.

Lemma agree_drain (n : nat) :
  agree_during_pass (Over.drain env enq1 n) (Over.drain env enq2 n).
Proof.
  induction n as [|n IH]; cbn [Over.drain]; [apply agree_refl|].
  apply agree_bind; [apply agree_refl|by apply keeps_flag_pure|].
  intros request. apply agree_bind.
  - apply agree_try_catch; [| |intros e; apply agree_refl].
    + apply agree_bind; [apply agree_refl| |].
      { destruct request; by apply keeps_flag_pure. }
      intros c. apply agree_bind; [apply agree_apiService_request
                                  |by apply keeps_flag_apiService_request
                                  |intros _; apply agree_refl].
    + apply keeps_flag_bind.
      { destruct request; by apply keeps_flag_pure. }
      intros c. apply keeps_flag_bind.
      { by apply keeps_flag_apiService_request. }
      intros _. apply keeps_flag_bind; [apply keeps_flag_shift|].
      intros _. by apply keeps_flag_pure.
  - apply keeps_flag_try_catch.
    + apply keeps_flag_bind.
      { destruct request; by apply keeps_flag_pure. }
      intros c. apply keeps_flag_bind.
      { by apply keeps_flag_apiService_request. }
      intros _. apply keeps_flag_bind; [apply keeps_flag_shift|].
      intros _. by apply keeps_flag_pure.
    + intros _. apply keeps_flag_bind.
      { destruct request; by apply keeps_flag_pure. }
      intros _. apply keeps_flag_bind; [apply keeps_flag_shift|].
      intros failedRequest. apply keeps_flag_bind.
      { destruct failedRequest; [by apply keeps_flag_quiet
                                |by apply keeps_flag_pure]. }
      intros _. by apply keeps_flag_pure.
  - intros [|]; [exact IH|apply agree_refl].
Qed.

(** A whole pass, from any state. *)
Lemma processQueue_agree (w : World) :
  Over.processQueue env enq1 w = Over.processQueue env enq2 w.
Proof.
  destruct (isProcessing (svc w)) eqn:Hb.
  { by rewrite !processQueue_guarded by (by left). }
  destruct (queue (svc w)) as [|a q] eqn:Hq.
  { by rewrite !processQueue_guarded by (by right). }
  assert (Hbody : agree_during_pass
    (isConnected <- NetInfo.isConnected env ;;
     if negb isConnected then modify (set_isProcessing false)
     else
       originalQueueLength <- gets (fun w => length (queue (svc w))) ;;
       Over.drain env enq1 originalQueueLength ;;; persistQueue env)
    (isConnected <- NetInfo.isConnected env ;;
     if negb isConnected then modify (set_isProcessing false)
     else
       originalQueueLength <- gets (fun w => length (queue (svc w))) ;;
       Over.drain env enq2 originalQueueLength ;;; persistQueue env)).
  { apply agree_bind; [apply agree_refl|apply keeps_flag_isConnected|].
    intros [|]; simpl; [|apply agree_refl].
    apply agree_bind; [apply agree_refl|by apply keeps_flag_pure|].
    intros n. apply agree_bind; [apply agree_drain
                                |by apply keeps_flag_drain
                                |intros _; apply agree_refl]. }
  unfold Over.processQueue.
  rewrite !bind_gets. cbv beta. rewrite ?bind_gets. cbv beta.
  rewrite Hb, Hq.
  cbn [length orb Nat.eqb]. cbv beta iota.
  apply guarded_body_eq, Hbody. reflexivity.
Qed.

End Two.

Lemma enqueueRequest_during_pass_depth (depth depth' : nat)
    (c : AxiosRequestConfig) :
  agree_during_pass (enqueueRequest env (S depth) c)
                    (enqueueRequest env (S depth') c).
Proof. cbn [enqueueRequest]. apply agree_Over_enqueueRequest. Qed.

Lemma processQueue_depth (depth depth' : nat) (w : World) :
  processQueue env (S depth) w = processQueue env (S depth') w.
Proof.
  unfold processQueue. apply processQueue_agree.
  - intros c. apply enqueueRequest_during_pass_depth.
  - apply keeps_flag_enqueueRequest.
Qed.

End Depth.

(** *** Runs of the loop *)

Section Passes.
Variable env : Env.

Lemma probe_value_reported (b : bool) (k : nat) (w : World) :
  probes_report env b k -> (k <= probes (plat w))%nat ->
  probe_value env w = b.
Proof.
  intros H Hk. destruct (H _ Hk) as (state & Hs & Hb).
  unfold probe_value. by rewrite Hs.
Qed.

Lemma probes_report_mono (b : bool) (k k' : nat) :
  probes_report env b k -> (k <= k')%nat -> probes_report env b k'.
Proof. intros H Hk n Hn. apply H. lia. Qed.

Lemma loop_frame_refl (w : World) : loop_frame w w.
Proof. by repeat split. Qed.

(** A run of resolved dispatches at the head of the queue. *)
Lemma drain_prefix_resolved (enq : AxiosRequestConfig -> M World unit)
    (pre : list QueuedRequest) :
  forall (m : nat) (w : World) (post : list QueuedRequest),
  queue (svc w) = pre ++ post ->
  (forall (i : nat) r, pre !! i = Some r ->
     resolves (api_request env (length (dispatched (plat w)) + i)%nat
                 (config r)) = true) ->
  exists w1 : World,
    Over.drain env enq (length pre + m) w = Over.drain env enq m w1 /\
    queue (svc w1) = post /\
    dispatched (plat w1) = dispatched (plat w) ++ map config pre /\
    loop_frame w w1.
Proof.
  induction pre as [|a pre IH]; intros m w post Hq Hall.
  - exists w. simpl. rewrite app_nil_r. split; [done|]. split; [done|].
    split; [done|]. apply loop_frame_refl.
  - simpl length. simpl plus.
    rewrite (drain_head_resolved env enq (length pre + m) w a (pre ++ post) Hq).
    2:{ specialize (Hall 0%nat a eq_refl). by rewrite Nat.add_0_r in Hall. }
    destruct (IH m (set_queue (pre ++ post) (requested (config a) w)) post)
      as (w1 & Hrun & Hq1 & Hd1 & Hf1).
    + reflexivity.
    + intros i r Hi. simpl. rewrite length_app. simpl.
      replace (length (dispatched (plat w)) + 1 + i)%nat
        with (length (dispatched (plat w)) + S i)%nat by lia.
      by apply Hall.
    + exists w1. split; [exact Hrun|]. split; [exact Hq1|]. split.
      * rewrite Hd1. simpl. by rewrite <- app_assoc.
      * exact Hf1.
Qed.

(** *** [enqueueRequest] on the initialised service *)

Lemma enqueueRequest_run (depth : nat) (c : AxiosRequestConfig) (w : World) :
  isInitialized (svc w) = true ->
  enqueueRequest env (S depth) c w =
  (Normal tt,
   if probe_value env w
   then snd (processQueue env depth (enqueued env c w))
   else enqueued env c w).
Proof.
  intros Hinit.
  cbn [enqueueRequest]. unfold Over.enqueueRequest. unfold bind at 1.
  unfold Over.initialize. unfold bind at 1. unfold gets at 1. rewrite Hinit.
  unfold ret at 1.
  unfold bind at 1. unfold Date_now_call at 1.
  unfold bind at 1. unfold Date_now_call at 1.
  unfold bind at 1. unfold push at 1. unfold modify at 1.
  unfold bind at 1. rewrite persistQueue_run.
  unfold bind at 1. rewrite isConnected_run.
  match goal with
  | |- context [probe_value env ?w'] =>
      change (probe_value env w') with (probe_value env w)
  end.
  by destruct (probe_value env w).
Qed.

(** Called during a pass, it pushes, persists and probes; the pass it may
    start returns at the guard. *)
Lemma enqueueRequest_during_pass (depth : nat) (c : AxiosRequestConfig)
    (w : World) :
  isInitialized (svc w) = true ->
  isProcessing (svc w) = true ->
  enqueueRequest env (S depth) c w = (Normal tt, enqueued env c w).
Proof.
  intros Hinit Hflag. rewrite enqueueRequest_run by exact Hinit.
  destruct (probe_value env w); [|reflexivity].
  unfold processQueue. by rewrite processQueue_guarded by (by left).
Qed.

(** The first failed dispatch of a pass on the initialised service. *)
Lemma drain_head_failed (depth n : nat) (w : World) a rest :
  isInitialized (svc w) = true ->
  isProcessing (svc w) = true ->
  queue (svc w) = a :: rest ->
  resolves (api_request env (length (dispatched (plat w))) (config a))
    = false ->
  exists w' : World,
    drain env (S depth) (S n) w = (Normal tt, w') /\
    queue (svc w')
      = rest ++ interceptor_copies env a
                  (api_request env (length (dispatched (plat w))) (config a)) w
             ++ [a] /\
    dispatched (plat w') = dispatched (plat w) ++ [config a] /\
    isInitialized (svc w') = true.
Proof.
  intros Hinit Hflag Hq Hres. unfold drain.
  destruct (api_request env (length (dispatched (plat w))) (config a))
    as [status|h] eqn:Hx.
  - eexists. split.
    + eapply drain_head_rejected; [exact Hq| |].
      * by apply apiService_request_refused.
      * simpl. exact Hq.
    + simpl. by rewrite Hinit.
  - pose proof (apiService_request_unanswered env
                  (enqueueRequest env (S depth)) (config a) w h Hx) as Hreq.
    destruct (probe_value env (requested (config a) w)) eqn:Hp.
    + eexists. split.
      * eapply drain_head_rejected; [exact Hq|exact Hreq|]. simpl. exact Hq.
      * simpl. change (probe_value env w)
          with (probe_value env (requested (config a) w)).
        rewrite Hp. simpl. by rewrite Hinit.
    + rewrite enqueueRequest_during_pass in Hreq by (simpl; done).
      eexists. split.
      * eapply drain_head_rejected; [exact Hq|exact Hreq|].
        simpl. rewrite Hq. reflexivity.
      * simpl. change (probe_value env w)
          with (probe_value env (requested (config a) w)).
        rewrite Hp. simpl. rewrite Hinit.
        split; [|done]. by rewrite <- app_assoc.
Qed.

(** A pass on an idle service, online, with every dispatch resolving. *)
Lemma processQueue_all_resolved (depth : nat) (w : World) :
  isProcessing (svc w) = false ->
  probe_value env w = true ->
  (forall n c, resolves (api_request env n c) = true) ->
  queue (svc (snd (processQueue env depth w))) = [] /\
  dispatched (plat (snd (processQueue env depth w)))
    = dispatched (plat w) ++ map config (queue (svc w)) /\
  isInitialized (svc (snd (processQueue env depth w)))
    = isInitialized (svc w).
Proof.
  intros Hidle Hprobe Hall. unfold processQueue.
  destruct (queue (svc w)) as [|a rest] eqn:Hq.
  - rewrite processQueue_guarded by (by right). simpl.
    by rewrite Hq, app_nil_r.
  - destruct (drain_all_resolved env (enqueueRequest env depth) (a :: rest)
                (probed env (set_isProcessing true w)))
      as (w2 & Hrun & Hq2 & _ & Hi2 & Hd2).
    + simpl. exact Hq.
    + intros. apply Hall.
    + assert (Hpass : Over.processQueue env (enqueueRequest env depth) w
                      = (Normal tt, set_isProcessing false (persisted env w2))).
      { apply processQueue_pass; try done; by rewrite Hq. }
      rewrite Hpass. simpl. by rewrite Hq2, Hd2, Hi2.
Qed.

End Passes.

Section Passes2.
Variable env : Env.

Lemma interceptor_copies_frame (a : QueuedRequest) (x : Exchange)
    (w w' : World) :
  net w' = net w ->
  probes (plat w') = probes (plat w) ->
  clock (plat w') = clock (plat w) ->
  interceptor_copies env a x w' = interceptor_copies env a x w.
Proof.
  intros Hn Hp Hc. unfold interceptor_copies, probe_value, new_request.
  by rewrite Hn, Hp, Hc.
Qed.

(** The first failed dispatch of a pass, when the interceptor does not
    queue the request. *)
Lemma drain_head_refused (enq : AxiosRequestConfig -> M World unit)
    (n : nat) (w : World) a rest :
  queue (svc w) = a :: rest ->
  resolves (api_request env (length (dispatched (plat w))) (config a))
    = false ->
  interceptor_copies env a
    (api_request env (length (dispatched (plat w))) (config a)) w = [] ->
  exists w' : World,
    Over.drain env enq (S n) w = (Normal tt, w') /\
    queue (svc w') = rest ++ [a] /\
    dispatched (plat w') = dispatched (plat w) ++ [config a].
Proof.
  intros Hq Hres Hnone.
  destruct (api_request env (length (dispatched (plat w))) (config a))
    as [status|h] eqn:Hx.
  - eexists. split.
    + eapply drain_head_rejected; [exact Hq| |].
      * by apply apiService_request_refused.
      * simpl. exact Hq.
    + by simpl.
  - pose proof (apiService_request_unanswered env enq (config a) w h Hx)
      as Hreq.
    simpl in Hnone.
    change (probe_value env (requested (config a) w))
      with (probe_value env w) in Hreq.
    destruct (probe_value env w); [|done].
    eexists. split.
    + eapply drain_head_rejected; [exact Hq|exact Hreq|]. simpl. exact Hq.
    + by simpl.
Qed.

End Passes2.

(** ** Claims on the queue service *)

(** C9. [isConnected] never throws: whatever the reachability probe does,
    the call completes normally with a boolean, which is also the cached
    state afterwards; when the probe is rejected the boolean is the state
    that was cached before the call. *)
Theorem isConnected_never_throws (env : Env) (w : World) :
  exists b : bool,
    fst (NetInfo.isConnected env w) = Normal b /\
    connected (net (snd (NetInfo.isConnected env w))) = b /\
    b = match NetInfo_fetch env (probes (plat w)) with
        | Normal state => NetInfo.nullish_false state
        | Throw _ => connected (net w)
        end.
Proof.
  exists (probe_value env w). rewrite isConnected_run. by simpl.
Qed.

(** C1 at its failing input.  The queue holds A and B; the pass finds the
    device connected, the request of A is sent and gets no response, and
    the response interceptor, whose probe now reports offline, queues the
    request again before the pass moves A to the tail: the queue ends with
    three entries, B, the new copy of A's request, and A. *)
Theorem drain_head_unanswered_is_queued_twice :
  queue (svc (snd (processQueue Sample.env_connection_drops 1
                     (Sample.idle [Sample.entry_A; Sample.entry_B]))))
    = [Sample.entry_B;
       {| id := "1700000000500"; config := Sample.clock_in;
          timestamp := 1700000000501 |};
       Sample.entry_A] /\
  length (queue (svc (snd (processQueue Sample.env_connection_drops 1
                     (Sample.idle [Sample.entry_A; Sample.entry_B])))))
    = 3%nat /\
  dispatched (plat (snd (processQueue Sample.env_connection_drops 1
                     (Sample.idle [Sample.entry_A; Sample.entry_B]))))
    = [Sample.clock_in].
Proof. vm_compute. auto. Qed.

(** C2. A pass in which every dispatch resolves calls the dispatcher once
    per entry, in queue order, and leaves the queue empty. *)
Theorem drain_all_succeed_fifo (env : Env) (depth : nat) (w : World) :
  isProcessing (svc w) = false ->
  fst (NetInfo.isConnected env w) = Normal true ->
  (forall (i : nat) (r : QueuedRequest),
     queue (svc w) !! i = Some r ->
     resolves (api_request env (length (dispatched (plat w)) + i)%nat
                 (config r)) = true) ->
  fst (processQueue env depth w) = Normal tt /\
  queue (svc (snd (processQueue env depth w))) = [] /\
  dispatched (plat (snd (processQueue env depth w)))
    = dispatched (plat w) ++ map config (queue (svc w)) /\
  length (dispatched (plat (snd (processQueue env depth w))))
    = (length (dispatched (plat w)) + length (queue (svc w)))%nat.
Proof.
  intros Hidle Hprobe Hall.
  rewrite isConnected_run in Hprobe. simpl in Hprobe.
  injection Hprobe as Hprobe. unfold processQueue.
  destruct (queue (svc w)) as [|a rest] eqn:Hq.
  - rewrite processQueue_guarded by (by right). simpl.
    rewrite app_nil_r. repeat split; try done; lia.
  - destruct (drain_all_resolved env (enqueueRequest env depth) (a :: rest)
                (probed env (set_isProcessing true w)))
      as (w2 & Hrun & Hq2 & _ & _ & Hd2).
    + simpl. exact Hq.
    + simpl. exact Hall.
    + rewrite (processQueue_pass env _ w w2); try done.
      * simpl. rewrite Hq2, Hd2. simpl.
        repeat split; try done.
        rewrite length_app. simpl. by rewrite length_map.
      * by rewrite Hq.
      * by rewrite Hq.
Qed.

Lemma drain_all_succeed_fifo_witness :
  queue (svc (snd (processQueue Sample.env_online 1
                     (Sample.idle [Sample.entry_A; Sample.entry_B])))) = [] /\
  dispatched (plat (snd (processQueue Sample.env_online 1
                     (Sample.idle [Sample.entry_A; Sample.entry_B]))))
    = [Sample.clock_in; Sample.clock_out].
Proof.
  destruct (drain_all_succeed_fifo Sample.env_online 1
              (Sample.idle [Sample.entry_A; Sample.entry_B]))
    as (_ & Hq & Hd & _);
    [reflexivity | reflexivity | intros; reflexivity |].
  split; [exact Hq | exact Hd].
Defined.

(** C4. A call of [processQueue] made while the guard flag is set, which
    it is in every state a running pass exposes at its suspensions, is a
    no-op: the world it returns is the world it was given, so the queue is
    unchanged and no request is dispatched. *)
Theorem processQueue_single_flight (env : Env) (depth depth' : nat)
    (running w : World) :
  isProcessing (svc w) = true \/ svc w ∈ pass_awaits env depth running ->
  processQueue env depth' w = (Normal tt, w).
Proof.
  intros H.
  assert (Hflag : isProcessing (svc w) = true).
  { destruct H as [H|H]; [exact H|].
    pose proof (pass_awaits_flagged env depth running) as Hall.
    rewrite Forall_forall in Hall. by apply Hall. }
  unfold processQueue. apply processQueue_guarded. by left.
Qed.

Lemma processQueue_single_flight_witness :
  svc (Sample.draining [Sample.entry_A; Sample.entry_B])
    ∈ pass_awaits Sample.env_online 1
        (Sample.idle [Sample.entry_A; Sample.entry_B]) /\
  processQueue Sample.env_online 1
      (Sample.draining [Sample.entry_A; Sample.entry_B])
    = (Normal tt, Sample.draining [Sample.entry_A; Sample.entry_B]).
Proof.
  assert (Hin : svc (Sample.draining [Sample.entry_A; Sample.entry_B])
    ∈ pass_awaits Sample.env_online 1
        (Sample.idle [Sample.entry_A; Sample.entry_B])).
  { vm_compute. apply list_elem_of_here. }
  split; [exact Hin|].
  apply (processQueue_single_flight Sample.env_online 1 1
           (Sample.idle [Sample.entry_A; Sample.entry_B])).
  right. exact Hin.
Defined.

Section Enqueue.
Variable env : Env.

Lemma try_catch_logged (m : M World unit) (w : World) :
  fst (try_catch m (fun _ => console_error) w) = Normal tt.
Proof. unfold try_catch. by destruct (m w) as [[[]|e] w']. Qed.

Lemma initialize_normal (depth : nat) (w : World) :
  fst (initialize env depth w) = Normal tt.
Proof.
  unfold initialize, Over.initialize. unfold bind at 1. unfold gets at 1.
  destruct (isInitialized (svc w)); [reflexivity|].
  apply try_catch_logged.
Qed.

Lemma enqueueRequest_normal (depth : nat) (c : AxiosRequestConfig)
    (w : World) :
  fst (enqueueRequest env (S depth) c w) = Normal tt.
Proof.
  cbn [enqueueRequest]. unfold Over.enqueueRequest. unfold bind at 1.
  pose proof (initialize_normal depth w) as Hi.
  unfold initialize in Hi.
  destruct (Over.initialize env (enqueueRequest env depth) w) as [r w1].
  simpl in Hi. subst r.
  unfold bind at 1. unfold Date_now_call at 1.
  unfold bind at 1. unfold Date_now_call at 1.
  unfold bind at 1. unfold push at 1. unfold modify at 1.
  unfold bind at 1. rewrite persistQueue_run.
  unfold bind at 1. rewrite isConnected_run.
  match goal with |- context [if ?b then _ else _] => destruct b end;
    reflexivity.
Qed.

End Enqueue.

(** C3, as the code has it. [enqueueRequest] never fails: a rejected storage
    write is caught and logged inside [persistQueue], which completes
    normally, keeps the queue in memory and leaves the stored copy as it
    was.  When that happens to an enqueue made offline on the initialised
    service, the new entry is in the queue in memory and the stored copy is
    the one from before the call. *)
Theorem enqueue_swallows_persistence_failure (env : Env) :
  (forall (depth : nat) (c : AxiosRequestConfig) (w : World),
     fst (enqueueRequest env (S depth) c w) = Normal tt) /\
  (forall w : World,
     fst (persistQueue env w) = Normal tt /\
     queue (svc (snd (persistQueue env w))) = queue (svc w) /\
     offline_data (plat (snd (persistQueue env w)))
       = if AsyncStorage_setItem env (writes (plat w))
         then Some (queue (svc w)) else offline_data (plat w)) /\
  (forall (depth : nat) (c : AxiosRequestConfig) (w : World),
     isInitialized (svc w) = true ->
     AsyncStorage_setItem env (writes (plat w)) = false ->
     fst (NetInfo.isConnected env w) = Normal false ->
     queue (svc (snd (enqueueRequest env (S depth) c w)))
       = queue (svc w) ++ [new_request env c w] /\
     offline_data (plat (snd (enqueueRequest env (S depth) c w)))
       = offline_data (plat w)).
Proof.
  split; [|split].
  - apply enqueueRequest_normal.
  - intros w. by rewrite persistQueue_run.
  - intros depth c w Hinit Hwrite Hprobe.
    rewrite isConnected_run in Hprobe. simpl in Hprobe.
    injection Hprobe as Hprobe.
    rewrite enqueueRequest_run by exact Hinit. rewrite Hprobe.
    simpl. by rewrite Hwrite.
Qed.

Lemma enqueue_swallows_persistence_failure_witness :
  fst (enqueueRequest Sample.env_offline_faulty 1 Sample.clock_in
         (Sample.idle [Sample.entry_B])) = Normal tt /\
  queue (svc (snd (enqueueRequest Sample.env_offline_faulty 1 Sample.clock_in
                     (Sample.idle [Sample.entry_B]))))
    = [Sample.entry_B;
       new_request Sample.env_offline_faulty Sample.clock_in
         (Sample.idle [Sample.entry_B])] /\
  offline_data (plat (snd (enqueueRequest Sample.env_offline_faulty 1
                             Sample.clock_in (Sample.idle [Sample.entry_B]))))
    = None.
Proof.
  destruct (enqueue_swallows_persistence_failure Sample.env_offline_faulty)
    as (Hn & _ & Hpost).
  split; [apply Hn|].
  apply (Hpost 0%nat Sample.clock_in (Sample.idle [Sample.entry_B]));
    reflexivity.
Defined.

(** C3 as stated fails: the storage write of this enqueue is rejected, and
    the call still completes normally, with the entry in memory only. *)
Lemma enqueue_reports_success_without_durable_write :
  AsyncStorage_setItem Sample.env_offline_faulty
    (writes (plat (Sample.idle []))) = false /\
  fst (enqueueRequest Sample.env_offline_faulty 1 Sample.clock_in
         (Sample.idle [])) = Normal tt /\
  offline_data (plat (snd (enqueueRequest Sample.env_offline_faulty 1
                             Sample.clock_in (Sample.idle [])))) = None /\
  map config (queue (svc (snd (enqueueRequest Sample.env_offline_faulty 1
                             Sample.clock_in (Sample.idle [])))))
    = [Sample.clock_in].
Proof. vm_compute. auto. Qed.

(** C7 at its failing input: two enqueues within one millisecond put two
    entries with the same id in the queue. *)
Theorem enqueue_same_millisecond_same_id :
  map id
    (queue (svc (snd (enqueueRequest Sample.env_offline_faulty 1
                        Sample.clock_out
      (snd (enqueueRequest Sample.env_offline_faulty 1 Sample.clock_in
              (Sample.idle [])))))))
  = ["1700000000000"; "1700000000000"]%string.
Proof. vm_compute. reflexivity. Qed.

(** ** Pending records and the queue *)

Section Independent.
Variable env : Env.

(** Offline and initialised, [enqueueRequest] appends one entry, stamped
    with the clock. *)
Lemma enqueueRequest_offline (depth : nat) (c : AxiosRequestConfig)
    (w : World) :
  isInitialized (svc w) = true ->
  probe_value env w = false ->
  queue (svc (snd (enqueueRequest env (S depth) c w)))
  = queue (svc w) ++
    [{| id := pretty (Date_now env (clock (plat w)));
        config := c;
        timestamp := Date_now env (S (clock (plat w))) |}].
Proof.
  intros Hinit Hprobe. rewrite enqueueRequest_run by exact Hinit.
  by rewrite Hprobe.
Qed.

Lemma offlineMiddleware_run (depth : nat) (a : Redux.AnyAction)
    (app : Redux.App) :
  Redux.offlineMiddleware env (S (S depth)) (Redux.Other a) app =
  (Normal tt,
   if (Redux.processOffline a && negb (probe_value env (Redux.world app)))%bool
   then
     {| Redux.offline :=
          Redux.markOfflineAction
            {| Redux.action := a;
               Redux.timestamp :=
                 Date_now env (clock (plat (Redux.world app)));
               Redux.attempts := None |}
            (Redux.offline app);
        Redux.world :=
          snd (Date_now_call env (probed env (Redux.world app))) |}
   else if Redux.processOffline a
   then {| Redux.offline := Redux.offline app;
           Redux.world := probed env (Redux.world app) |}
   else app).
Proof.
  cbn [Redux.offlineMiddleware].
  destruct (Redux.processOffline a); simpl andb; cbv iota.
  - unfold bind at 1. unfold Redux.in_world at 1.
    rewrite isConnected_run. cbn [fst snd].
    destruct (probe_value env (Redux.world app)); simpl negb; cbv iota.
    + reflexivity.
    + reflexivity.
  - destruct app; reflexivity.
Qed.

End Independent.

(** C6, as the code has it. Pending records and queue entries are kept
    apart. The middleware never touches the queue: for an offline-eligible
    action met offline it adds one pending record, otherwise none. An
    [enqueueRequest] never touches the pending records: made offline on the
    initialised service it adds one queue entry. *)
Theorem pending_records_independent_of_queue (env : Env) (depth qdepth : nat)
    (a : Redux.AnyAction) (c : AxiosRequestConfig) (app : Redux.App) :
  (fst (Redux.offlineMiddleware env (S (S depth)) (Redux.Other a) app)
     = Normal tt /\
   queue (svc (Redux.world
     (snd (Redux.offlineMiddleware env (S (S depth)) (Redux.Other a) app))))
     = queue (svc (Redux.world app)) /\
   Redux.pendingActions (Redux.offline
     (snd (Redux.offlineMiddleware env (S (S depth)) (Redux.Other a) app)))
     = if (Redux.processOffline a
           && negb (probe_value env (Redux.world app)))%bool
       then Redux.pendingActions (Redux.offline app) ++
            [{| Redux.action := a;
                Redux.timestamp :=
                  Date_now env (clock (plat (Redux.world app)));
                Redux.attempts := Some 0%nat |}]
       else Redux.pendingActions (Redux.offline app)) /\
  (Redux.pendingActions (Redux.offline
     (snd (Redux.in_world (enqueueRequest env (S qdepth) c) app)))
     = Redux.pendingActions (Redux.offline app) /\
   (isInitialized (svc (Redux.world app)) = true ->
    probe_value env (Redux.world app) = false ->
    length (queue (svc (Redux.world
      (snd (Redux.in_world (enqueueRequest env (S qdepth) c) app)))))
      = S (length (queue (svc (Redux.world app)))))).
Proof.
  split.
  - rewrite offlineMiddleware_run. cbn [fst snd].
    destruct (Redux.processOffline a);
      destruct (probe_value env (Redux.world app)); by simpl.
  - split; [reflexivity|]. intros Hinit Hprobe.
    cbn [Redux.in_world snd Redux.world].
    rewrite (enqueueRequest_offline env qdepth c _ Hinit Hprobe).
    rewrite length_app. simpl. lia.
Qed.

Lemma pending_records_independent_of_queue_witness :
  length (Redux.pendingActions (Redux.offline
    (snd (Redux.offlineMiddleware Sample.env_offline_faulty 2
            (Redux.Other SampleRedux.sendMessage) SampleRedux.start))))
    = 1%nat /\
  length (queue (svc (Redux.world
    (snd (Redux.in_world
            (enqueueRequest Sample.env_offline_faulty 1 Sample.clock_in)
            SampleRedux.start))))) = 1%nat.
Proof.
  destruct (pending_records_independent_of_queue Sample.env_offline_faulty 0 0
              SampleRedux.sendMessage Sample.clock_in SampleRedux.start)
    as [(_ & _ & Hp) [_ Hq]].
  split.
  - rewrite Hp. reflexivity.
  - apply Hq; reflexivity.
Defined.

(** C6 as stated fails: after the middleware has handled one
    offline-eligible action offline there is one pending record and the
    queue is empty. *)
Lemma pending_count_diverges_from_queue :
  fst (Redux.offlineMiddleware Sample.env_offline_faulty 2
         (Redux.Other SampleRedux.sendMessage) SampleRedux.start)
    = Normal tt /\
  length (Redux.pendingActions (Redux.offline
    (snd (Redux.offlineMiddleware Sample.env_offline_faulty 2
            (Redux.Other SampleRedux.sendMessage) SampleRedux.start))))
    = 1%nat /\
  length (queue (svc (Redux.world
    (snd (Redux.offlineMiddleware Sample.env_offline_faulty 2
            (Redux.Other SampleRedux.sendMessage) SampleRedux.start)))))
    = 0%nat.
Proof. vm_compute. auto. Qed.

(** ** The snapshot *)

Section Snapshot.
Import Refs.

Lemma getQueue_fresh (q : positive) (h : Heap) :
  is_Some (arrays h !! q) -> fst (getQueue q h) <> q.
Proof.
  intros Hq Heq. simpl in Heq.
  apply (is_fresh (dom (arrays h))). rewrite Heq. by apply elem_of_dom.
Qed.

Lemma mutate_array_level_frame (a q : positive) (m : Mutation) (h : Heap) :
  a <> q -> array_level m = true ->
  arrays (mutate a m h) !! q = arrays h !! q /\
  objects (mutate a m h) = objects h.
Proof.
  intros Hne Hm. destruct m; try discriminate. simpl.
  split; [by apply lookup_alter_ne | reflexivity].
Qed.

Lemma mutate_all_array_level_frame (a q : positive) (ms : list Mutation) :
  a <> q -> forallb array_level ms = true ->
  forall h : Heap,
    arrays (mutate_all a ms h) !! q = arrays h !! q /\
    objects (mutate_all a ms h) = objects h.
Proof.
  intros Hne. induction ms as [|m ms IH]; intros Hms h; [done|].
  simpl in Hms. apply andb_prop in Hms as [Hm Hms].
  unfold mutate_all in *. simpl.
  destruct (IH Hms (mutate a m h)) as [Ha Ho].
  destruct (mutate_array_level_frame a q m h Hne Hm) as [Ha' Ho'].
  split; [by rewrite Ha | by rewrite Ho].
Qed.

End Snapshot.

(** C8, as the code has it. [getQueue] returns a new array with the
    queue's entries in order; whatever a caller does to that array itself
    leaves the queue's array and its entries as they were. *)
Theorem getQueue_returns_fresh_array (q : positive) (h : Refs.Heap)
    (ms : list Refs.Mutation) :
  is_Some (Refs.arrays h !! q) ->
  forallb Refs.array_level ms = true ->
  fst (Refs.getQueue q h) <> q /\
  Refs.contents (fst (Refs.getQueue q h)) (snd (Refs.getQueue q h))
    = Refs.contents q h /\
  Refs.contents q
    (Refs.mutate_all (fst (Refs.getQueue q h)) ms (snd (Refs.getQueue q h)))
    = Refs.contents q h.
Proof.
  intros Hq Hms.
  pose proof (getQueue_fresh q h Hq) as Hne.
  split; [exact Hne|]. split.
  - unfold Refs.contents. simpl. by rewrite lookup_insert_eq.
  - destruct (mutate_all_array_level_frame _ q ms Hne Hms
                (snd (Refs.getQueue q h))) as [Ha Ho].
    unfold Refs.contents. rewrite Ha, Ho. simpl.
    simpl in Hne. by rewrite lookup_insert_ne.
Qed.

Lemma getQueue_returns_fresh_array_witness :
  Refs.contents 1%positive
    (Refs.mutate_all (fst (Refs.getQueue 1%positive SampleHeap.one_entry))
       [Refs.ArrayUpdate (fun _ => []); Refs.ArrayUpdate reverse]
       (snd (Refs.getQueue 1%positive SampleHeap.one_entry)))
  = Refs.contents 1%positive SampleHeap.one_entry.
Proof.
  apply (getQueue_returns_fresh_array 1%positive SampleHeap.one_entry
           [Refs.ArrayUpdate (fun _ => []); Refs.ArrayUpdate reverse]).
  - by exists [1%positive].
  - reflexivity.
Defined.

(** C8 as stated fails: a write to an entry reached through the returned
    array is a write to the queue's own entry. *)
Lemma getQueue_entries_are_shared :
  Refs.contents 1%positive SampleHeap.one_entry = [Sample.entry_A] /\
  Refs.contents 1%positive
    (Refs.mutate (fst (Refs.getQueue 1%positive SampleHeap.one_entry))
       (Refs.SetId 0 "tampered")
       (snd (Refs.getQueue 1%positive SampleHeap.one_entry)))
  = [{| id := "tampered"; config := Sample.clock_in;
        timestamp := 1700000000000 |}].
Proof. vm_compute. auto. Qed.

(** ** The interceptors *)

Section Interceptors.
Import Storage Api ApiSpec ApiFacts.
Context {J : Type}.
Variable js : Engine J.
Variable srv : Server J.

Lemma storageService_getItem_token (key : string) (w : State J) :
  Api.storageService_getItem js srv key w
    = (Normal (stored js srv key w), read_done w).
Proof.
  unfold Api.storageService_getItem, stored, read_done, getItem, try_catch,
    bind, platform, store.
  destruct (storage_read srv (storage_reads w)); [|reflexivity].
  cbn [fst snd]. destruct (async (stores w) !! key) as [v|]; [|reflexivity].
  by destruct (JSON_parse js v).
Qed.

Lemma request_interceptor_run (c : AxiosRequestConfig) (w : State J) :
  request_interceptor js srv c w = (Normal (outgoing js srv w c), read_done w).
Proof.
  unfold request_interceptor, outgoing, bind.
  rewrite storageService_getItem_token.
  destruct (stored js srv AUTH_TOKEN w) as [t|]; [|reflexivity].
  by destruct (truthy js (Some t)).
Qed.

Lemma api_unfold (fuel : nat) (c : AxiosRequestConfig) (w : State J) :
  api js srv (S fuel) c w =
  try_catch (adapter srv (outgoing js srv w c))
    (fun error =>
       response_rejected js srv (api js srv fuel) error (outgoing js srv w c))
    (read_done w).
Proof.
  cbn [api]. unfold bind at 1. by rewrite request_interceptor_run.
Qed.

(** The adapter's part of a call. *)
Lemma api_answered (fuel : nat) (c : AxiosRequestConfig) (w : State J) :
  api js srv (S fuel) c w =
  match respond srv (length (sent w)) (outgoing js srv w c) with
  | Some code =>
      if ((200 <=? code) && (code <? 300))%bool
      then (Normal code, on_wire (outgoing js srv w c) w)
      else response_rejected js srv (api js srv fuel)
             (AxiosError (Some code)) (outgoing js srv w c)
             (on_wire (outgoing js srv w c) w)
  | None =>
      response_rejected js srv (api js srv fuel) (AxiosError None)
        (outgoing js srv w c) (on_wire (outgoing js srv w c) w)
  end.
Proof.
  rewrite api_unfold. unfold try_catch, adapter. cbn [read_done sent].
  destruct (respond srv (length (sent w)) (outgoing js srv w c)) as [code|];
    [|reflexivity].
  by destruct ((200 <=? code) && (code <? 300))%bool.
Qed.

(** A refresh that succeeds. *)
Lemma try_refresh_success (c : AxiosRequestConfig) (w : State J)
    (rt tk : Value J) :
  stored js srv REFRESH_TOKEN w = Some rt -> truthy js (Some rt) = true ->
  new_token js srv w rt = Some tk ->
  try_refresh js srv c w =
  (Normal (Some (set_authorization (text js tk) c)),
   {| stores :=
        {| encrypted := encrypted (stores w);
           async := <[AUTH_TOKEN :=
                        match tk with
                        | Str s => s
                        | Other j => JSON_stringify js j
                        end]> (async (stores w)) |};
      sent := sent w;
      refreshed := refreshed w ++ [rt];
      storage_reads := S (storage_reads w);
      storage_writes := S (storage_writes w);
      reachability_probes := reachability_probes w;
      handed_over := handed_over w |}).
Proof.
  intros Hrt Hrt' Hnew. unfold new_token in Hnew.
  unfold try_refresh. unfold bind at 1.
  rewrite storageService_getItem_token, Hrt, Hrt'.
  unfold bind at 1. unfold post_refresh at 1. cbn [read_done refreshed].
  destruct (auth_refresh srv (length (refreshed w)) rt) as [[t|]|e];
    try done.
  destruct (truthy js (Some t)) eqn:Ht; [|done].
  destruct (storage_write srv (storage_writes w)) eqn:Hw; [|done].
  injection Hnew as <-. cbv beta iota.
  unfold bind, setItem_AUTH_TOKEN, storage_op, setItem, platform, ret.
  cbn [storage_writes stores read_done]. rewrite Hw. reflexivity.
Qed.

(** A 401 with a successful refresh: the client is called again. *)
Lemma api_refresh_retry (fuel : nat) (c : AxiosRequestConfig) (w : State J)
    (rt tk : Value J) :
  respond srv (length (sent w)) (outgoing js srv w c) = Some 401 ->
  refresh_value js srv w = Some rt -> truthy js (Some rt) = true ->
  new_token js srv w rt = Some tk ->
  api js srv (S fuel) c w =
  api js srv fuel (set_authorization (text js tk) (outgoing js srv w c))
    (refreshed_state js srv w c rt tk).
Proof.
  intros H401 Hrt Hrt' Hnew.
  rewrite api_answered, H401.
  change ((200 <=? 401) && (401 <? 300))%bool with false. cbv iota.
  unfold response_rejected. cbv zeta. unfold bind at 1.
  change (401 =? 401) with true. cbv iota.
  unfold bind at 1. unfold try_catch at 1.
  rewrite (try_refresh_success _ _ rt tk); try done.
Qed.

(** A request that is not answered with 401 involves no refresh and no
    further request. *)
Lemma api_no_refresh (fuel : nat) (c : AxiosRequestConfig) (w : State J) :
  respond srv (length (sent w)) (outgoing js srv w c) <> Some 401 ->
  refreshed (snd (api js srv (S fuel) c w)) = refreshed w /\
  sent (snd (api js srv (S fuel) c w)) = sent w ++ [outgoing js srv w c].
Proof.
  intros Hne. rewrite api_answered.
  destruct (respond srv (length (sent w)) (outgoing js srv w c)) as [code|].
  - destruct ((200 <=? code) && (code <? 300))%bool; [done|].
    unfold response_rejected, bind. simpl.
    destruct (code =? 401) eqn:E.
    + apply Z.eqb_eq in E. by subst code.
    + done.
  - unfold response_rejected, bind, isConnected. simpl.
    by destruct (reachable srv (reachability_probes w)).
Qed.

(** Such a request settles whatever bound is put on the calls that would
    follow it. *)
Lemma api_settles (fuel fuel' : nat) (c : AxiosRequestConfig) (w : State J) :
  respond srv (length (sent w)) (outgoing js srv w c) <> Some 401 ->
  api js srv (S fuel) c w = api js srv (S fuel') c w /\
  fst (api js srv (S fuel) c w) <> Throw FuelExhausted.
Proof.
  intros Hne. rewrite !api_answered.
  destruct (respond srv (length (sent w)) (outgoing js srv w c)) as [code|].
  - destruct ((200 <=? code) && (code <? 300))%bool; [done|].
    unfold response_rejected, bind. simpl.
    destruct (code =? 401) eqn:E.
    + apply Z.eqb_eq in E. by subst code.
    + done.
  - unfold response_rejected, bind, isConnected. simpl.
    by destruct (reachable srv (reachability_probes w)).
Qed.

End Interceptors.

Section Interceptors2.
Import Storage Api ApiSpec ApiFacts.
Context {J : Type}.
Variable js : Engine J.
Variable srv : Server J.

(** What a call of [storageService] that writes or removes leaves alone. *)
Lemma storage_op_frame (op : bool -> M Stores unit) (w : State J) :
  sent (snd (storage_op srv op w)) = sent w /\
  refreshed (snd (storage_op srv op w)) = refreshed w /\
  handed_over (snd (storage_op srv op w)) = handed_over w /\
  reachability_probes (snd (storage_op srv op w)) = reachability_probes w /\
  storage_writes (snd (storage_op srv op w)) = S (storage_writes w).
Proof. by unfold storage_op. Qed.

Lemma clearAuthAndRedirect_frame (w : State J) :
  sent (snd (clearAuthAndRedirect srv w)) = sent w /\
  refreshed (snd (clearAuthAndRedirect srv w)) = refreshed w /\
  handed_over (snd (clearAuthAndRedirect srv w)) = handed_over w /\
  reachability_probes (snd (clearAuthAndRedirect srv w))
    = reachability_probes w.
Proof.
  unfold clearAuthAndRedirect, bind.
  destruct (storage_op_frame (fun ok => removeItem ok AUTH_TOKEN false) w)
    as (Hs & Hr & Hh & Hp & _).
  destruct (storage_op srv (fun ok => removeItem ok AUTH_TOKEN false) w)
    as [[[]|e] w1]; cbn [snd] in *; [|done].
  destruct (storage_op_frame (fun ok => removeItem ok REFRESH_TOKEN false) w1)
    as (Hs1 & Hr1 & Hh1 & Hp1 & _).
  by rewrite Hs1, Hr1, Hh1, Hp1.
Qed.

Lemma clearAuthAndRedirect_run (w : State J) :
  storage_write srv (storage_writes w) = true ->
  storage_write srv (S (storage_writes w)) = true ->
  exists w' : State J,
    clearAuthAndRedirect srv w = (Normal tt, w') /\
    auth_token w' = None /\ refresh_token w' = None /\
    storage_writes w' = S (S (storage_writes w)).
Proof.
  intros H1 H2.
  unfold clearAuthAndRedirect, bind, storage_op, removeItem, platform.
  rewrite H1. cbn [fst snd storage_writes stores]. rewrite H2.
  eexists. split; [reflexivity|].
  unfold auth_token, refresh_token. cbn [set_store store stores async snd].
  split; [|split; [|reflexivity]].
  - rewrite lookup_delete_ne by done. apply lookup_delete_eq.
  - apply lookup_delete_eq.
Qed.

(** What a refresh attempt does without a token to show for it. *)
Lemma try_refresh_nothing (c : AxiosRequestConfig) (w : State J) :
  (forall rt, stored js srv REFRESH_TOKEN w = Some rt ->
     truthy js (Some rt) = true -> new_token js srv w rt = None) ->
  exists (r : Completion (option AxiosRequestConfig)) (w' : State J),
    try_refresh js srv c w = (r, w') /\
    (r = Normal None \/ exists e, r = Throw e) /\
    sent w' = sent w /\ handed_over w' = handed_over w /\
    reachability_probes w' = reachability_probes w /\
    refreshed w' = refreshed w ++ posted js (stored js srv REFRESH_TOKEN w).
Proof.
  intros H.
  unfold try_refresh. unfold bind at 1. rewrite storageService_getItem_token.
  destruct (stored js srv REFRESH_TOKEN w) as [rt|] eqn:Hrt.
  2:{ eexists _, _. split; [reflexivity|]. split; [by left|].
      simpl. by rewrite app_nil_r. }
  unfold posted.
  destruct (truthy js (Some rt)) eqn:Ht.
  2:{ eexists _, _. split; [reflexivity|]. split; [by left|].
      simpl. by rewrite app_nil_r. }
  specialize (H rt eq_refl Ht). unfold new_token in H.
  unfold bind at 1. unfold post_refresh at 1. cbn [read_done refreshed].
  destruct (auth_refresh srv (length (refreshed w)) rt) as [[t|]|e].
  - destruct (truthy js (Some t)) eqn:Htk.
    + destruct (storage_write srv (storage_writes w)) eqn:Hw; [done|].
      cbv beta iota.
      unfold bind, setItem_AUTH_TOKEN, storage_op, setItem, platform.
      cbn [storage_writes stores read_done]. rewrite Hw.
      eexists _, _. split; [reflexivity|]. split; [right; by eexists|]. done.
    + eexists _, _. split; [reflexivity|]. split; [by left|]. done.
  - eexists _, _. split; [reflexivity|]. split; [by left|]. done.
  - eexists _, _. split; [reflexivity|]. split; [right; by eexists|]. done.
Qed.

(** A 401 whose refresh attempt yields no token: the request is not sent
    again, and the refresh token that was read, if truthy, was posted
    once. *)
Lemma unauthorized_no_retry (fuel : nat) (c : AxiosRequestConfig)
    (w : State J) :
  respond srv (length (sent w)) (outgoing js srv w c) = Some 401 ->
  (forall rt, refresh_value js srv w = Some rt ->
     truthy js (Some rt) = true -> new_token js srv w rt = None) ->
  exists (e : JsError) (w' : State J),
    api js srv (S fuel) c w = (Throw e, w') /\
    sent w' = sent w ++ [outgoing js srv w c] /\
    handed_over w' = handed_over w /\
    reachability_probes w' = reachability_probes w /\
    refreshed w' = refreshed w ++ posted js (refresh_value js srv w) /\
    ((forall n, storage_write srv n = true) ->
     e = AxiosError (Some 401) /\
     auth_token w' = None /\ refresh_token w' = None).
Proof.
  intros H401 Hno.
  destruct (try_refresh_nothing (outgoing js srv w c)
              (on_wire (outgoing js srv w c) w) Hno)
    as (r & w1 & Hrun & Hr & Hs & Hh & Hp & Hf).
  rewrite api_answered, H401.
  change ((200 <=? 401) && (401 <? 300))%bool with false. cbv iota.
  unfold response_rejected. cbv zeta. unfold bind at 1.
  change (401 =? 401) with true. cbv iota.
  unfold bind at 1. unfold try_catch at 1. rewrite Hrun.
  destruct Hr as [->|[e ->]]; cbv beta iota.
  - unfold bind at 1.
    destruct (clearAuthAndRedirect_frame w1) as (Hs' & Hr' & Hh' & Hp').
    destruct (clearAuthAndRedirect srv w1) as [[[]|e] w2] eqn:Hclear;
      cbn [snd] in *.
    + eexists _, _. split; [reflexivity|].
      rewrite Hs', Hh', Hp', Hr', Hs, Hh, Hp, Hf.
      do 4 (split; [done|]). intros Hall.
      destruct (clearAuthAndRedirect_run w1 (Hall _) (Hall _))
          as (w3 & Hrun3 & Ha & Ht & _);
        rewrite Hclear in Hrun3; by injection Hrun3 as ->.
    + eexists _, _. split; [reflexivity|].
      rewrite Hs', Hh', Hp', Hr', Hs, Hh, Hp, Hf.
      do 4 (split; [done|]). intros Hall.
      destruct (clearAuthAndRedirect_run w1 (Hall _) (Hall _))
          as (w3 & Hrun3 & _); by rewrite Hclear in Hrun3.
  - unfold bind at 1.
    destruct (clearAuthAndRedirect_frame w1) as (Hs' & Hr' & Hh' & Hp').
    destruct (clearAuthAndRedirect srv w1) as [[[]|e1] w2] eqn:Hclear;
      cbn [snd] in *.
    + unfold ret at 1. cbv beta iota. unfold bind at 1.
      destruct (clearAuthAndRedirect_frame w2) as (Hs2 & Hr2 & Hh2 & Hp2).
      destruct (clearAuthAndRedirect srv w2) as [[[]|e2] w3] eqn:Hclear2;
        cbn [snd] in *.
      * eexists _, _. split; [reflexivity|].
        rewrite Hs2, Hh2, Hp2, Hr2, Hs', Hh', Hp', Hr', Hs, Hh, Hp, Hf.
        do 4 (split; [done|]). intros Hall.
        destruct (clearAuthAndRedirect_run w2 (Hall _) (Hall _))
            as (w4 & Hrun4 & Ha & Ht & _);
          rewrite Hclear2 in Hrun4; by injection Hrun4 as ->.
      * eexists _, _. split; [reflexivity|].
        rewrite Hs2, Hh2, Hp2, Hr2, Hs', Hh', Hp', Hr', Hs, Hh, Hp, Hf.
        do 4 (split; [done|]). intros Hall.
        destruct (clearAuthAndRedirect_run w2 (Hall _) (Hall _))
            as (w4 & Hrun4 & _); by rewrite Hclear2 in Hrun4.
    + eexists _, _. split; [reflexivity|].
      rewrite Hs', Hh', Hp', Hr', Hs, Hh, Hp, Hf.
      do 4 (split; [done|]). intros Hall.
      destruct (clearAuthAndRedirect_run w1 (Hall _) (Hall _))
          as (w3 & Hrun3 & _); by rewrite Hclear in Hrun3.
Qed.

End Interceptors2.

(** C5, as the code has it.  A request is answered with 401 and the
    response interceptor reads a truthy refresh token [rt].  When the
    refresh yields a token that is stored, the interceptor calls the client
    again with the original request under the new token and returns what
    that call returns; when this second request is not answered with 401
    either, the call settles (whatever bound is put on further calls), the
    refresh token was posted once and the request went out twice.  When the
    refresh yields no such token, the request fails, the refresh token was
    posted once and the request went out once. *)
Theorem unauthorized_refresh_then_retry {J : Type} (js : Api.Engine J)
    (srv : Api.Server J) (fuel : nat) (c : AxiosRequestConfig)
    (w : Api.State J) (rt : Storage.Value J) :
  Api.respond srv (length (Api.sent w)) (ApiSpec.outgoing js srv w c)
    = Some 401 ->
  ApiSpec.refresh_value js srv w = Some rt ->
  Api.truthy js (Some rt) = true ->
  match ApiSpec.new_token js srv w rt with
  | Some tk =>
      Api.api js srv (S (S fuel)) c w
        = Api.api js srv (S fuel)
            (Api.set_authorization (Api.text js tk)
               (ApiSpec.outgoing js srv w c))
            (ApiSpec.refreshed_state js srv w c rt tk) /\
      (Api.respond srv (S (length (Api.sent w)))
         (ApiSpec.retried js srv w c rt tk) <> Some 401 ->
       fst (Api.api js srv (S (S fuel)) c w) <> Throw FuelExhausted /\
       (forall fuel' : nat,
          Api.api js srv (S (S fuel')) c w = Api.api js srv (S (S fuel)) c w) /\
       Api.refreshed (snd (Api.api js srv (S (S fuel)) c w))
         = Api.refreshed w ++ [rt] /\
       Api.sent (snd (Api.api js srv (S (S fuel)) c w))
         = Api.sent w ++ [ApiSpec.outgoing js srv w c;
                          ApiSpec.retried js srv w c rt tk])
  | None =>
      (exists e : JsError, fst (Api.api js srv (S fuel) c w) = Throw e) /\
      Api.refreshed (snd (Api.api js srv (S fuel) c w))
        = Api.refreshed w ++ [rt] /\
      Api.sent (snd (Api.api js srv (S fuel) c w))
        = Api.sent w ++ [ApiSpec.outgoing js srv w c]
  end.
Proof.
  intros H401 Hrt Hrt'.
  destruct (ApiSpec.new_token js srv w rt) as [tk|] eqn:Hnew.
  - rewrite (api_refresh_retry js srv (S fuel) c w rt tk); try done.
    split; [reflexivity|]. intros Hretry.
    assert (Hout : ApiSpec.outgoing js srv
                     (ApiSpec.refreshed_state js srv w c rt tk)
                     (Api.set_authorization (Api.text js tk)
                        (ApiSpec.outgoing js srv w c))
                   = ApiSpec.retried js srv w c rt tk).
    { unfold ApiSpec.retried, ApiSpec.outgoing.
      by destruct (ApiSpec.stored js srv Api.AUTH_TOKEN
                     (ApiSpec.refreshed_state js srv w c rt tk)) as [t|];
        [destruct (Api.truthy js (Some t))|];
        destruct (ApiSpec.stored js srv Api.AUTH_TOKEN w) as [t'|];
        try destruct (Api.truthy js (Some t')). }
    assert (Hretry' :
      Api.respond srv
        (length (Api.sent (ApiSpec.refreshed_state js srv w c rt tk)))
        (ApiSpec.outgoing js srv (ApiSpec.refreshed_state js srv w c rt tk)
           (Api.set_authorization (Api.text js tk)
              (ApiSpec.outgoing js srv w c)))
      <> Some 401).
    { rewrite Hout. simpl. rewrite length_app. simpl.
      by rewrite Nat.add_1_r. }
    destruct (api_no_refresh js srv fuel _ _ Hretry') as [Hr Hs].
    split; [by apply api_settles|]. split.
    + intros fuel'.
      rewrite (api_refresh_retry js srv (S fuel') c w rt tk); try done.
      by apply api_settles.
    + rewrite Hr, Hs, Hout. simpl. by rewrite <- app_assoc.
  - destruct (unauthorized_no_retry js srv fuel c w H401)
      as (e & w' & Hrun & Hs & _ & _ & Hr & _).
    { intros rt0 Hrt0 _. rewrite Hrt in Hrt0. by injection Hrt0 as <-. }
    rewrite Hrun. cbn [fst snd]. split; [by exists e|]. split; [|exact Hs].
    rewrite Hr, Hrt. unfold ApiSpec.posted. by rewrite Hrt'.
Qed.

Lemma unauthorized_refresh_then_retry_witness :
  (fst (Api.api SampleApi.js (SampleApi.srv 1) 2 SampleApi.visit
          SampleApi.stale) = Normal 200 /\
   Api.refreshed (snd (Api.api SampleApi.js (SampleApi.srv 1) 2
                         SampleApi.visit SampleApi.stale))
     = [Storage.Str "refresh-1"] /\
   length (Api.sent (snd (Api.api SampleApi.js (SampleApi.srv 1) 2
                            SampleApi.visit SampleApi.stale))) = 2%nat) /\
  (Api.refreshed (snd (Api.api SampleApi.js
                         (SampleApi2.srv_status (Some 401) true) 1
                         SampleApi.visit SampleApi.stale))
     = [Storage.Str "refresh-1"] /\
   length (Api.sent (snd (Api.api SampleApi.js
                            (SampleApi2.srv_status (Some 401) true) 1
                            SampleApi.visit SampleApi.stale))) = 1%nat).
Proof.
  split.
  - pose proof (unauthorized_refresh_then_retry SampleApi.js (SampleApi.srv 1)
                  0 SampleApi.visit SampleApi.stale (Storage.Str "refresh-1")
                  eq_refl eq_refl eq_refl) as H.
    change (ApiSpec.new_token SampleApi.js (SampleApi.srv 1) SampleApi.stale
              (Storage.Str "refresh-1"))
      with (Some (Storage.Str (J := bool) "access-0")) in H.
    destruct H as [Heq Hcount].
    destruct Hcount as (_ & _ & Hr & Hs); [discriminate|].
    split; [by rewrite Heq|]. split; [exact Hr | by rewrite Hs].
  - pose proof (unauthorized_refresh_then_retry SampleApi.js
                  (SampleApi2.srv_status (Some 401) true)
                  0 SampleApi.visit SampleApi.stale (Storage.Str "refresh-1")
                  eq_refl eq_refl eq_refl) as H.
    change (ApiSpec.new_token SampleApi.js
              (SampleApi2.srv_status (Some 401) true) SampleApi.stale
              (Storage.Str "refresh-1"))
      with (@None (Storage.Value bool)) in H.
    destruct H as (_ & Hr & Hs).
    split; [exact Hr | by rewrite Hs].
Defined.

(** C5 as stated fails. A retry that is answered with 401 again is
    refreshed and retried again, so one request causes two refresh calls
    and goes out three times; and two 401 answers that are in flight
    together cause one refresh call each. *)
Lemma unauthorized_refresh_is_repeated :
  (fst (Api.api SampleApi.js (SampleApi.srv 2) 3 SampleApi.visit
          SampleApi.stale) = Normal 200 /\
   Api.refreshed (snd (Api.api SampleApi.js (SampleApi.srv 2) 3
                         SampleApi.visit SampleApi.stale))
     = [Storage.Str "refresh-1"; Storage.Str "refresh-1"] /\
   length (Api.sent (snd (Api.api SampleApi.js (SampleApi.srv 2) 3
                            SampleApi.visit SampleApi.stale))) = 3%nat) /\
  Api.refreshed
    (snd (Api.response_rejected SampleApi.js (SampleApi.srv 2)
            (Api.api SampleApi.js (SampleApi.srv 2) 1)
            (AxiosError (Some 401))
            (Api.set_authorization "expired" SampleApi.visit)
            (snd (Api.response_rejected SampleApi.js (SampleApi.srv 2)
                    (Api.api SampleApi.js (SampleApi.srv 2) 1)
                    (AxiosError (Some 401))
                    (Api.set_authorization "expired" SampleApi.visit)
                    SampleApi.in_flight))))
    = [Storage.Str "refresh-1"; Storage.Str "refresh-1"].
Proof. vm_compute. auto. Qed.

(** ** The sync reducer *)

Section Arrays.
Import Redux.
Context {A : Type}.

Lemma findIndex_from_found (p : A -> bool) (l : list A) : forall k : Z,
  0 <= k -> findIndex_from p l k <> -1 ->
  exists (i : nat) (x : A),
    findIndex_from p l k = k + Z.of_nat i /\ l !! i = Some x /\ p x = true.
Proof.
  induction l as [|y l IH]; intros k Hk Hfound; simpl in *; [done|].
  destruct (p y) eqn:Hy.
  - exists 0%nat, y. split; [lia|]. by split.
  - destruct (IH (k + 1)) as (i & x & Hi & Hx & Hp); [lia | done |].
    exists (S i), x. split; [lia|]. by split.
Qed.

(** Removing by index where [keep] holds on every element that satisfies
    [p] removes none of them. *)
Lemma filter_index_from_keeps (p : A -> bool) (keep : A -> Z -> bool)
    (l : list A) : forall k : Z,
  (forall (i : nat) (x : A), l !! i = Some x -> p x = true ->
     keep x (k + Z.of_nat i) = true) ->
  List.filter p (filter_index_from keep l k) = List.filter p l.
Proof.
  induction l as [|y l IH]; intros k Hkeep; simpl; [done|].
  assert (Hrest : List.filter p (filter_index_from keep l (k + 1))
                  = List.filter p l).
  { apply IH. intros i x Hx Hp.
    replace (k + 1 + Z.of_nat i) with (k + Z.of_nat (S i)) by lia.
    by apply Hkeep. }
  destruct (p y) eqn:Hy.
  - pose proof (Hkeep 0%nat y eq_refl Hy) as H0. simpl in H0.
    rewrite Z.add_0_r in H0. rewrite H0. simpl. by rewrite Hy, Hrest.
  - destruct (keep y k); simpl; by rewrite ?Hy, Hrest.
Qed.

(** Removing by index where, among the elements that satisfy [p], exactly
    the one [findIndex] points to goes, removes the first of them. *)
Lemma filter_index_from_drops_first (p : A -> bool) (keep : A -> Z -> bool)
    (l : list A) : forall k : Z,
  (forall (i : nat) (x : A), l !! i = Some x -> p x = true ->
     keep x (k + Z.of_nat i)
       = negb (k + Z.of_nat i =? findIndex_from p l k)) ->
  List.filter p (filter_index_from keep l k) = tail (List.filter p l).
Proof.
  induction l as [|y l IH]; intros k Hkeep; simpl; [done|].
  destruct (p y) eqn:Hy.
  - pose proof (Hkeep 0%nat y eq_refl Hy) as H0. simpl in H0.
    rewrite Hy in H0. rewrite Z.add_0_r, Z.eqb_refl in H0. simpl in H0.
    rewrite H0. simpl.
    apply filter_index_from_keeps. intros i x Hx Hp.
    replace (k + 1 + Z.of_nat i) with (k + Z.of_nat (S i)) by lia.
    rewrite (Hkeep (S i) x Hx Hp). simpl. rewrite Hy.
    apply negb_true_iff, Z.eqb_neq. lia.
  - assert (Hrest : List.filter p (filter_index_from keep l (k + 1))
                    = tail (List.filter p l)).
    { apply IH. intros i x Hx Hp.
      replace (k + 1 + Z.of_nat i) with (k + Z.of_nat (S i)) by lia.
      rewrite (Hkeep (S i) x Hx Hp). simpl. by rewrite Hy. }
    destruct (keep y k); simpl; by rewrite ?Hy, Hrest.
Qed.

End Arrays.

Section Sync.
Import Redux ReduxSpec.

Lemma has_type_eq (t t' : string) (pa : OfflineAction) :
  has_type t pa = true -> has_type t' pa = true -> t = t'.
Proof.
  unfold has_type. rewrite !String.eqb_eq. congruence.
Qed.

(** Among the pending actions of a type that was synced with success, the
    computed indexes hold exactly the first one. *)
Lemma successful_index_of_type (payload : list SyncResult)
    (state : OfflineState) (t : string) (i : nat) (pa : OfflineAction) :
  (exists r, In r payload /\ succeeded t r = true) ->
  pendingActions state !! i = Some pa ->
  has_type t pa = true ->
  includes (successfulActionIndexes payload state) (Z.of_nat i)
  = (Z.of_nat i =? findIndex (has_type t) (pendingActions state)).
Proof.
  intros (r & Hr & Hsucc) Hpa Ht.
  apply andb_prop in Hsucc as [Hsuccess Hrt]. apply String.eqb_eq in Hrt.
  destruct (Z.of_nat i =? findIndex (has_type t) (pendingActions state))
    eqn:E.
  - apply Z.eqb_eq in E. unfold includes. apply existsb_exists.
    exists (Z.of_nat i). split; [|apply Z.eqb_refl].
    unfold successfulActionIndexes. apply filter_In. split.
    + apply in_map_iff. exists r. split.
      * rewrite E, Hrt. reflexivity.
      * apply filter_In. by split.
    + apply negb_true_iff, Z.eqb_neq. lia.
  - apply Z.eqb_neq in E. apply not_true_is_false. intros Hin.
    apply E. unfold includes in Hin. apply existsb_exists in Hin.
    destruct Hin as (j & Hj & Hij). apply Z.eqb_eq in Hij. subst j.
    unfold successfulActionIndexes in Hj. apply filter_In in Hj.
    destruct Hj as [Hj Hfound]. apply negb_true_iff, Z.eqb_neq in Hfound.
    apply in_map_iff in Hj. destruct Hj as (r' & Hidx & _).
    fold (has_type (type (result_action r'))) in Hidx.
    assert (Hfound' : findIndex_from (has_type (type (result_action r')))
                        (pendingActions state) 0 <> -1).
    { unfold findIndex in Hidx. by rewrite Hidx. }
    destruct (findIndex_from_found _ _ 0 ltac:(lia) Hfound')
      as (i' & pa' & Hi' & Hpa' & Ht').
    unfold findIndex in Hidx. rewrite Hidx in Hi'.
    assert (i' = i) by lia. subst i'.
    rewrite Hpa in Hpa'. injection Hpa' as <-.
    rewrite (has_type_eq _ _ _ Ht Ht'). symmetry. exact Hidx.
Qed.

Lemma sync_drops_first_of_type (now : Z) (payload : list SyncResult)
    (state : OfflineState) (t : string) :
  (exists r, In r payload /\ succeeded t r = true) ->
  List.filter (has_type t)
    (pendingActions (syncOfflineData_fulfilled now payload state))
  = tail (List.filter (has_type t) (pendingActions state)).
Proof.
  intros Hsucc. cbn [syncOfflineData_fulfilled pendingActions].
  unfold filter_index.
  apply filter_index_from_drops_first. intros i pa Hpa Ht.
  rewrite Z.add_0_l.
  by rewrite (successful_index_of_type payload state t i pa).
Qed.

End Sync.

(** C10. When two or more successful results of a sync carry the same
    action type, the pending actions of that type lose their first element
    and nothing else: at most one of them is removed and the other
    duplicates stay, in their order. *)
Theorem sync_removes_one_pending_per_type (now : Z)
    (payload : list Redux.SyncResult) (state : Redux.OfflineState)
    (t : string) :
  (2 <= length (List.filter (ReduxSpec.succeeded t) payload))%nat ->
  List.filter (ReduxSpec.has_type t)
    (Redux.pendingActions (Redux.syncOfflineData_fulfilled now payload state))
  = tail (List.filter (ReduxSpec.has_type t) (Redux.pendingActions state)) /\
  (length (List.filter (ReduxSpec.has_type t) (Redux.pendingActions state))
   <= 1 + length (List.filter (ReduxSpec.has_type t)
                    (Redux.pendingActions
                       (Redux.syncOfflineData_fulfilled now payload state))))%nat.
Proof.
  intros HK.
  assert (Hsucc : exists r, In r payload /\ ReduxSpec.succeeded t r = true).
  { destruct (List.filter (ReduxSpec.succeeded t) payload) as [|r rs] eqn:E;
      [simpl in HK; lia|].
    exists r. apply filter_In. rewrite E. by left. }
  rewrite (sync_drops_first_of_type now payload state t Hsucc).
  split; [reflexivity|].
  destruct (List.filter (ReduxSpec.has_type t) (Redux.pendingActions state));
    simpl; lia.
Qed.

Lemma sync_removes_one_pending_per_type_witness :
  Redux.pendingActions
    (Redux.syncOfflineData_fulfilled 1700000000500
       (SampleRedux.reported true SampleRedux.waiting)
       SampleRedux.waiting)
  = [SampleRedux.pending SampleRedux.sendMessage 1700000000090] /\
  List.filter (ReduxSpec.has_type "messages/sendMessage")
    (Redux.pendingActions
       (Redux.syncOfflineData_fulfilled 1700000000500
          (SampleRedux.reported true SampleRedux.waiting)
          SampleRedux.waiting))
  = [SampleRedux.pending SampleRedux.sendMessage 1700000000090].
Proof.
  split; [reflexivity|].
  destruct (sync_removes_one_pending_per_type 1700000000500
              (SampleRedux.reported true SampleRedux.waiting)
              SampleRedux.waiting "messages/sendMessage") as [Heq _].
  - simpl. lia.
  - exact Heq.
Defined.

(** * Further properties *)

(** ** Passes, enqueues and restarts *)

(** X1. A pass whose first dispatch fails in a way the response interceptor
    does not queue (a response with an error status, or no response while
    the interceptor's probe finds the device connected) moves the head
    entry to the tail, calls the dispatcher once and leaves the queue at
    its length; the entries behind the head keep their places. *)
Theorem drain_head_refused_requeues (env : Env) (depth : nat) (w : World)
    (a : QueuedRequest) (rest : list QueuedRequest) :
  isProcessing (svc w) = false ->
  queue (svc w) = a :: rest ->
  fst (NetInfo.isConnected env w) = Normal true ->
  resolves (api_request env (length (dispatched (plat w))) (config a))
    = false ->
  interceptor_copies env a
    (api_request env (length (dispatched (plat w))) (config a))
    (probed env w) = [] ->
  fst (processQueue env depth w) = Normal tt /\
  queue (svc (snd (processQueue env depth w))) = rest ++ [a] /\
  dispatched (plat (snd (processQueue env depth w)))
    = dispatched (plat w) ++ [config a] /\
  length (queue (svc (snd (processQueue env depth w))))
    = length (queue (svc w)).
Proof.
  intros Hidle Hq Hprobe Hres Hnone.
  rewrite isConnected_run in Hprobe. simpl in Hprobe.
  injection Hprobe as Hprobe.
  destruct (drain_head_refused env (enqueueRequest env depth) (length rest)
              (probed env (set_isProcessing true w)) a rest)
    as (w' & Hrun & Hq' & Hd'); [exact Hq|exact Hres|exact Hnone|].
  unfold processQueue.
  rewrite (processQueue_pass env _ w w').
  - simpl. rewrite Hq', Hd', Hq, length_app. simpl.
    repeat split; try done; lia.
  - exact Hidle.
  - by rewrite Hq.
  - exact Hprobe.
  - rewrite Hq. exact Hrun.
Qed.

Lemma drain_head_refused_requeues_witness :
  queue (svc (Sample.idle [Sample.entry_A; Sample.entry_B]))
    = [Sample.entry_A; Sample.entry_B] /\
  queue (svc (snd (processQueue Scenario.env_head_fails 1
                     (Sample.idle [Sample.entry_A; Sample.entry_B]))))
    = [Sample.entry_B; Sample.entry_A] /\
  dispatched (plat (snd (processQueue Scenario.env_head_fails 1
                     (Sample.idle [Sample.entry_A; Sample.entry_B]))))
    = [Sample.clock_in].
Proof.
  split; [reflexivity|].
  destruct (drain_head_refused_requeues Scenario.env_head_fails 1
              (Sample.idle [Sample.entry_A; Sample.entry_B])
              Sample.entry_A [Sample.entry_B])
    as (_ & Hq & Hd & _); [reflexivity..|].
  split; [exact Hq | exact Hd].
Defined.

(** X2. A pass on the initialised service stops at the first dispatch that
    fails: when the dispatches of the entries [pre] resolve and the next
    one, of entry [a], does not, the entries behind [a] are not attempted.
    The queue is left as those entries followed by [a]; when the request of
    [a] got no response and the response interceptor found the device
    offline, the entry the interceptor queued for that request stands
    between them. *)
Theorem drain_stops_at_first_failure (env : Env) (depth : nat) (w : World)
    (pre post : list QueuedRequest) (a : QueuedRequest) :
  isProcessing (svc w) = false ->
  isInitialized (svc w) = true ->
  fst (NetInfo.isConnected env w) = Normal true ->
  queue (svc w) = pre ++ a :: post ->
  (forall (i : nat) (r : QueuedRequest), pre !! i = Some r ->
     resolves (api_request env (length (dispatched (plat w)) + i)%nat
                 (config r)) = true) ->
  resolves (api_request env (length (dispatched (plat w)) + length pre)%nat
              (config a)) = false ->
  queue (svc (snd (processQueue env (S depth) w)))
    = post
      ++ interceptor_copies env a
           (api_request env (length (dispatched (plat w)) + length pre)%nat
              (config a))
           (probed env w)
      ++ [a] /\
  dispatched (plat (snd (processQueue env (S depth) w)))
    = dispatched (plat w) ++ map config pre ++ [config a].
Proof.
  intros Hidle Hinit Hprobe Hq Hpre Ha.
  rewrite isConnected_run in Hprobe. simpl in Hprobe.
  injection Hprobe as Hprobe.
  destruct (drain_prefix_resolved env (enqueueRequest env (S depth)) pre
              (S (length post))
              (probed env (set_isProcessing true w)) (a :: post))
    as (w1 & Hrun & Hq1 & Hd1 & Hf1).
  { simpl. exact Hq. }
  { simpl. exact Hpre. }
  destruct Hf1 as (Hf & Hi & Hn & _ & Hp & _ & _ & Hc).
  assert (Hlen : length (dispatched (plat w1))
                 = (length (dispatched (plat w)) + length pre)%nat).
  { rewrite Hd1. simpl. by rewrite length_app, length_map. }
  destruct (drain_head_failed env depth (length post) w1 a post)
    as (w' & Hrun' & Hq' & Hd' & _).
  { rewrite Hi. exact Hinit. }
  { rewrite Hf. reflexivity. }
  { exact Hq1. }
  { rewrite Hlen. exact Ha. }
  unfold drain in Hrun'. rewrite Hrun' in Hrun. rewrite Hlen in Hq'.
  unfold processQueue.
  rewrite (processQueue_pass env _ w w').
  - simpl. rewrite Hq', Hd', Hd1. simpl. split.
    + f_equal. f_equal. by apply interceptor_copies_frame.
    + by rewrite <- app_assoc.
  - exact Hidle.
  - rewrite Hq. by destruct pre.
  - exact Hprobe.
  - rewrite Hq, length_app. simpl length. exact Hrun.
Qed.

Lemma drain_stops_at_first_failure_witness :
  (queue (svc (snd (processQueue Scenario.env_second_fails 1
                      (Sample.idle [Sample.entry_A; Sample.entry_B;
                                    Scenario.entry_C]))))
     = [Scenario.entry_C; Sample.entry_B] /\
   dispatched (plat (snd (processQueue Scenario.env_second_fails 1
                      (Sample.idle [Sample.entry_A; Sample.entry_B;
                                    Scenario.entry_C]))))
     = [Sample.clock_in; Sample.clock_out]) /\
  queue (svc (snd (processQueue Scenario.env_second_unanswered 1
                     (Sample.idle [Sample.entry_A; Sample.entry_B;
                                   Scenario.entry_C]))))
    = [Scenario.entry_C;
       {| id := "1700000000500"; config := Sample.clock_out;
          timestamp := 1700000000501 |};
       Sample.entry_B].
Proof.
  split.
  - apply (drain_stops_at_first_failure Scenario.env_second_fails 0
             (Sample.idle [Sample.entry_A; Sample.entry_B; Scenario.entry_C])
             [Sample.entry_A] [Scenario.entry_C] Sample.entry_B);
      try reflexivity.
    intros [|i] r Hr; [by injection Hr as <-|]. by destruct i.
  - apply (drain_stops_at_first_failure Scenario.env_second_unanswered 0
             (Sample.idle [Sample.entry_A; Sample.entry_B; Scenario.entry_C])
             [Sample.entry_A] [Scenario.entry_C] Sample.entry_B);
      try reflexivity.
    intros [|i] r Hr; [by injection Hr as <-|]. by destruct i.
Defined.

(** X3. A pass that finds the device offline dispatches nothing and writes
    nothing: the queue, the stored copy and the dispatch log are as before,
    and the guard is released. *)
Theorem processQueue_offline_leaves_queue (env : Env) (depth : nat)
    (w : World) :
  isProcessing (svc w) = false ->
  fst (NetInfo.isConnected env w) = Normal false ->
  fst (processQueue env depth w) = Normal tt /\
  queue (svc (snd (processQueue env depth w))) = queue (svc w) /\
  dispatched (plat (snd (processQueue env depth w))) = dispatched (plat w) /\
  offline_data (plat (snd (processQueue env depth w)))
    = offline_data (plat w) /\
  writes (plat (snd (processQueue env depth w))) = writes (plat w) /\
  isProcessing (svc (snd (processQueue env depth w))) = false.
Proof.
  intros Hidle Hprobe.
  rewrite isConnected_run in Hprobe. simpl in Hprobe.
  injection Hprobe as Hprobe. unfold processQueue.
  destruct (queue (svc w)) as [|a rest] eqn:Hq.
  - rewrite processQueue_guarded by (by right). simpl. by repeat split.
  - rewrite processQueue_offline by (try done; by rewrite Hq).
    simpl. by rewrite Hq.
Qed.

Lemma processQueue_offline_leaves_queue_witness :
  queue (svc (snd (processQueue Sample.env_offline_faulty 1
                     (Sample.idle [Sample.entry_A; Sample.entry_B]))))
    = [Sample.entry_A; Sample.entry_B] /\
  dispatched (plat (snd (processQueue Sample.env_offline_faulty 1
                     (Sample.idle [Sample.entry_A; Sample.entry_B])))) = [].
Proof.
  destruct (processQueue_offline_leaves_queue Sample.env_offline_faulty 1
              (Sample.idle [Sample.entry_A; Sample.entry_B]))
    as (_ & Hq & Hd & _); [reflexivity..|].
  split; [exact Hq | exact Hd].
Defined.

Section Lifecycle.
Variable env : Env.

Lemma updateConnectivity_run (w : World) :
  NetInfo.updateConnectivity env w = (Normal tt, probed env w).
Proof.
  unfold NetInfo.updateConnectivity, probed, probe_value, try_catch, bind,
    NetInfo_fetch_isConnected; simpl.
  destruct (NetInfo_fetch env (probes (plat w))) as [state|e] eqn:E; simpl.
  - reflexivity.
  - destruct w as [s [c] p]; reflexivity.
Qed.

Lemma initialize_run (depth : nat) (w : World) :
  isInitialized (svc w) = false ->
  initialize env depth w =
  (Normal tt,
   set_isInitialized true
     (if (connected (net w)
          && (0 <? length (queue (svc (loaded env w))))%nat)%bool
      then snd (processQueue env depth (loaded env w))
      else loaded env w)).
Proof.
  intros Hinit.
  unfold initialize, Over.initialize. unfold bind at 1. unfold gets at 1.
  rewrite Hinit.
  unfold try_catch. unfold bind at 1. rewrite storageService_getItem_run.
  unfold loaded.
  destruct (read_value env w) as [q|]; simpl.
  - unfold bind, modify, Over.addConnectivityListener,
      Over.handleConnectivityChange, bind, gets, detached, ret. simpl.
    destruct (connected (net w)); simpl; [|reflexivity].
    by destruct (0 <? length q)%nat.
  - unfold bind, modify, Over.addConnectivityListener,
      Over.handleConnectivityChange, bind, gets, detached, ret. simpl.
    destruct (connected (net w)); simpl; [|reflexivity].
    by destruct (0 <? length (queue (svc w)))%nat.
Qed.

Lemma initialize_initializes (depth : nat) (w : World) :
  isInitialized (svc (snd (initialize env depth w))) = true.
Proof.
  destruct (isInitialized (svc w)) eqn:Hinit.
  - unfold initialize, Over.initialize, bind, gets. by rewrite Hinit.
  - by rewrite initialize_run.
Qed.

(** The modules are loaded: the constructor's probe, then [initialize]. *)
Lemma restart_run (depth : nat) (w : World) :
  restart env depth w
  = snd (initialize env depth (probed env (instances (plat w)))).
Proof.
  unfold restart, load, NetInfo.constructor, OfflineQueue.constructor.
  unfold bind, detached. by rewrite updateConnectivity_run.
Qed.

(** After a restart, offline: what could be read of the stored queue is
    the queue. *)
Lemma restart_offline (depth : nat) (w : World) :
  probes_report env false (probes (plat w)) ->
  queue (svc (restart env depth w)) = default [] (read_value env w) /\
  isInitialized (svc (restart env depth w)) = true.
Proof.
  intros Hoff. rewrite restart_run.
  split; [|apply initialize_initializes].
  rewrite initialize_run by reflexivity.
  assert (Hp : probe_value env (instances (plat w)) = false).
  { apply (probe_value_reported env false (probes (plat w))); [exact Hoff|].
    simpl. lia. }
  cbn [probed net connected]. rewrite Hp. cbn [andb].
  unfold loaded, read_value. simpl.
  by destruct (AsyncStorage_getItem env (reads (plat w))),
       (offline_data (plat w)).
Qed.

Lemma enqueue_each_offline (depth : nat) (cs : list AxiosRequestConfig) :
  forall w : World,
  isInitialized (svc w) = true ->
  probes_report env false (probes (plat w)) ->
  exists new : list QueuedRequest,
    fst (enqueue_each env (S depth) cs w) = Normal tt /\
    queue (svc (snd (enqueue_each env (S depth) cs w)))
      = queue (svc w) ++ new /\
    map config new = cs /\
    dispatched (plat (snd (enqueue_each env (S depth) cs w)))
      = dispatched (plat w).
Proof.
  induction cs as [|c cs IH]; intros w Hinit Hoff.
  - exists []. simpl. by rewrite app_nil_r.
  - assert (Hstep : enqueue_each env (S depth) (c :: cs) w
                     = enqueue_each env (S depth) cs (enqueued env c w)).
    { cbn [enqueue_each]. unfold bind at 1.
      rewrite (enqueueRequest_run env depth c w Hinit).
      by rewrite (probe_value_reported env false _ w Hoff) by lia. }
    rewrite Hstep.
    destruct (IH (enqueued env c w)) as (new & Hn & Hq & Hc & Hd).
    + exact Hinit.
    + apply (probes_report_mono env false (probes (plat w))); [exact Hoff|].
      simpl. lia.
    + exists (new_request env c w :: new).
      split; [exact Hn|]. split; [|split].
      * rewrite Hq. simpl. by rewrite <- app_assoc.
      * simpl. by rewrite Hc.
      * rewrite Hd. reflexivity.
Qed.

End Lifecycle.

(** X4. Requests enqueued one after the other while offline are appended
    in call order behind the entries already queued, which stay as they
    are; none is dispatched. *)
Theorem enqueue_each_offline_fifo (env : Env) (depth : nat)
    (cs : list AxiosRequestConfig) (w : World) :
  isInitialized (svc w) = true ->
  probes_report env false (probes (plat w)) ->
  exists new : list QueuedRequest,
    fst (enqueue_each env (S depth) cs w) = Normal tt /\
    queue (svc (snd (enqueue_each env (S depth) cs w)))
      = queue (svc w) ++ new /\
    map config new = cs /\
    length (queue (svc (snd (enqueue_each env (S depth) cs w))))
      = (length (queue (svc w)) + length cs)%nat /\
    dispatched (plat (snd (enqueue_each env (S depth) cs w)))
      = dispatched (plat w).
Proof.
  intros Hinit Hoff.
  destruct (enqueue_each_offline env depth cs w Hinit Hoff)
    as (new & Hn & Hq & Hc & Hd).
  exists new. split; [exact Hn|]. split; [exact Hq|]. split; [exact Hc|].
  split; [|exact Hd].
  rewrite Hq, length_app, <- Hc. by rewrite length_map.
Qed.

Lemma enqueue_each_offline_fifo_witness :
  map config
    (queue (svc (snd (enqueue_each Scenario.env_offline 1
                        [Sample.clock_out; Scenario.notes]
                        (Sample.idle [Sample.entry_A])))))
  = [Sample.clock_in; Sample.clock_out; Scenario.notes].
Proof.
  destruct (enqueue_each_offline_fifo Scenario.env_offline 0
              [Sample.clock_out; Scenario.notes]
              (Sample.idle [Sample.entry_A]))
    as (new & _ & Hq & Hc & _).
  - reflexivity.
  - intros n _. by exists (Some false).
  - rewrite Hq, map_app, Hc. reflexivity.
Defined.

(** X5. An enqueue made offline whose storage write succeeds leaves the
    stored copy equal to the queue in memory, the new entry included. *)
Theorem enqueue_offline_persists (env : Env) (depth : nat)
    (c : AxiosRequestConfig) (w : World) :
  isInitialized (svc w) = true ->
  fst (NetInfo.isConnected env w) = Normal false ->
  AsyncStorage_setItem env (writes (plat w)) = true ->
  queue (svc (snd (enqueueRequest env (S depth) c w)))
    = queue (svc w) ++ [new_request env c w] /\
  offline_data (plat (snd (enqueueRequest env (S depth) c w)))
    = Some (queue (svc (snd (enqueueRequest env (S depth) c w)))).
Proof.
  intros Hinit Hprobe Hwrite.
  rewrite isConnected_run in Hprobe. simpl in Hprobe.
  injection Hprobe as Hprobe.
  rewrite (enqueueRequest_run env depth c w Hinit), Hprobe. simpl.
  by rewrite Hwrite.
Qed.

Lemma enqueue_offline_persists_witness :
  offline_data (plat (snd (enqueueRequest Scenario.env_offline 1
                             Sample.clock_out (Sample.idle [Sample.entry_A]))))
  = Some (queue (svc (snd (enqueueRequest Scenario.env_offline 1
                             Sample.clock_out (Sample.idle [Sample.entry_A]))))).
Proof.
  apply (enqueue_offline_persists Scenario.env_offline 0 Sample.clock_out
           (Sample.idle [Sample.entry_A])); reflexivity.
Defined.

(** X6. An enqueue made on an idle service while online, with every
    dispatch resolving, sends what was queued and then the new request, in
    that order, and leaves the queue empty. *)
Theorem enqueue_online_dispatches_at_once (env : Env) (depth : nat)
    (c : AxiosRequestConfig) (w : World) :
  isInitialized (svc w) = true ->
  isProcessing (svc w) = false ->
  probes_report env true (probes (plat w)) ->
  (forall n c', resolves (api_request env n c') = true) ->
  queue (svc (snd (enqueueRequest env (S depth) c w))) = [] /\
  dispatched (plat (snd (enqueueRequest env (S depth) c w)))
    = dispatched (plat w) ++ map config (queue (svc w)) ++ [c].
Proof.
  intros Hinit Hidle Hon Hall.
  rewrite (enqueueRequest_run env depth c w Hinit).
  rewrite (probe_value_reported env true _ w Hon) by lia. cbn [snd].
  destruct (processQueue_all_resolved env depth (enqueued env c w))
    as (Hq & Hd & _).
  - exact Hidle.
  - apply (probe_value_reported env true (probes (plat w))); [exact Hon|].
    simpl. lia.
  - exact Hall.
  - split; [exact Hq|]. rewrite Hd. simpl. by rewrite map_app.
Qed.

Lemma enqueue_online_dispatches_at_once_witness :
  dispatched (plat (snd (enqueueRequest Sample.env_online 1 Sample.clock_out
                           (Sample.idle [Sample.entry_A]))))
  = [Sample.clock_in; Sample.clock_out].
Proof.
  apply (enqueue_online_dispatches_at_once Sample.env_online 0
           Sample.clock_out (Sample.idle [Sample.entry_A])); try reflexivity.
  intros n _. by exists (Some true).
Defined.

(** X7. A queue that was persisted comes back after a restart: when the
    write succeeded and the device is offline at start-up, loading the
    modules leaves the service initialised with the entries that were
    persisted, in their order, provided the read of the stored copy
    succeeds; when that read is rejected the service starts with an empty
    queue. *)
Theorem persist_restart_roundtrip (env : Env) (depth : nat) (w : World) :
  AsyncStorage_setItem env (writes (plat w)) = true ->
  probes_report env false (probes (plat w)) ->
  queue (svc (restart env depth (snd (persistQueue env w))))
    = (if AsyncStorage_getItem env (reads (plat w)) then queue (svc w)
       else []) /\
  isInitialized (svc (restart env depth (snd (persistQueue env w)))) = true.
Proof.
  intros Hwrite Hoff. rewrite persistQueue_run. cbn [snd].
  destruct (restart_offline env depth (persisted env w)) as [Hq Hi].
  { exact Hoff. }
  split; [|exact Hi]. rewrite Hq. unfold read_value. simpl.
  rewrite Hwrite. by destruct (AsyncStorage_getItem env (reads (plat w))).
Qed.

Lemma persist_restart_roundtrip_witness :
  queue (svc (restart Scenario.env_offline 1
                (snd (persistQueue Scenario.env_offline
                        (Sample.idle [Sample.entry_A; Sample.entry_B])))))
    = [Sample.entry_A; Sample.entry_B] /\
  queue (svc (restart Scenario.env_offline_unreadable 1
                (snd (persistQueue Scenario.env_offline_unreadable
                        (Sample.idle [Sample.entry_A; Sample.entry_B])))))
    = [].
Proof.
  split.
  - apply (persist_restart_roundtrip Scenario.env_offline 1
             (Sample.idle [Sample.entry_A; Sample.entry_B])).
    + reflexivity.
    + intros n _. by exists (Some false).
  - apply (persist_restart_roundtrip Scenario.env_offline_unreadable 1
             (Sample.idle [Sample.entry_A; Sample.entry_B])).
    + reflexivity.
    + intros n _. by exists (Some false).
Defined.

(** X8. When the modules are loaded with the device connected, the probe
    of the [NetInfoService] constructor leaves the cached state [true], so
    [initialize] starts a pass on the queue it has read: with every
    dispatch resolving, the stored requests are sent in their order and the
    queue ends empty.  When the read of the stored queue is rejected,
    nothing is loaded and nothing is sent. *)
Theorem restart_online_replays (env : Env) (depth : nat) (w : World)
    (q : list QueuedRequest) :
  offline_data (plat w) = Some q ->
  probes_report env true (probes (plat w)) ->
  (forall n c, resolves (api_request env n c) = true) ->
  queue (svc (restart env depth w)) = [] /\
  dispatched (plat (restart env depth w))
    = dispatched (plat w)
      ++ (if AsyncStorage_getItem env (reads (plat w)) then map config q
          else []) /\
  isInitialized (svc (restart env depth w)) = true.
Proof.
  intros Hstored Hon Hall. rewrite restart_run.
  split; [|split; [|apply initialize_initializes]].
  - rewrite initialize_run by reflexivity.
    unfold loaded, read_value. simpl. rewrite Hstored.
    destruct (AsyncStorage_getItem env (reads (plat w))); simpl;
      [|by rewrite andb_false_r].
    destruct q as [|a q]; [by rewrite andb_false_r|]. simpl.
    rewrite (probe_value_reported env true (probes (plat w)))
      by (try done; simpl; lia).
    simpl.
    match goal with
    | |- context [processQueue env depth ?w0] =>
        destruct (processQueue_all_resolved env depth w0) as (Hq & _)
    end; try done.
    apply (probe_value_reported env true (probes (plat w))); [exact Hon|].
    simpl. lia.
  - rewrite initialize_run by reflexivity.
    unfold loaded, read_value. simpl. rewrite Hstored.
    destruct (AsyncStorage_getItem env (reads (plat w))); simpl;
      [|by rewrite andb_false_r, app_nil_r].
    destruct q as [|a q]; [by rewrite andb_false_r, app_nil_r|]. simpl.
    rewrite (probe_value_reported env true (probes (plat w)))
      by (try done; simpl; lia).
    simpl.
    match goal with
    | |- context [processQueue env depth ?w0] =>
        destruct (processQueue_all_resolved env depth w0) as (_ & Hd & _)
    end; try done.
    apply (probe_value_reported env true (probes (plat w))); [exact Hon|].
    simpl. lia.
Qed.

Lemma restart_online_replays_witness :
  dispatched (plat (restart Sample.env_online 1
                      (snd (persistQueue Sample.env_online
                              (Sample.idle [Sample.entry_A; Sample.entry_B])))))
  = [Sample.clock_in; Sample.clock_out].
Proof.
  apply (restart_online_replays Sample.env_online 1
           (snd (persistQueue Sample.env_online
                   (Sample.idle [Sample.entry_A; Sample.entry_B])))
           [Sample.entry_A; Sample.entry_B]).
  - reflexivity.
  - intros n _. by exists (Some true).
  - reflexivity.
Defined.

(** X9. [initialize] does its work once: whatever the state it is called
    in, the service is initialised afterwards and a further call changes
    nothing (it neither reads the storage nor starts a pass). *)
Theorem initialize_idempotent (env : Env) (depth depth' : nat) (w : World) :
  isInitialized (svc (snd (initialize env depth w))) = true /\
  initialize env depth' (snd (initialize env depth w))
    = (Normal tt, snd (initialize env depth w)).
Proof.
  pose proof (initialize_initializes env depth w) as Hinit.
  split; [exact Hinit|].
  unfold initialize at 1. unfold Over.initialize, bind, gets.
  by rewrite Hinit.
Qed.

(** X10. [clearQueue] empties the queue in memory whether or not its write
    succeeds.  After a restart (offline, the stored copy readable) the
    queue is empty when the write succeeded and is the previously stored
    queue when it was rejected; when the stored copy cannot be read the
    queue is empty in both cases. *)
Theorem clearQueue_then_restart (env : Env) (depth : nat) (w : World) :
  probes_report env false (probes (plat w)) ->
  fst (clearQueue env w) = Normal tt /\
  queue (svc (snd (clearQueue env w))) = [] /\
  queue (svc (restart env depth (snd (clearQueue env w))))
    = if AsyncStorage_getItem env (reads (plat w))
      then if AsyncStorage_setItem env (writes (plat w)) then []
           else default [] (offline_data (plat w))
      else [].
Proof.
  intros Hoff.
  assert (Hclear : clearQueue env w
                   = (Normal tt, persisted env (set_queue [] w))).
  { unfold clearQueue, bind, modify. by rewrite persistQueue_run. }
  rewrite Hclear. cbn [fst snd].
  split; [done|]. split; [done|].
  destruct (restart_offline env depth (persisted env (set_queue [] w)))
    as [Hq _].
  { exact Hoff. }
  rewrite Hq. unfold read_value. simpl.
  destruct (AsyncStorage_getItem env (reads (plat w))); [|reflexivity].
  by destruct (AsyncStorage_setItem env (writes (plat w))).
Qed.

Lemma clearQueue_then_restart_witness :
  queue (svc (restart Sample.env_offline_faulty 1
                (snd (clearQueue Sample.env_offline_faulty
                        (snd (persistQueue Scenario.env_offline
                                (Sample.idle [Sample.entry_A])))))))
  = [Sample.entry_A].
Proof.
  apply (clearQueue_then_restart Sample.env_offline_faulty 1
           (snd (persistQueue Scenario.env_offline
                   (Sample.idle [Sample.entry_A])))).
  intros n _. by exists (Some false).
Defined.

(** ** Listeners *)

Section HubFacts.
Import Hub.

Lemma notifyListeners_run (h : NetInfoHub) :
  notifyListeners h =
  {| world := world h; listeners := listeners h;
     calls := calls h ++
              List.map (fun l => (l, connected (net (world h)))) (listeners h) |}.
Proof.
  unfold notifyListeners.
  assert (H : forall (ls : list nat) (h0 : NetInfoHub),
    foldl (fun h' l => call l h') h0 ls =
    {| world := world h0; listeners := listeners h0;
       calls := calls h0 ++
                List.map (fun l => (l, connected (net (world h0)))) ls |}).
  { induction ls as [|l ls IH]; intros h0; simpl.
    - rewrite app_nil_r. by destruct h0.
    - rewrite IH. simpl. by rewrite <- app_assoc. }
  apply H.
Qed.

Lemma delivered_once (l : nat) (c : bool) (ls : list nat) :
  NoDup ls ->
  List.map snd
    (List.filter (fun p : nat * bool => (fst p =? l)%nat)
       (List.map (fun x => (x, c)) ls))
  = if decide (l ∈ ls) then [c] else [].
Proof.
  induction ls as [|x ls IH]; intros Hnd.
  - by rewrite decide_False by set_solver.
  - simpl. apply NoDup_cons in Hnd as [Hx Hnd]. specialize (IH Hnd).
    destruct (x =? l)%nat eqn:E.
    + apply Nat.eqb_eq in E. subst x. simpl. rewrite IH.
      destruct (decide (l ∈ ls)) as [Hin|Hin]; [done|].
      destruct (decide (l ∈ l :: ls)) as [Hin'|Hin']; [done|].
      exfalso. apply Hin'. apply list_elem_of_here.
    + apply Nat.eqb_neq in E. rewrite IH.
      destruct (decide (l ∈ ls)) as [Hin|Hin];
        destruct (decide (l ∈ x :: ls)) as [Hin'|Hin']; try done.
      * exfalso. apply Hin'. by apply list_elem_of_further.
      * exfalso. apply elem_of_cons in Hin' as [->|Hin']; done.
Qed.

Lemma handleNetInfoChange_delivered (l : nat) (ev : option bool)
    (h : NetInfoHub) :
  NoDup (listeners h) ->
  listeners (handleNetInfoChange ev h) = listeners h /\
  connected (net (world (handleNetInfoChange ev h))) = NetInfo.nullish_false ev /\
  delivered l (handleNetInfoChange ev h)
  = delivered l h ++
    if decide (l ∈ listeners h)
    then flips (connected (net (world h))) [NetInfo.nullish_false ev]
    else [].
Proof.
  intros Hnd. unfold handleNetInfoChange. simpl.
  destruct (Bool.eqb (connected (net (world h))) (NetInfo.nullish_false ev))
    eqn:E; simpl.
  - apply Bool.eqb_prop in E. split; [done|]. split; [done|].
    case_decide; by rewrite app_nil_r.
  - rewrite notifyListeners_run. simpl. split; [done|]. split; [done|].
    unfold delivered. simpl. rewrite List.filter_app, List.map_app.
    by rewrite delivered_once.
Qed.

Lemma handle_events_delivered (l : nat) (evs : list (option bool)) :
  forall h : NetInfoHub,
  NoDup (listeners h) ->
  listeners (handle_events evs h) = listeners h /\
  delivered l (handle_events evs h)
  = delivered l h ++
    if decide (l ∈ listeners h)
    then flips (connected (net (world h))) (List.map NetInfo.nullish_false evs)
    else [].
Proof.
  induction evs as [|ev evs IH]; intros h Hnd.
  - simpl. split; [done|]. case_decide; by rewrite app_nil_r.
  - unfold handle_events in *. simpl.
    destruct (handleNetInfoChange_delivered l ev h Hnd) as (Hl & Hc & Hd).
    destruct (IH (handleNetInfoChange ev h)) as [Hl' Hd'].
    { by rewrite Hl. }
    split; [by rewrite Hl', Hl|].
    rewrite Hd', Hd, Hl, Hc, <- app_assoc. f_equal.
    destruct (decide (l ∈ listeners h)) as [Hin|Hin]; [|reflexivity].
    simpl.
    destruct (Bool.eqb (connected (net (world h))) (NetInfo.nullish_false ev))
      eqn:E; [|reflexivity].
    apply Bool.eqb_prop in E. by rewrite E.
Qed.

Lemma set_add_NoDup (l : nat) (ls : list nat) :
  NoDup ls -> NoDup (set_add l ls).
Proof.
  intros Hnd. unfold set_add. case_decide; [done|].
  apply NoDup_app. split; [done|]. split.
  - intros x Hx Hx'. apply list_elem_of_singleton in Hx'. by subst x.
  - apply NoDup_singleton.
Qed.

Lemma set_delete_NoDup (l : nat) (ls : list nat) :
  NoDup ls -> NoDup (set_delete l ls).
Proof.
  intros Hnd. unfold set_delete. apply NoDup_ListNoDup.
  apply List.NoDup_filter. by apply NoDup_ListNoDup.
Qed.

Lemma set_delete_not_in (l : nat) (ls : list nat) : l ∉ set_delete l ls.
Proof.
  unfold set_delete. rewrite list_elem_of_In, filter_In.
  intros [_ H]. by rewrite Nat.eqb_refl in H.
Qed.

Lemma set_delete_other (l l' : nat) (ls : list nat) :
  l' <> l -> l' ∈ set_delete l ls <-> l' ∈ ls.
Proof.
  intros Hne. unfold set_delete. rewrite !list_elem_of_In, filter_In.
  split; [by intros [H _]|]. intros H. split; [done|].
  apply negb_true_iff, Nat.eqb_neq. done.
Qed.

Lemma set_delete_absent (l : nat) (ls : list nat) :
  l ∉ ls -> set_delete l ls = ls.
Proof.
  intros Hl. unfold set_delete. induction ls as [|x ls IH]; simpl; [done|].
  destruct (x =? l)%nat eqn:E.
  - apply Nat.eqb_eq in E. subst x. set_solver.
  - simpl. rewrite IH; [done|set_solver].
Qed.

End HubFacts.

(** X11. Change events are coalesced: over any sequence of platform
    events, a registered listener is called exactly at the events whose
    value differs from the state cached just before, with that value, and
    a function that is not registered is not called. *)
Theorem change_events_coalesce (evs : list (option bool))
    (h : Hub.NetInfoHub) (l : nat) :
  NoDup (Hub.listeners h) ->
  Hub.delivered l (Hub.handle_events evs h)
  = Hub.delivered l h ++
    if decide (l ∈ Hub.listeners h)
    then Hub.flips (connected (net (Hub.world h)))
           (List.map NetInfo.nullish_false evs)
    else [].
Proof.
  intros Hnd. by destruct (handle_events_delivered l evs h Hnd).
Qed.

Lemma change_events_coalesce_witness :
  Hub.delivered 2
    (Hub.handle_events [Some true; Some false; None; Some true; Some true]
       SampleHub.two_listeners)
  = [false; true].
Proof.
  apply (change_events_coalesce
           [Some true; Some false; None; Some true; Some true]
           SampleHub.two_listeners 2).
  compute_done.
Defined.

(** X12. [addConnectivityListener] calls the listener once, at once, with
    the cached state and without a probe; the listener is then registered
    exactly once, also when it was registered before or is added again. *)
Theorem addConnectivityListener_registers_once (l : nat)
    (h : Hub.NetInfoHub) :
  NoDup (Hub.listeners h) ->
  NoDup (Hub.listeners (Hub.addConnectivityListener l h)) /\
  l ∈ Hub.listeners (Hub.addConnectivityListener l h) /\
  Hub.calls (Hub.addConnectivityListener l h)
    = Hub.calls h ++ [(l, connected (net (Hub.world h)))] /\
  Hub.world (Hub.addConnectivityListener l h) = Hub.world h /\
  Hub.listeners (Hub.addConnectivityListener l (Hub.addConnectivityListener l h))
    = Hub.listeners (Hub.addConnectivityListener l h).
Proof.
  intros Hnd. simpl.
  assert (Hin : l ∈ Hub.set_add l (Hub.listeners h)).
  { unfold Hub.set_add. case_decide; [done|]. set_solver. }
  split; [by apply set_add_NoDup|]. split; [exact Hin|].
  split; [done|]. split; [done|].
  unfold Hub.set_add at 1. by rewrite decide_True.
Qed.

Lemma addConnectivityListener_registers_once_witness :
  Hub.listeners (Hub.addConnectivityListener 2 SampleHub.two_listeners)
    = [1; 2]%nat /\
  Hub.calls (Hub.addConnectivityListener 2 SampleHub.two_listeners)
    = [(2%nat, true)].
Proof.
  destruct (addConnectivityListener_registers_once 2 SampleHub.two_listeners)
    as (_ & _ & Hc & _).
  - compute_done.
  - split; [reflexivity | exact Hc].
Defined.

(** X13. After [removeConnectivityListener] the listener is not called by
    any later change event, the other listeners are called as they would
    have been, and removing a function that is not registered changes
    nothing. *)
Theorem removed_listener_is_not_called (l : nat) (evs : list (option bool))
    (h : Hub.NetInfoHub) :
  NoDup (Hub.listeners h) ->
  Hub.delivered l (Hub.handle_events evs (Hub.removeConnectivityListener l h))
    = Hub.delivered l h /\
  (forall l' : nat, l' <> l ->
     Hub.delivered l'
       (Hub.handle_events evs (Hub.removeConnectivityListener l h))
     = Hub.delivered l' (Hub.handle_events evs h)) /\
  (l ∉ Hub.listeners h -> Hub.removeConnectivityListener l h = h).
Proof.
  intros Hnd.
  assert (Hnd' : NoDup (Hub.listeners (Hub.removeConnectivityListener l h))).
  { simpl. by apply set_delete_NoDup. }
  split; [|split].
  - destruct (handle_events_delivered l evs _ Hnd') as [_ Hd].
    rewrite Hd. simpl.
    rewrite decide_False by apply set_delete_not_in.
    by rewrite app_nil_r.
  - intros l' Hne.
    destruct (handle_events_delivered l' evs _ Hnd') as [_ Hd].
    destruct (handle_events_delivered l' evs _ Hnd) as [_ Hd0].
    rewrite Hd, Hd0. simpl. f_equal.
    destruct (decide (l' ∈ Hub.set_delete l (Hub.listeners h))) as [Hin|Hin];
      destruct (decide (l' ∈ Hub.listeners h)) as [Hin0|Hin0]; try done.
    + exfalso. by apply Hin0, (set_delete_other l l').
    + exfalso. by apply Hin, set_delete_other.
  - intros Hl. unfold Hub.removeConnectivityListener.
    rewrite set_delete_absent by exact Hl. by destruct h.
Qed.

Lemma removed_listener_is_not_called_witness :
  Hub.delivered 1
    (Hub.handle_events [Some false; Some true]
       (Hub.removeConnectivityListener 1 SampleHub.two_listeners)) = [] /\
  Hub.delivered 2
    (Hub.handle_events [Some false; Some true]
       (Hub.removeConnectivityListener 1 SampleHub.two_listeners))
    = [false; true].
Proof.
  destruct (removed_listener_is_not_called 1 [Some false; Some true]
              SampleHub.two_listeners) as (H1 & H2 & _).
  - compute_done.
  - split; [exact H1|]. by rewrite H2.
Defined.

(** X14. A probe writes the cached state without calling any listener, so
    a change event that arrives after [isConnected] has returned the value
    it carries is dropped: no listener is told of that transition. The same
    holds for [updateConnectivity], which never throws. *)
Theorem probe_silences_change_event (env : Env) (h : Hub.NetInfoHub) :
  (exists b : bool,
     fst (Hub.isConnected env h) = Normal b /\
     Hub.calls (snd (Hub.isConnected env h)) = Hub.calls h /\
     Hub.handleNetInfoChange (Some b) (snd (Hub.isConnected env h))
       = snd (Hub.isConnected env h)) /\
  fst (Hub.updateConnectivity env h) = Normal tt /\
  Hub.calls (snd (Hub.updateConnectivity env h)) = Hub.calls h /\
  connected (net (Hub.world (snd (Hub.updateConnectivity env h))))
    = connected (net (Hub.world (snd (Hub.isConnected env h)))).
Proof.
  split.
  - exists (probe_value env (Hub.world h)).
    unfold Hub.isConnected, Hub.in_hub. rewrite isConnected_run. simpl.
    split; [done|]. split; [done|].
    unfold Hub.handleNetInfoChange. simpl.
    by rewrite Bool.eqb_reflx.
  - unfold Hub.updateConnectivity, Hub.isConnected, Hub.in_hub.
    rewrite isConnected_run, updateConnectivity_run. by simpl.
Qed.

(** ** More on the interceptors *)

(** X16. A 401 that cannot be refreshed ends the session: when the refresh
    token that is read is [null] or falsy, or the refresh call is rejected
    or answers without a truthy token, and the storage takes its writes,
    the original 401 error is rejected to the caller, both stored tokens
    are removed, and the request is not sent again nor handed to the
    offline queue. *)
Theorem unauthorized_without_refresh_clears_session {J : Type}
    (js : Api.Engine J) (srv : Api.Server J) (fuel : nat)
    (c : AxiosRequestConfig) (w : Api.State J) :
  Api.respond srv (length (Api.sent w)) (ApiSpec.outgoing js srv w c)
    = Some 401 ->
  ApiFacts.no_new_token js srv w ->
  (forall n : nat, Api.storage_write srv n = true) ->
  fst (Api.api js srv (S fuel) c w) = Throw (AxiosError (Some 401)) /\
  Api.auth_token (snd (Api.api js srv (S fuel) c w)) = None /\
  Api.refresh_token (snd (Api.api js srv (S fuel) c w)) = None /\
  Api.sent (snd (Api.api js srv (S fuel) c w))
    = Api.sent w ++ [ApiSpec.outgoing js srv w c] /\
  Api.handed_over (snd (Api.api js srv (S fuel) c w)) = Api.handed_over w.
Proof.
  intros H401 Hno Hstore.
  destruct (unauthorized_no_retry js srv fuel c w H401)
    as (e & w' & Hrun & Hs & Hh & _ & _ & Hclear).
  { intros rt Hrt Ht. unfold ApiFacts.no_new_token in Hno.
    rewrite Hrt in Hno. specialize (Hno Ht). unfold ApiSpec.new_token.
    destruct (Api.auth_refresh srv (length (Api.refreshed w)) rt)
      as [[tk|]|e]; try done.
    by rewrite Hno. }
  destruct (Hclear Hstore) as (-> & Ha & Ht).
  rewrite Hrun. by cbn [fst snd].
Qed.

Lemma unauthorized_without_refresh_clears_session_witness :
  (fst (Api.api SampleApi.js (SampleApi2.srv_status (Some 401) true) 1
          SampleApi.visit SampleApi.stale) = Throw (AxiosError (Some 401)) /\
   Api.auth_token
     (snd (Api.api SampleApi.js (SampleApi2.srv_status (Some 401) true) 1
             SampleApi.visit SampleApi.stale)) = None /\
   Api.refresh_token
     (snd (Api.api SampleApi.js (SampleApi2.srv_status (Some 401) true) 1
             SampleApi.visit SampleApi.stale)) = None) /\
  (fst (Api.api SampleApi.js SampleApi2.srv_expired 1 SampleApi.visit
          (SampleApi.session "expired" "false"))
     = Throw (AxiosError (Some 401)) /\
   Api.refreshed
     (snd (Api.api SampleApi.js SampleApi2.srv_expired 1 SampleApi.visit
             (SampleApi.session "expired" "false"))) = []).
Proof.
  split.
  - destruct (unauthorized_without_refresh_clears_session SampleApi.js
                (SampleApi2.srv_status (Some 401) true) 0 SampleApi.visit
                SampleApi.stale) as (Hr & Ha & Ht & _).
    + reflexivity.
    + vm_compute. intros _. exact I.
    + reflexivity.
    + split; [exact Hr|]. split; [exact Ha | exact Ht].
  - destruct (unauthorized_without_refresh_clears_session SampleApi.js
                SampleApi2.srv_expired 0 SampleApi.visit
                (SampleApi.session "expired" "false")) as (Hr & _).
    + reflexivity.
    + vm_compute. intros Ht. discriminate Ht.
    + reflexivity.
    + split; [exact Hr | reflexivity].
Defined.

(** X17. A request that gets no response is classified by a reachability
    probe: when the probe reports offline, the request as it went out is
    handed to the offline queue once and the caller gets the "queued"
    error; when it reports online, the caller gets the original error and
    nothing is queued. Neither case touches the stored tokens. *)
Theorem network_error_is_queued_only_offline {J : Type} (js : Api.Engine J)
    (srv : Api.Server J) (fuel : nat) (c : AxiosRequestConfig)
    (w : Api.State J) :
  Api.respond srv (length (Api.sent w)) (ApiSpec.outgoing js srv w c) = None ->
  fst (Api.api js srv (S fuel) c w)
    = (if Api.reachable srv (Api.reachability_probes w)
       then Throw (AxiosError None)
       else Throw (Rejected
              "Network error: Request queued for when connection is restored")) /\
  Api.handed_over (snd (Api.api js srv (S fuel) c w))
    = (if Api.reachable srv (Api.reachability_probes w)
       then Api.handed_over w
       else Api.handed_over w ++ [ApiSpec.outgoing js srv w c]) /\
  Api.sent (snd (Api.api js srv (S fuel) c w))
    = Api.sent w ++ [ApiSpec.outgoing js srv w c] /\
  Api.auth_token (snd (Api.api js srv (S fuel) c w)) = Api.auth_token w /\
  Api.refresh_token (snd (Api.api js srv (S fuel) c w))
    = Api.refresh_token w /\
  Api.refreshed (snd (Api.api js srv (S fuel) c w)) = Api.refreshed w.
Proof.
  intros Hnone.
  rewrite api_answered, Hnone.
  unfold Api.response_rejected, bind, Api.isConnected. simpl.
  by destruct (Api.reachable srv (Api.reachability_probes w)).
Qed.

Lemma network_error_is_queued_only_offline_witness :
  Api.handed_over
    (snd (Api.api SampleApi.js (SampleApi2.srv_status None false) 1
            SampleApi.visit SampleApi.stale))
  = [Api.set_authorization "expired" SampleApi.visit] /\
  Api.handed_over
    (snd (Api.api SampleApi.js (SampleApi2.srv_status None true) 1
            SampleApi.visit SampleApi.stale)) = [].
Proof.
  destruct (network_error_is_queued_only_offline SampleApi.js
              (SampleApi2.srv_status None false) 0 SampleApi.visit
              SampleApi.stale eq_refl) as (_ & Hoff & _).
  split; [exact Hoff | reflexivity].
Defined.

(** X18. A response with a status other than 401 is passed on untouched:
    a status in [200, 300) resolves with it, any other rejects with the
    original error; nothing is refreshed, retried, queued or removed from
    the session. *)
Theorem other_statuses_pass_through {J : Type} (js : Api.Engine J)
    (srv : Api.Server J) (fuel : nat) (c : AxiosRequestConfig)
    (w : Api.State J) (code : Z) :
  Api.respond srv (length (Api.sent w)) (ApiSpec.outgoing js srv w c)
    = Some code ->
  code <> 401 ->
  Api.api js srv (S fuel) c w
  = (if ((200 <=? code) && (code <? 300))%bool then Normal code
     else Throw (AxiosError (Some code)),
     ApiFacts.on_wire (ApiSpec.outgoing js srv w c) w).
Proof.
  intros Hcode Hne.
  rewrite api_answered, Hcode.
  destruct ((200 <=? code) && (code <? 300))%bool; [reflexivity|].
  unfold Api.response_rejected, bind. simpl.
  destruct (code =? 401) eqn:E; [|reflexivity].
  apply Z.eqb_eq in E. by subst code.
Qed.

Lemma other_statuses_pass_through_witness :
  fst (Api.api SampleApi.js (SampleApi2.srv_status (Some 422) false) 1
         SampleApi.visit SampleApi.stale) = Throw (AxiosError (Some 422)) /\
  Api.handed_over
    (snd (Api.api SampleApi.js (SampleApi2.srv_status (Some 422) false) 1
            SampleApi.visit SampleApi.stale)) = [].
Proof.
  rewrite (other_statuses_pass_through SampleApi.js
             (SampleApi2.srv_status (Some 422) false) 0 SampleApi.visit
             SampleApi.stale 422 eq_refl); [|discriminate].
  split; reflexivity.
Defined.

Section Bearer.
Import Storage Api ApiSpec ApiFacts.
Context {J : Type}.
Variable js : Engine J.
Variable srv : Server J.

Lemma try_refresh_frame (c : AxiosRequestConfig) (w w' : State J)
    (r : Completion (option AxiosRequestConfig)) :
  try_refresh js srv c w = (r, w') ->
  sent w' = sent w /\
  forall c', r = Normal (Some c') -> has_bearer c'.
Proof.
  unfold try_refresh. unfold bind at 1. rewrite storageService_getItem_token.
  cbv beta iota.
  destruct (stored js srv REFRESH_TOKEN w) as [rt|];
    [|intros H; inversion H; subst; by split].
  destruct (truthy js (Some rt)); [|intros H; inversion H; subst; by split].
  unfold bind at 1. unfold post_refresh at 1.
  destruct (auth_refresh srv (length (refreshed (read_done w))) rt)
    as [[t|]|e]; cbv beta iota;
    [|intros H; inversion H; subst; by split..].
  destruct (truthy js (Some t)); [|intros H; inversion H; subst; by split].
  unfold bind, setItem_AUTH_TOKEN, storage_op, setItem, platform, ret.
  cbn [storage_writes stores read_done].
  destruct (storage_write srv (storage_writes w)); cbn [fst snd];
    intros H; inversion H; subst.
  - split; [done|]. intros c' [= <-]. by eexists.
  - by split.
Qed.

Lemma clear_then_none_frame (w w' : State J)
    (r : Completion (option AxiosRequestConfig)) :
  (clearAuthAndRedirect srv ;;; ret None) w = (r, w') ->
  sent w' = sent w /\ forall c', r <> Normal (Some c').
Proof.
  unfold bind, ret.
  destruct (clearAuthAndRedirect_frame srv w) as (Hc & _).
  destruct (clearAuthAndRedirect srv w) as [[[]|e] w2]; simpl in Hc;
    intros H; inversion H; subst; by split.
Qed.

(** The part of the rejection handler that decides about a retry. *)
Lemma refresh_branch_frame (c : AxiosRequestConfig) (w w' : State J)
    (r : Completion (option AxiosRequestConfig)) :
  (r0 <- try_catch (try_refresh js srv c)
           (fun _ => clearAuthAndRedirect srv ;;; ret None) ;;
   match r0 with
   | Some originalRequest => ret (Some originalRequest)
   | None => clearAuthAndRedirect srv ;;; ret None
   end) w = (r, w') ->
  sent w' = sent w /\
  forall c', r = Normal (Some c') -> has_bearer c'.
Proof.
  set (clear_none := (clearAuthAndRedirect srv ;;; ret None)
                     : M (State J) (option AxiosRequestConfig)).
  unfold bind at 1. unfold try_catch at 1.
  destruct (try_refresh js srv c w) as [r0 w1] eqn:Htr.
  destruct (try_refresh_frame c w w1 r0 Htr) as [Hs Ht].
  destruct r0 as [[c0|]|e]; cbv beta iota.
  - unfold ret. intros H; inversion H; subst. split; [exact Hs|].
    intros c' [= <-]. by apply (Ht c0).
  - intros H. destruct (clear_then_none_frame w1 w' r H) as [Hc Hr].
    split; [by rewrite Hc|]. intros c' Hc'. by destruct (Hr c').
  - destruct (clear_none w1) as [r1 w2] eqn:H1.
    destruct (clear_then_none_frame w1 w2 r1 H1) as [Hc1 Hr1].
    destruct r1 as [[c1|]|e1].
    + by destruct (Hr1 c1).
    + intros H. destruct (clear_then_none_frame w2 w' r H) as [Hc Hr].
      split; [by rewrite Hc, Hc1|]. intros c' Hc'. by destruct (Hr c').
    + intros H; inversion H; subst. split; [by rewrite Hc1|done].
Qed.

(** Requests go out through [retry] only, and what is retried carries the
    header. *)
Lemma response_rejected_sent
    (retry : AxiosRequestConfig -> M (State J) Z) (error : JsError)
    (c : AxiosRequestConfig) (w : State J) :
  (forall c0 w0, has_bearer c0 ->
     exists new, sent (snd (retry c0 w0)) = sent w0 ++ new /\
                 Forall has_bearer new) ->
  exists new,
    sent (snd (response_rejected js srv retry error c w)) = sent w ++ new /\
    Forall has_bearer new.
Proof.
  intros Hretry. unfold response_rejected. cbv zeta.
  destruct error as [|reason|[code|]|]; unfold bind at 1;
    try (exists []; by rewrite app_nil_r).
  - destruct (code =? 401).
    + match goal with
      | |- context [let (c0, w') := ?b w in _] =>
          destruct (b w) as [r w1] eqn:Hb
      end.
      destruct (refresh_branch_frame c w w1 r Hb) as [Hs Ht].
      destruct r as [[c'|]|e].
      * destruct (Hretry c' w1 (Ht c' eq_refl)) as (new & Hn & Hall).
        exists new. by rewrite Hn, Hs.
      * exists []. rewrite app_nil_r. by split.
      * exists []. rewrite app_nil_r. by split.
    + exists []. by rewrite app_nil_r.
  - exists []. rewrite app_nil_r. unfold ret at 1. cbv beta iota.
    unfold bind, isConnected. simpl.
    by destruct (reachable srv (reachability_probes w)).
Qed.

Lemma api_sent (fuel : nat) :
  forall (c : AxiosRequestConfig) (w : State J),
  has_bearer c \/ truthy js (stored js srv AUTH_TOKEN w) = true ->
  exists new, sent (snd (api js srv fuel c w)) = sent w ++ new /\
              Forall has_bearer new.
Proof.
  induction fuel as [|fuel IH]; intros c w Hc.
  - exists []. by rewrite app_nil_r.
  - assert (Hout : has_bearer (outgoing js srv w c)).
    { unfold outgoing.
      destruct (stored js srv AUTH_TOKEN w) as [t|] eqn:Hst.
      - destruct (truthy js (Some t)) eqn:Ht; [by eexists|].
        by destruct Hc.
      - by destruct Hc. }
    assert (Hrej : forall e, exists new,
      sent (snd (response_rejected js srv (api js srv fuel) e
                   (outgoing js srv w c) (on_wire (outgoing js srv w c) w)))
        = sent w ++ new /\ Forall has_bearer new).
    { intros e.
      destruct (response_rejected_sent (api js srv fuel) e
                  (outgoing js srv w c) (on_wire (outgoing js srv w c) w))
        as (new & Hn & Hall).
      { intros c0 w0 Hc0. apply IH. by left. }
      exists (outgoing js srv w c :: new). rewrite Hn. simpl.
      rewrite <- app_assoc. split; [done|]. by constructor. }
    rewrite api_answered.
    destruct (respond srv (length (sent w)) (outgoing js srv w c)) as [code|].
    + destruct ((200 <=? code) && (code <? 300))%bool; [|apply Hrej].
      exists [outgoing js srv w c]. split; [done|]. by constructor.
    + apply Hrej.
Qed.

End Bearer.

(** X15. When the access token that the request interceptor reads is
    truthy, no request leaves the client without an [Authorization: Bearer]
    header: this holds for the request itself and for every retry that
    follows a refresh.  What is read is the stored text parsed as JSON, so
    a stored text such as [false] does not count; nor does a rejected
    read. *)
Theorem every_request_carries_bearer {J : Type} (js : Api.Engine J)
    (srv : Api.Server J) (fuel : nat) (c : AxiosRequestConfig)
    (w : Api.State J) :
  Api.truthy js (ApiSpec.stored js srv Api.AUTH_TOKEN w) = true ->
  exists new : list AxiosRequestConfig,
    Api.sent (snd (Api.api js srv fuel c w)) = Api.sent w ++ new /\
    Forall ApiFacts.has_bearer new.
Proof. intros H. apply api_sent. by right. Qed.

Lemma every_request_carries_bearer_witness :
  (exists new : list AxiosRequestConfig,
     Api.sent (snd (Api.api SampleApi.js (SampleApi.srv 2) 3 SampleApi.visit
                      SampleApi.stale)) = new /\
     Forall ApiFacts.has_bearer new) /\
  Api.sent (snd (Api.api SampleApi.js (SampleApi.srv 0) 1 SampleApi.visit
                   (SampleApi.session "false" "refresh-1")))
    = [SampleApi.visit].
Proof.
  split.
  - destruct (every_request_carries_bearer SampleApi.js (SampleApi.srv 2) 3
                SampleApi.visit SampleApi.stale eq_refl)
      as (new & Hn & Hall).
    exists new. split; [exact Hn | exact Hall].
  - reflexivity.
Defined.

(** ** More on the offline slice *)

Section Arrays2.
Import Redux.
Context {A : Type}.

Lemma filter_index_from_all (keep : A -> Z -> bool) (l : list A) :
  forall k : Z,
  (forall (i : nat) (x : A), l !! i = Some x ->
     keep x (k + Z.of_nat i) = true) ->
  filter_index_from keep l k = l.
Proof.
  induction l as [|y l IH]; intros k Hkeep; simpl; [done|].
  pose proof (Hkeep 0%nat y eq_refl) as H0. simpl in H0.
  rewrite Z.add_0_r in H0. rewrite H0. f_equal.
  apply IH. intros i x Hx.
  replace (k + 1 + Z.of_nat i) with (k + Z.of_nat (S i)) by lia.
  by apply Hkeep.
Qed.

Lemma filter_index_from_none (keep : A -> Z -> bool) (l : list A) :
  forall k : Z,
  (forall (i : nat) (x : A), l !! i = Some x ->
     keep x (k + Z.of_nat i) = false) ->
  filter_index_from keep l k = [].
Proof.
  induction l as [|y l IH]; intros k Hkeep; simpl; [done|].
  pose proof (Hkeep 0%nat y eq_refl) as H0. simpl in H0.
  rewrite Z.add_0_r in H0. rewrite H0.
  apply IH. intros i x Hx.
  replace (k + 1 + Z.of_nat i) with (k + Z.of_nat (S i)) by lia.
  by apply Hkeep.
Qed.

(** Dropping one index. *)
Lemma filter_index_from_delete (l : list A) : forall (k id : Z),
  filter_index_from (fun _ index => negb (index =? id)) l k
  = if ((k <=? id) && (id <? k + Z.of_nat (length l)))%bool
    then delete (Z.to_nat (id - k)) l else l.
Proof.
  induction l as [|y l IH]; intros k id; simpl filter_index_from.
  - by destruct ((k <=? id) && (id <? k + Z.of_nat (length []))%Z)%bool.
  - rewrite IH. change (length (y :: l)) with (S (length l)).
    destruct (Z.eqb_spec k id) as [->|Hne]; simpl negb; cbv iota.
    + destruct (Z.leb_spec (id + 1) id); [lia|].
      destruct (Z.leb_spec id id); [|lia].
      destruct (Z.ltb_spec id (id + Z.of_nat (S (length l)))); [|lia].
      simpl andb. cbv iota. by rewrite Z.sub_diag.
    + destruct (Z.leb_spec k id); destruct (Z.leb_spec (k + 1) id); try lia;
        simpl andb; cbv iota; [|done].
      destruct (Z.ltb_spec id (k + 1 + Z.of_nat (length l)));
        destruct (Z.ltb_spec id (k + Z.of_nat (S (length l)))); try lia;
        [|done].
      replace (Z.to_nat (id - k)) with (S (Z.to_nat (id - (k + 1)))) by lia.
      reflexivity.
Qed.

Lemma findIndex_from_first (p : A -> bool) (l : list A) : forall (k : Z)
    (i : nat) (x : A),
  l !! i = Some x -> p x = true ->
  (forall (j : nat) (y : A), (j < i)%nat -> l !! j = Some y -> p y = false) ->
  findIndex_from p l k = k + Z.of_nat i.
Proof.
  induction l as [|y l IH]; intros k i x Hx Hp Hfirst; [done|].
  simpl. destruct i as [|i].
  - simpl in Hx. injection Hx as ->. rewrite Hp. lia.
  - rewrite (Hfirst 0%nat y ltac:(lia) eq_refl).
    rewrite (IH (k + 1) i x Hx Hp); [lia|].
    intros j z Hj Hz. apply (Hfirst (S j) z); [lia|exact Hz].
Qed.

End Arrays2.

Section Sync2.
Import Redux ReduxSpec.

(** An index the fulfilled case computed points at a pending action with
    the type of a successful result. *)
Lemma successful_index_found (payload : list SyncResult)
    (state : OfflineState) (i : nat) :
  includes (successfulActionIndexes payload state) (Z.of_nat i) = true ->
  exists (r : SyncResult) (pa : OfflineAction),
    In r payload /\ success r = true /\
    pendingActions state !! i = Some pa /\
    has_type (type (result_action r)) pa = true.
Proof.
  intros Hin. unfold includes in Hin. apply existsb_exists in Hin.
  destruct Hin as (j & Hj & Hij). apply Z.eqb_eq in Hij. subst j.
  unfold successfulActionIndexes in Hj. apply filter_In in Hj.
  destruct Hj as [Hj Hfound]. apply negb_true_iff, Z.eqb_neq in Hfound.
  apply in_map_iff in Hj. destruct Hj as (r & Hidx & Hr).
  apply filter_In in Hr. destruct Hr as [Hr Hsucc].
  fold (has_type (type (result_action r))) in Hidx.
  unfold findIndex in Hidx.
  assert (Hfound' : findIndex_from (has_type (type (result_action r)))
                      (pendingActions state) 0 <> -1) by by rewrite Hidx.
  destruct (findIndex_from_found _ _ 0 ltac:(lia) Hfound')
    as (i' & pa & Hi' & Hpa & Ht).
  rewrite Hidx in Hi'. assert (i' = i) by lia. subst i'.
  by exists r, pa.
Qed.

(** With no successful result the fulfilled case keeps every pending
    action. *)
Lemma fulfilled_without_success (now : Z) (payload : list SyncResult)
    (state : OfflineState) :
  (forall r : SyncResult, In r payload -> success r = false) ->
  pendingActions (syncOfflineData_fulfilled now payload state)
  = pendingActions state.
Proof.
  intros Hnone. cbn [syncOfflineData_fulfilled pendingActions].
  unfold filter_index. apply filter_index_from_all.
  intros i pa Hpa. rewrite Z.add_0_l.
  apply negb_true_iff, not_true_is_false. intros Hin.
  destruct (successful_index_found payload state i Hin)
    as (r & _ & Hr & Hsucc & _).
  by rewrite (Hnone r Hr) in Hsucc.
Qed.

End Sync2.

(** X19. [removePendingAction] removes the pending action at the given
    index and nothing else; an index that is negative or past the end
    leaves the list as it is. *)
Theorem removePendingAction_by_index (payload_id : Z)
    (state : Redux.OfflineState) :
  Redux.pendingActions (Redux.removePendingAction payload_id state)
  = if ((0 <=? payload_id)
        && (payload_id <? Z.of_nat (length (Redux.pendingActions state))))%bool
    then delete (Z.to_nat payload_id) (Redux.pendingActions state)
    else Redux.pendingActions state.
Proof.
  unfold Redux.removePendingAction, Redux.filter_index. simpl.
  rewrite filter_index_from_delete. by rewrite Z.sub_0_r.
Qed.

(** X20. A fulfilled sync keeps every pending action whose type has no
    successful result, in order. *)
Theorem sync_keeps_types_without_success (now : Z)
    (payload : list Redux.SyncResult) (state : Redux.OfflineState)
    (t : string) :
  (forall r : Redux.SyncResult, In r payload -> ReduxSpec.succeeded t r = false) ->
  List.filter (ReduxSpec.has_type t)
    (Redux.pendingActions (Redux.syncOfflineData_fulfilled now payload state))
  = List.filter (ReduxSpec.has_type t) (Redux.pendingActions state).
Proof.
  intros Hnone. cbn [Redux.syncOfflineData_fulfilled Redux.pendingActions].
  unfold Redux.filter_index. apply filter_index_from_keeps.
  intros i pa Hpa Ht. rewrite Z.add_0_l.
  apply negb_true_iff, not_true_is_false. intros Hin.
  destruct (successful_index_found payload state i Hin)
    as (r & pa' & Hr & Hsucc & Hpa' & Ht').
  rewrite Hpa in Hpa'. injection Hpa' as <-.
  specialize (Hnone r Hr). unfold ReduxSpec.succeeded in Hnone.
  rewrite Hsucc in Hnone. simpl in Hnone.
  rewrite (has_type_eq _ _ _ Ht Ht') in Hnone.
  by rewrite String.eqb_refl in Hnone.
Qed.

Lemma sync_keeps_types_without_success_witness :
  List.filter (ReduxSpec.has_type "visits/checkIn")
    (Redux.pendingActions
       (Redux.syncOfflineData_fulfilled 1700000000500
          [{| Redux.success := true;
              Redux.result_action := SampleRedux.sendMessage |};
           {| Redux.success := false;
              Redux.result_action := SampleRedux.checkIn |}]
          SampleRedux.waiting))
  = [SampleRedux.pending SampleRedux.checkIn 1700000000050].
Proof.
  rewrite (sync_keeps_types_without_success 1700000000500
             [{| Redux.success := true;
                 Redux.result_action := SampleRedux.sendMessage |};
              {| Redux.success := false;
                 Redux.result_action := SampleRedux.checkIn |}]
             SampleRedux.waiting "visits/checkIn").
  - reflexivity.
  - intros r [<-|[<-|[]]]; reflexivity.
Defined.

(** X21. A fulfilled sync in which no result is successful leaves the
    pending actions exactly as they were, and still stamps the time of the
    sync. *)
Theorem sync_without_success_keeps_pending (now : Z)
    (payload : list Redux.SyncResult) (state : Redux.OfflineState) :
  (forall r : Redux.SyncResult, In r payload -> Redux.success r = false) ->
  Redux.syncOfflineData_fulfilled now payload state
  = {| Redux.isOnline := Redux.isOnline state;
       Redux.pendingActions := Redux.pendingActions state;
       Redux.lastSyncTimestamp := Some now |}.
Proof.
  intros Hnone. unfold Redux.syncOfflineData_fulfilled. f_equal.
  apply (fulfilled_without_success now payload state Hnone).
Qed.

Lemma sync_without_success_keeps_pending_witness :
  Redux.pendingActions
    (Redux.syncOfflineData_fulfilled 1700000000500
       (SampleRedux.reported false SampleRedux.waiting)
       SampleRedux.waiting)
  = Redux.pendingActions SampleRedux.waiting.
Proof.
  rewrite (sync_without_success_keeps_pending 1700000000500
             (SampleRedux.reported false SampleRedux.waiting)
             SampleRedux.waiting).
  - reflexivity.
  - intros r [<-|[<-|[<-|[]]]]; reflexivity.
Defined.

Section Thunk.
Variable env : Env.
Import Redux.

(** One iteration of the loop: the action is dispatched, the call of
    [unwrap] throws, and the failure is recorded. *)
Lemma replay_run (depth : nat) (l : list OfflineAction) : forall app : App,
  exists (app' : App) (more : list OfflineAction),
    replay env (S (S depth)) l app
      = (Normal (List.map (fun pa => {| success := false;
                                        result_action := action pa |}) l),
         app') /\
    pendingActions (offline app') = pendingActions (offline app) ++ more.
Proof.
  induction l as [|pa l IH]; intros app.
  - exists app, []. simpl. by rewrite app_nil_r.
  - pose proof (offlineMiddleware_run env depth (action pa) app) as Hmw.
    cbn [replay]. unfold dispatch_unwrap.
    unfold bind, try_catch, detached, throw, ret.
    destruct (offlineMiddleware env (S (S depth)) (Other (action pa)) app)
      as [r app1].
    cbn [snd].
    assert (Hstep : exists one, pendingActions (offline app1)
                      = pendingActions (offline app) ++ one).
    { injection Hmw as _ ->.
      destruct (processOffline (action pa)); simpl.
      - destruct (probe_value env (world app)); simpl.
        + exists []. by rewrite app_nil_r.
        + by eexists.
      - exists []. by rewrite app_nil_r. }
    destruct Hstep as (one & Hone).
    destruct (IH app1) as (app' & more & Hrun & Hp).
    exists app', (one ++ more). rewrite Hrun. split.
    + reflexivity.
    + by rewrite Hp, Hone, app_assoc.
Qed.

End Thunk.

(** X22. A sync never removes a pending action.  In the store of
    [store.ts] a pending action is dispatched through [offlineMiddleware],
    so [dispatch] returns a promise without [unwrap]: every replay is
    dispatched again and then recorded as failed, the thunk resolves with
    one failed result per pending action, and the fulfilled case keeps the
    pending list, to which the replays can only have added. *)
Theorem sync_reports_every_replay_failed (env : Env) (depth : nat) (now : Z)
    (app : Redux.App) :
  Redux.isOnline (Redux.offline app) = true ->
  Redux.pendingActions (Redux.offline app) <> [] ->
  exists (results : list Redux.SyncResult) (app' : Redux.App)
         (more : list Redux.OfflineAction),
    Redux.syncOfflineData env (S (S depth)) app
      = (Normal (Some results), app') /\
    List.map Redux.result_action results
      = List.map Redux.action (Redux.pendingActions (Redux.offline app)) /\
    Forall (fun r => Redux.success r = false) results /\
    Redux.pendingActions
      (Redux.syncOfflineData_fulfilled now results (Redux.offline app'))
      = Redux.pendingActions (Redux.offline app) ++ more.
Proof.
  intros Honline Hpending.
  destruct (replay_run env depth (Redux.pendingActions (Redux.offline app))
              app) as (app' & more & Hrun & Hp).
  eexists _, app', more. split; [|split; [|split]].
  - assert (Hpos : (0 <? length (Redux.pendingActions (Redux.offline app)))%nat
                   = true).
    { by destruct (Redux.pendingActions (Redux.offline app)). }
    unfold Redux.syncOfflineData, bind, gets. rewrite Honline, Hpos.
    change (true && true)%bool with true. cbv beta iota.
    rewrite Hrun. reflexivity.
  - rewrite List.map_map. reflexivity.
  - apply Forall_forall. intros r Hr.
    apply list_elem_of_In, in_map_iff in Hr. by destruct Hr as (pa & <- & _).
  - rewrite fulfilled_without_success; [exact Hp|].
    intros r Hr. apply in_map_iff in Hr. by destruct Hr as (pa & <- & _).
Qed.

Lemma sync_reports_every_replay_failed_witness :
  fst (Redux.syncOfflineData Sample.env_online 2 SampleRedux.with_waiting)
    = Normal (Some (SampleRedux.reported false SampleRedux.waiting)) /\
  Redux.pendingActions
    (Redux.syncOfflineData_fulfilled 1700000000500
       (SampleRedux.reported false SampleRedux.waiting)
       (Redux.offline
          (snd (Redux.syncOfflineData Sample.env_online 2
                  SampleRedux.with_waiting))))
    = Redux.pendingActions SampleRedux.waiting.
Proof.
  destruct (sync_reports_every_replay_failed Sample.env_online 0
              1700000000500 SampleRedux.with_waiting)
    as (results & app' & more & Hrun & _ & _ & _);
    [reflexivity | discriminate |].
  split; [reflexivity|]. reflexivity.
Defined.

(** ** The storage service *)

Section StorageFacts.
Import Storage.
Context {J : Type}.
Variable JSON_stringify : J -> string.
Variable JSON_parse : string -> option (Value J).

Lemma store_set_store (secure secure' : bool) (m : gmap string string)
    (s : Stores) :
  store secure' (set_store secure m s)
  = if Bool.eqb secure secure' then m else store secure' s.
Proof. by destruct secure, secure'. Qed.

(** What a read yields from the string found under the key. *)
Lemma getItem_run (key : string) (secure parseJson : bool) (s : Stores) :
  getItem JSON_parse true key secure parseJson s
  = (Normal
       (match store secure s !! key with
        | None => None
        | Some v =>
            if parseJson then
              Some (default (Str v) (JSON_parse v))
            else Some (Str v)
        end), s).
Proof.
  unfold getItem, try_catch, bind, platform, ret. simpl.
  destruct (store secure s !! key) as [v|]; [|done].
  destruct parseJson; [|done]. by destruct (JSON_parse v).
Qed.

End StorageFacts.

(** X23. What was stored is read back under the same key and flag, the
    platform taking the write and the read: as the stored string when
    parsing is off or the string is not JSON, and otherwise as what
    [JSON.parse] makes of it; so a value that is not a string comes back as
    itself whenever parsing inverts stringifying, and a string that happens
    to be JSON does not come back as a string. *)
Theorem getItem_after_setItem {J : Type} (JSON_stringify : J -> string)
    (JSON_parse : string -> option (Storage.Value J))
    (key : string) (value : Storage.Value J) (secure parseJson : bool)
    (s : Storage.Stores) :
  (forall j : J, JSON_parse (JSON_stringify j) = Some (Storage.Other j)) ->
  fst (Storage.getItem JSON_parse true key secure parseJson
         (snd (Storage.setItem JSON_stringify true key value secure s)))
  = Normal
      (Some
         (match value with
          | Storage.Str v =>
              if parseJson then default (Storage.Str v) (JSON_parse v)
              else Storage.Str v
          | Storage.Other j =>
              if parseJson then Storage.Other j
              else Storage.Str (JSON_stringify j)
          end)).
Proof.
  intros Hjson. rewrite getItem_run.
  unfold Storage.setItem, Storage.platform. simpl.
  rewrite store_set_store, Bool.eqb_reflx, lookup_insert_eq.
  destruct value as [v|j]; destruct parseJson; try done.
  by rewrite Hjson.
Qed.

Lemma getItem_after_setItem_witness :
  fst (Storage.getItem SampleStorage.parse true "dark_mode" false true
         (snd (Storage.setItem SampleStorage.stringify true "dark_mode"
                 (Storage.Str "true") false SampleStorage.empty)))
  = Normal (Some (Storage.Other true)).
Proof.
  apply (getItem_after_setItem SampleStorage.stringify SampleStorage.parse
           "dark_mode" (Storage.Str "true") false true SampleStorage.empty).
  by intros [].
Defined.

(** X24. A write touches one key of one store: a read under another key,
    or under the same key with the other [secure] flag, yields what it
    yielded before the write. *)
Theorem setItem_leaves_other_entries {J : Type} (JSON_stringify : J -> string)
    (JSON_parse : string -> option (Storage.Value J))
    (key key' : string) (value : Storage.Value J)
    (secure secure' parseJson ok : bool) (s : Storage.Stores) :
  key' <> key \/ secure' <> secure ->
  fst (Storage.getItem JSON_parse true key' secure' parseJson
         (snd (Storage.setItem JSON_stringify ok key value secure s)))
  = fst (Storage.getItem JSON_parse true key' secure' parseJson s).
Proof.
  intros Hother. rewrite !getItem_run.
  unfold Storage.setItem, Storage.platform. destruct ok; [|done]. simpl.
  rewrite store_set_store.
  destruct (Bool.eqb secure secure') eqn:E; [|done].
  apply Bool.eqb_prop in E. subst secure'.
  destruct Hother as [Hk|Hs]; [|done].
  by rewrite lookup_insert_ne.
Qed.

Lemma setItem_leaves_other_entries_witness :
  fst (Storage.getItem SampleStorage.parse true "auth_token" true true
         (snd (Storage.setItem SampleStorage.stringify true "auth_token"
                 (Storage.Str "abc") false SampleStorage.empty)))
  = Normal None.
Proof.
  rewrite (setItem_leaves_other_entries SampleStorage.stringify
             SampleStorage.parse "auth_token" "auth_token"
             (Storage.Str "abc") false true true true SampleStorage.empty).
  - reflexivity.
  - right. discriminate.
Defined.

(** X25. [getItem] never throws: a rejected platform read yields [null],
    as does a key that is not there, in particular one that was removed;
    and [getAllKeys] for the encrypted store yields no key whatever the
    store holds. *)
Theorem getItem_missing_is_null {J : Type}
    (JSON_parse : string -> option (Storage.Value J))
    (key : string) (secure parseJson ok : bool) (s : Storage.Stores) :
  (exists v, fst (Storage.getItem JSON_parse ok key secure parseJson s)
             = Normal v) /\
  fst (Storage.getItem JSON_parse false key secure parseJson s) = Normal None /\
  fst (Storage.getItem JSON_parse true key secure parseJson
         (snd (Storage.removeItem true key secure s))) = Normal None /\
  fst (Storage.getItem JSON_parse true key secure parseJson
         (snd (Storage.clear true secure s))) = Normal None /\
  fst (Storage.getAllKeys ok true s) = Normal [].
Proof.
  split; [|split; [|split; [|split]]].
  - destruct ok; [rewrite getItem_run; by eexists|].
    by exists None.
  - reflexivity.
  - rewrite getItem_run. unfold Storage.removeItem, Storage.platform. simpl.
    by rewrite store_set_store, Bool.eqb_reflx, lookup_delete_eq.
  - rewrite getItem_run. unfold Storage.clear, Storage.platform. simpl.
    by rewrite store_set_store, Bool.eqb_reflx, lookup_empty.
  - reflexivity.
Qed.
